(** * ESP32 water monitor: the sensor-to-status pipeline

    A shallow embedding of the two firmware variants of the repository,
    [src/main.cpp] (serial only) and [backup/main_with_ble.cpp] (BLE
    notifier), and the properties their specification states about them.

    Numbers are modelled as the firmware has them.  A C [float] is an
    IEEE-754 binary32 value and a [double] a binary64 value, both carried
    by [spec_float] of the standard library, whose operations round to
    nearest-even in the format they are instantiated at.  A binary32
    value is also a binary64 value, so the implicit promotion of a
    [float] operand is the identity, and comparisons are made on the
    exact rational value.  [unsigned long] is a 32-bit integer with
    wrap-around.  Arduino [String]s are [string]s.

    The hardware and the C library are collaborators of the firmware and
    appear as a [Platform]: the sensor driver, the ADC, the random source,
    [sin], number formatting and the time that passes between two reads
    of the millisecond clock. *)

From Stdlib Require Import ZArith QArith Qpower Qround Qabs Bool List String Ascii.
From Stdlib Require Import Lia Lqa.
From Stdlib Require Import Floats.SpecFloat DecimalString.
Import ListNotations.

#[local] Open Scope Z_scope.

(* ================================================================== *)
(** * IEEE-754 values *)

(** The exact value of a floating-point datum. *)
Inductive xval : Type :=
| XNaN
| XInf (negative : bool)
| XFin (q : Q).

Definition pow2 (e : Z) : Q := Qpower (2 # 1) e.

Definition SF2X (x : spec_float) : xval :=
  match x with
  | S754_nan => XNaN
  | S754_infinity s => XInf s
  | S754_zero _ => XFin 0
  | S754_finite s m e => XFin (inject_Z (cond_Zopp s (Zpos m)) * pow2 e)
  end.

(** IEEE comparison: unordered as soon as one side is a NaN, and on the
    exact values otherwise (the two zeros are equal). *)
Definition Xcompare (a b : xval) : option comparison :=
  match a, b with
  | XNaN, _ | _, XNaN => None
  | XInf s1, XInf s2 =>
      Some (match s1, s2 with
            | true, false => Lt
            | false, true => Gt
            | _, _ => Eq
            end)
  | XInf s, XFin _ => Some (if s then Lt else Gt)
  | XFin _, XInf s => Some (if s then Gt else Lt)
  | XFin p, XFin q => Some (Qcompare p q)
  end.

Definition Fcompare (x y : spec_float) : option comparison :=
  Xcompare (SF2X x) (SF2X y).

(** [x < y], [x <= y] of C; [x > y] is [Fltb y x] and [x >= y] is
    [Fleb y x]. *)
Definition Fltb (x y : spec_float) : bool :=
  match Fcompare x y with Some Lt => true | _ => false end.

Definition Fleb (x y : spec_float) : bool :=
  match Fcompare x y with Some (Lt | Eq) => true | _ => false end.

Definition is_nan (x : spec_float) : bool :=
  match x with S754_nan => true | _ => false end.

Definition is_finite (x : spec_float) : bool :=
  match x with S754_zero _ | S754_finite _ _ _ => true | _ => false end.

(** Rounding of a value to a format, as an assignment or a cast to that
    format does. *)
Definition round_to (prec emax : Z) (x : spec_float) : spec_float :=
  match x with
  | S754_finite s m e => binary_round prec emax s m e
  | _ => x
  end.

(** [float]: binary32. *)
Module F32.
Definition prec : Z := 24.
Definition emax : Z := 128.
Definition add : spec_float -> spec_float -> spec_float := SFadd prec emax.
Definition sub : spec_float -> spec_float -> spec_float := SFsub prec emax.
Definition mul : spec_float -> spec_float -> spec_float := SFmul prec emax.
Definition div : spec_float -> spec_float -> spec_float := SFdiv prec emax.
Definition sqrt : spec_float -> spec_float := SFsqrt prec emax.
(** [(float) n] for an integer [n]. *)
Definition of_Z (z : Z) : spec_float := binary_normalize prec emax z 0 false.
(** [(float) d] for a double [d]. *)
Definition of_double : spec_float -> spec_float := round_to prec emax.
End F32.

(** [double]: binary64. *)
Module F64.
Definition prec : Z := 53.
Definition emax : Z := 1024.
Definition add : spec_float -> spec_float -> spec_float := SFadd prec emax.
Definition sub : spec_float -> spec_float -> spec_float := SFsub prec emax.
Definition mul : spec_float -> spec_float -> spec_float := SFmul prec emax.
Definition div : spec_float -> spec_float -> spec_float := SFdiv prec emax.
Definition of_Z (z : Z) : spec_float := binary_normalize prec emax z 0 false.
(** The decimal literal [n/d] of the source text, correctly rounded. *)
Definition lit (n d : Z) : spec_float := div (of_Z n) (of_Z d).
End F64.

(** Modelled from the spec: the unit converter is given with [vComp^3] and
    [vComp^2]; libm's [pow], which the source calls with the exponents 3
    and 2, is not under src/.  It is taken as the correctly rounded power
    for an exponent that is a positive integer. *)
Definition pow (x : spec_float) (n : positive) : spec_float :=
  let odd := negb (Z.even (Zpos n)) in
  match x with
  | S754_nan => S754_nan
  | S754_zero s => S754_zero (s && odd)
  | S754_infinity s => S754_infinity (s && odd)
  | S754_finite s m e =>
      binary_round F64.prec F64.emax (s && odd) (Pos.pow m n) (e * Zpos n)
  end.

(* ================================================================== *)
(** * Arduino core *)

(** [unsigned long] arithmetic of the ESP32: 32 bits. *)
Definition uint32 (z : Z) : Z := z mod 2 ^ 32.

(** Modelled from the spec: [clamp(x, lo, hi)].  Arduino's macro is
    [((amt)<(low)?(low):((amt)>(high)?(high):(amt)))]. *)
Definition constrain (amt low high : spec_float) : spec_float :=
  if Fltb amt low then low else if Fltb high amt then high else amt.

(** Modelled from the spec: [|magnitude|]. *)
Definition abs (x : spec_float) : spec_float := SFabs x.

Definition HIGH : Z := 1.
Definition LOW : Z := 0.

(** [String(unsigned long)]: the decimal digits. *)
Definition String_ulong (n : Z) : string :=
  NilZero.string_of_uint (N.to_uint (Z.to_N n)).

(** The double-quote character of the string literals of the source. *)
Definition dq : string := String (ascii_of_nat 34) EmptyString.

(* ================================================================== *)
(** * Constants of the firmware (identical in the two variants) *)

Definition TDS_PIN : Z := 1.
Definition LED_GREEN : Z := 2.
Definition LED_YELLOW : Z := 4.
Definition LED_RED : Z := 5.

Definition VREF : spec_float :=
  Eval vm_compute in F32.of_double (F64.lit 33 10).
Definition ADC_RES : Z := 4095.
Definition sensorTemperature : spec_float :=
  Eval vm_compute in F32.of_double (F64.lit 250 10).

Definition TDSCLEAN_THRESHOLD : spec_float :=
  Eval vm_compute in F32.of_double (F64.lit 3000 10).
Definition TDSDIRTY_THRESHOLD : spec_float :=
  Eval vm_compute in F32.of_double (F64.lit 4000 10).
Definition TDSXTREME_THRESHOLD : spec_float :=
  Eval vm_compute in F32.of_double (F64.lit 5000 10).
Definition VIB_THRESHOLD : spec_float :=
  Eval vm_compute in F32.of_double (F64.lit 15 10).

(** The [double] literals of the source text. *)
Module Lit.
Definition d9_8 : spec_float := Eval vm_compute in F64.lit 98 10.
Definition d100_0 : spec_float := Eval vm_compute in F64.lit 1000 10.
Definition d10_0 : spec_float := Eval vm_compute in F64.lit 100 10.
Definition d22_0 : spec_float := Eval vm_compute in F64.lit 220 10.
Definition d1_0 : spec_float := Eval vm_compute in F64.lit 10 10.
Definition d0_02 : spec_float := Eval vm_compute in F64.lit 2 100.
Definition d25_0 : spec_float := Eval vm_compute in F64.lit 250 10.
Definition d133_42 : spec_float := Eval vm_compute in F64.lit 13342 100.
Definition d255_86 : spec_float := Eval vm_compute in F64.lit 25586 100.
Definition d857_39 : spec_float := Eval vm_compute in F64.lit 85739 100.
Definition d0_5 : spec_float := Eval vm_compute in F64.lit 5 10.
Definition d7_0 : spec_float := Eval vm_compute in F64.lit 70 10.
Definition d0_8 : spec_float := Eval vm_compute in F64.lit 8 10.
Definition d2_0 : spec_float := Eval vm_compute in F64.lit 20 10.
Definition d1_5 : spec_float := Eval vm_compute in F64.lit 15 10.
Definition d15000_0 : spec_float := Eval vm_compute in F64.lit 150000 10.
Definition d18000_0 : spec_float := Eval vm_compute in F64.lit 180000 10.
Definition d6_0 : spec_float := Eval vm_compute in F64.lit 60 10.
Definition d9_0 : spec_float := Eval vm_compute in F64.lit 90 10.
Definition d0_1 : spec_float := Eval vm_compute in F64.lit 1 10.
(** The [int] bounds of [constrain(tds, 0, 2000)], converted to
    [float] for the comparison with [tds]. *)
Definition f0 : spec_float := Eval vm_compute in F32.of_Z 0.
Definition f2000 : spec_float := Eval vm_compute in F32.of_Z 2000.
End Lit.

(* ================================================================== *)
(** * The platform and the state of the firmware *)

(** What [mpu.getEvent(&accel, &gyro, &temp)] delivers and the firmware
    reads: [accel.acceleration.{x,y,z}] and [temp.temperature]. *)
Record sensors_event_t : Type := {
  acceleration_x : spec_float;
  acceleration_y : spec_float;
  acceleration_z : spec_float;
  event_temperature : spec_float
}.

(** The collaborators of the firmware.  Every call of the firmware to
    one of them takes the next index [n]; the platform answers by [n]. *)
Record Platform : Type := {
  (** milliseconds spent since the clock was last looked at, on top of
      the [delay]s *)
  elapsed : nat -> N;
  (** does [mpu.begin()] find the chip *)
  mpu_found : nat -> bool;
  mpu_event : nat -> sensors_event_t;
  adc_sample : nat -> Z;
  (** raw draw of the random source, reduced by [random] *)
  entropy : nat -> Z;
  (** a central connected ([Some true]) or disconnected ([Some false])
      since the task of the BLE stack last ran *)
  ble_client : nat -> option bool;
  (** libm *)
  sin : spec_float -> spec_float;
  (** [String(float, decimalPlaces)] *)
  String_float : spec_float -> nat -> string;
  (** [Serial.print(float, digits)] *)
  Print_float : spec_float -> nat -> string
}.

(** Calls that leave the firmware, in the order they are made. *)
Inductive Event : Type :=
| SerialBegin (baud : Z)
| SerialPrint (s : string)
| SerialPrintln (s : string)
| PinMode (pin : Z)
| DigitalWrite (pin : Z) (level : bool)
| Delay (ms : Z)
| WireBegin
| MpuBegin (found : bool)
| MpuSetAccelerometerRange
| MpuSetFilterBandwidth
| MpuGetEvent
| AnalogRead (pin : Z) (value : Z)
| Ble (call : string)
| BleNotify (payload : string).

(** Level of the three LED pins. *)
Record Gpio : Type := {
  green : bool;
  yellow : bool;
  red : bool
}.

(** The sensor variables of the firmware (its global variables [pH],
    [temperature], [tds], [turbidity], [vibration], [vibrationDetected]
    and [waterStatus]). *)
Record Reading : Type := {
  pH : spec_float;
  temperature : spec_float;
  tds : spec_float;
  turbidity : spec_float;
  vibration : spec_float;
  vibrationDetected : bool;
  waterStatus : string
}.

Record World : Type := {
  (** milliseconds since power-up, not wrapped *)
  clock : Z;
  (** number of calls made to the platform *)
  calls : nat;
  gpio : Gpio;
  (** most recent call first *)
  log : list Event;
  reading : Reading;
  lastReading : Z;
  deviceConnected : bool;
  oldDeviceConnected : bool
}.

(** The initialisers of the global variables. *)
Module Init.
Definition pH : spec_float := Eval vm_compute in F32.of_double Lit.d7_0.
Definition temperature : spec_float :=
  Eval vm_compute in F32.of_double Lit.d22_0.
Definition tds : spec_float :=
  Eval vm_compute in F32.of_double (F64.lit 1500 10).
Definition turbidity : spec_float :=
  Eval vm_compute in F32.of_double Lit.d2_0.
Definition vibration : spec_float :=
  Eval vm_compute in F32.of_double (F64.lit 0 10).
End Init.

(** The firmware at power-up: the global variables at their
    initialisers, all pins low, the clock at zero. *)
Definition power_up : World :=
  {| clock := 0;
     calls := 0;
     gpio := {| green := false; yellow := false; red := false |};
     log := [];
     reading :=
       {| pH := Init.pH;
          temperature := Init.temperature;
          tds := Init.tds;
          turbidity := Init.turbidity;
          vibration := Init.vibration;
          vibrationDetected := false;
          waterStatus := "unknown" |};
     lastReading := 0;
     deviceConnected := false;
     oldDeviceConnected := false |}.

(** The calls of a run in the order they were made. *)
Definition trace (w : World) : list Event := rev (log w).

(** ** Assignments *)

Definition set_clock (c : Z) (w : World) : World :=
  {| clock := c; calls := calls w; gpio := gpio w; log := log w;
     reading := reading w; lastReading := lastReading w;
     deviceConnected := deviceConnected w;
     oldDeviceConnected := oldDeviceConnected w |}.

Definition set_calls (n : nat) (w : World) : World :=
  {| clock := clock w; calls := n; gpio := gpio w; log := log w;
     reading := reading w; lastReading := lastReading w;
     deviceConnected := deviceConnected w;
     oldDeviceConnected := oldDeviceConnected w |}.

Definition set_gpio (g : Gpio) (w : World) : World :=
  {| clock := clock w; calls := calls w; gpio := g; log := log w;
     reading := reading w; lastReading := lastReading w;
     deviceConnected := deviceConnected w;
     oldDeviceConnected := oldDeviceConnected w |}.

Definition set_log (l : list Event) (w : World) : World :=
  {| clock := clock w; calls := calls w; gpio := gpio w; log := l;
     reading := reading w; lastReading := lastReading w;
     deviceConnected := deviceConnected w;
     oldDeviceConnected := oldDeviceConnected w |}.

Definition set_reading (r : Reading) (w : World) : World :=
  {| clock := clock w; calls := calls w; gpio := gpio w; log := log w;
     reading := r; lastReading := lastReading w;
     deviceConnected := deviceConnected w;
     oldDeviceConnected := oldDeviceConnected w |}.

Definition set_lastReading (t : Z) (w : World) : World :=
  {| clock := clock w; calls := calls w; gpio := gpio w; log := log w;
     reading := reading w; lastReading := t;
     deviceConnected := deviceConnected w;
     oldDeviceConnected := oldDeviceConnected w |}.

Definition set_deviceConnected (b : bool) (w : World) : World :=
  {| clock := clock w; calls := calls w; gpio := gpio w; log := log w;
     reading := reading w; lastReading := lastReading w;
     deviceConnected := b;
     oldDeviceConnected := oldDeviceConnected w |}.

Definition set_oldDeviceConnected (b : bool) (w : World) : World :=
  {| clock := clock w; calls := calls w; gpio := gpio w; log := log w;
     reading := reading w; lastReading := lastReading w;
     deviceConnected := deviceConnected w;
     oldDeviceConnected := b |}.

Definition with_pH (v : spec_float) (r : Reading) : Reading :=
  {| pH := v; temperature := temperature r; tds := tds r;
     turbidity := turbidity r; vibration := vibration r;
     vibrationDetected := vibrationDetected r;
     waterStatus := waterStatus r |}.

Definition with_temperature (v : spec_float) (r : Reading) : Reading :=
  {| pH := pH r; temperature := v; tds := tds r;
     turbidity := turbidity r; vibration := vibration r;
     vibrationDetected := vibrationDetected r;
     waterStatus := waterStatus r |}.

Definition with_tds (v : spec_float) (r : Reading) : Reading :=
  {| pH := pH r; temperature := temperature r; tds := v;
     turbidity := turbidity r; vibration := vibration r;
     vibrationDetected := vibrationDetected r;
     waterStatus := waterStatus r |}.

Definition with_turbidity (v : spec_float) (r : Reading) : Reading :=
  {| pH := pH r; temperature := temperature r; tds := tds r;
     turbidity := v; vibration := vibration r;
     vibrationDetected := vibrationDetected r;
     waterStatus := waterStatus r |}.

Definition with_vibration (v : spec_float) (r : Reading) : Reading :=
  {| pH := pH r; temperature := temperature r; tds := tds r;
     turbidity := turbidity r; vibration := v;
     vibrationDetected := vibrationDetected r;
     waterStatus := waterStatus r |}.

Definition with_vibrationDetected (b : bool) (r : Reading) : Reading :=
  {| pH := pH r; temperature := temperature r; tds := tds r;
     turbidity := turbidity r; vibration := vibration r;
     vibrationDetected := b;
     waterStatus := waterStatus r |}.

Definition with_waterStatus (s : string) (r : Reading) : Reading :=
  {| pH := pH r; temperature := temperature r; tds := tds r;
     turbidity := turbidity r; vibration := vibration r;
     vibrationDetected := vibrationDetected r;
     waterStatus := s |}.

(** ** Commands: functions of the world that return a value *)

Definition M (A : Type) : Type := World -> A * World.

Definition ret {A : Type} (a : A) : M A := fun w => (a, w).

Definition bind {A B : Type} (c : M A) (k : A -> M B) : M B :=
  fun w => let (a, w') := c w in k a w'.

Declare Scope cmd_scope.
Delimit Scope cmd_scope with cmd.
Notation "x <- c ;; k" := (bind c (fun x => k))
  (at level 61, c at next level, right associativity) : cmd_scope.
Notation "c ;; k" := (bind c (fun _ => k))
  (at level 61, right associativity) : cmd_scope.
#[local] Open Scope cmd_scope.

Definition exec {A : Type} (c : M A) (w : World) : World := snd (c w).
Definition eval {A : Type} (c : M A) (w : World) : A := fst (c w).

Definition get {A : Type} (f : World -> A) : M A := fun w => (f w, w).
Definition modify (f : World -> World) : M unit := fun w => (tt, f w).

Definition emit (e : Event) : M unit :=
  modify (fun w => set_log (e :: log w) w).

(** The index of the next call to the platform. *)
Definition next_call : M nat :=
  fun w => (calls w, set_calls (S (calls w)) w).

Definition assign (f : Reading -> Reading) : M unit :=
  modify (fun w => set_reading (f (reading w)) w).

(* ================================================================== *)
(** * Arduino calls as commands *)

(** [millis()]: the time since the last look at the clock has passed,
    and the clock is read modulo [2^32]. *)
Definition millis (P : Platform) : M Z :=
  n <- next_call ;;
  modify (fun w => set_clock (clock w + Z.of_N (elapsed P n)) w) ;;
  c <- get clock ;;
  ret (uint32 c).

Definition delay (ms : Z) : M unit :=
  modify (fun w => set_clock (clock w + ms) w) ;;
  emit (Delay ms).

Definition pinMode (pin : Z) : M unit := emit (PinMode pin).

(** [digitalWrite(pin, val)]: the pin is driven high for every [val]
    other than 0. *)
Definition digitalWrite (pin : Z) (val : Z) : M unit :=
  let level := negb (val =? 0) in
  modify (fun w =>
    let g := gpio w in
    set_gpio
      {| green := if pin =? LED_GREEN then level else green g;
         yellow := if pin =? LED_YELLOW then level else yellow g;
         red := if pin =? LED_RED then level else red g |} w) ;;
  emit (DigitalWrite pin level).

Definition analogRead (P : Platform) (pin : Z) : M Z :=
  n <- next_call ;;
  emit (AnalogRead pin (adc_sample P n)) ;;
  ret (adc_sample P n).

(** Modelled from the spec: a bounded uniform jitter source.  Arduino's
    [random(howsmall, howbig)] is not under src/; it returns [howsmall]
    plus a raw draw reduced modulo [howbig - howsmall], an integer from
    [howsmall] up to [howbig - 1]. *)
Definition random (P : Platform) (howsmall howbig : Z) : M Z :=
  n <- next_call ;;
  ret (if howbig <=? howsmall then howsmall
       else entropy P n mod (howbig - howsmall) + howsmall).

Definition Serial_print (s : string) : M unit := emit (SerialPrint s).
Definition Serial_println (s : string) : M unit := emit (SerialPrintln s).

Module mpu.
Definition begin (P : Platform) : M bool :=
  n <- next_call ;;
  emit (MpuBegin (mpu_found P n)) ;;
  ret (mpu_found P n).

Definition getEvent (P : Platform) : M sensors_event_t :=
  n <- next_call ;;
  emit MpuGetEvent ;;
  ret (mpu_event P n).

Definition setAccelerometerRange : M unit := emit MpuSetAccelerometerRange.
Definition setFilterBandwidth : M unit := emit MpuSetFilterBandwidth.
End mpu.

(* ================================================================== *)
(** * The sampling cycle: the parts the two variants share

    [updateWaterQualityReadings] is the same text in the two files from
    the TDS sensor down to the clamping of turbidity; each part is a
    command named after the banner comment it stands under. *)

(** Motion analyzer: gravity-removed magnitude of an acceleration
    sample, [sqrt(ax * ax + ay * ay + az * az) - 9.8] assigned to the
    [float] [vibration].  The sum is a [float] and [sqrt] is the [float]
    overload; the literal [9.8] makes the difference a [double]. *)
Definition vibration_magnitude (ax ay az : spec_float) : spec_float :=
  F32.of_double
    (F64.sub
       (F32.sqrt (F32.add (F32.add (F32.mul ax ax) (F32.mul ay ay))
                          (F32.mul az az)))
       Lit.d9_8).

(** [abs(vibration) > VIB_THRESHOLD] *)
Definition vibration_exceeds (v : spec_float) : bool :=
  Fltb VIB_THRESHOLD (abs v).

Definition motion_analyzer (P : Platform) : M unit :=
  ev <- mpu.getEvent P ;;
  let ax := acceleration_x ev in
  let ay := acceleration_y ev in
  let az := acceleration_z ev in
  assign (with_vibration (vibration_magnitude ax ay az)) ;;
  r <- get reading ;;
  assign (with_vibrationDetected (vibration_exceeds (vibration r))) ;;
  assign (with_temperature (event_temperature ev)).

(** Unit converter, before the clamp. *)
Definition voltage_of (adcValue : Z) : spec_float :=
  F32.div (F32.mul (F32.of_Z adcValue) VREF) (F32.of_Z ADC_RES).

Definition compensation : spec_float :=
  F32.of_double
    (F64.add Lit.d1_0
       (F64.mul Lit.d0_02 (F64.sub sensorTemperature Lit.d25_0))).

Definition tds_of_voltage (vComp : spec_float) : spec_float :=
  F32.of_double
    (F64.mul
       (F64.add
          (F64.sub (F64.mul Lit.d133_42 (pow vComp 3))
                   (F64.mul Lit.d255_86 (pow vComp 2)))
          (F64.mul Lit.d857_39 vComp))
       Lit.d0_5).

(** Unit converter: the value [tds] holds once the ADC sample
    [adcValue] went through the TDS section of the cycle. *)
Definition convert (adcValue : Z) : spec_float :=
  let voltage := voltage_of adcValue in
  let vComp := F32.div voltage compensation in
  constrain (tds_of_voltage vComp) Lit.f0 Lit.f2000.

Definition tds_sensor (P : Platform) : M unit :=
  adcValue <- analogRead P TDS_PIN ;;
  let voltage := voltage_of adcValue in
  let vComp := F32.div voltage compensation in
  assign (with_tds (tds_of_voltage vComp)) ;;
  r <- get reading ;;
  assign (with_tds (constrain (tds r) Lit.f0 Lit.f2000)).

(** Status classifier. *)
Definition water_quality_assessment : M unit :=
  r <- get reading ;;
  if Fleb (tds r) TDSCLEAN_THRESHOLD && negb (vibrationDetected r) then
    assign (with_waterStatus "clean")
  else if Fleb (tds r) TDSDIRTY_THRESHOLD
          && Fltb TDSCLEAN_THRESHOLD (tds r)
          && negb (vibrationDetected r) then
    assign (with_waterStatus "unsafe")
  else if Fleb TDSXTREME_THRESHOLD (tds r) then
    assign (with_waterStatus "extremely_unsafe")
  else if vibrationDetected r then
    assign (with_waterStatus "vibration_detected")
  else ret tt.

(** LED status indicators. *)
Definition led_status_indicators (P : Platform) : M unit :=
  digitalWrite LED_GREEN LOW ;;
  digitalWrite LED_YELLOW LOW ;;
  digitalWrite LED_RED LOW ;;
  r <- get reading ;;
  if (waterStatus r =? "clean")%string then
    digitalWrite LED_GREEN HIGH
  else if (waterStatus r =? "unsafe")%string then
    digitalWrite LED_YELLOW HIGH
  else if (waterStatus r =? "extremely_unsafe")%string then
    digitalWrite LED_RED HIGH
  else if (waterStatus r =? "vibration_detected")%string then
    m <- millis P ;;
    digitalWrite LED_YELLOW ((m / 500) mod 2)
  else ret tt.

(** Synthetic signal generator.  [t] is the value of [millis()] and
    [jitter] the draw of [random]; in each of the two statements the
    clock is read before the draw is made, the order in which the
    operands are written. *)
Definition synthetic_pH (P : Platform) (t jitter : Z) : spec_float :=
  F32.of_double
    (F64.add
       (F64.add Lit.d7_0
          (F64.mul (sin P (F64.div (F64.of_Z t) Lit.d15000_0)) Lit.d0_8))
       (F64.div (F64.of_Z jitter) Lit.d100_0)).

Definition synthetic_turbidity (P : Platform) (t jitter : Z) : spec_float :=
  F32.of_double
    (F64.add
       (F64.add Lit.d2_0
          (F64.mul (sin P (F64.div (F64.of_Z t) Lit.d18000_0)) Lit.d1_5))
       (F64.div (F64.of_Z jitter) Lit.d100_0)).

Definition ph_and_turbidity (P : Platform) : M unit :=
  t1 <- millis P ;;
  j1 <- random P (-10) 10 ;;
  assign (with_pH (synthetic_pH P t1 j1)) ;;
  t2 <- millis P ;;
  j2 <- random P (-30) 30 ;;
  assign (with_turbidity (synthetic_turbidity P t2 j2)) ;;
  r <- get reading ;;
  assign (with_pH (F32.of_double (constrain (pH r) Lit.d6_0 Lit.d9_0))) ;;
  r <- get reading ;;
  assign (with_turbidity
            (F32.of_double (constrain (turbidity r) Lit.d0_1 Lit.d10_0))).

(** Serial output for debugging. *)
Definition serial_summary (P : Platform) : M unit :=
  r <- get reading ;;
  Serial_print "TDS: " ;;
  Serial_print (Print_float P (tds r) 2) ;;
  Serial_print " ppm" ;;
  Serial_print " | Vibration: " ;;
  Serial_print (Print_float P (vibration r) 2) ;;
  Serial_print " m/s²" ;;
  Serial_print " | Vibration Detected: " ;;
  Serial_print (if vibrationDetected r then "YES" else "NO") ;;
  Serial_print " | Temperature: " ;;
  Serial_print (Print_float P (temperature r) 1) ;;
  Serial_print "°C" ;;
  Serial_print " | Water Status: " ;;
  Serial_println (waterStatus r).

(** Red LED flashed five times: the error signal of [setup]. *)
Fixpoint flash_red (n : nat) : M unit :=
  match n with
  | O => ret tt
  | S n' =>
      digitalWrite LED_RED HIGH ;;
      delay 200 ;;
      digitalWrite LED_RED LOW ;;
      delay 200 ;;
      flash_red n'
  end.

(** Where the firmware is in its life: before [setup], parked in the
    [while (1)] of [setup], or in the calls of [loop]. *)
Inductive Phase : Type :=
| Boot
| Stalled
| Running.

Record Machine : Type := {
  phase : Phase;
  world : World
}.

Definition boot : Machine := {| phase := Boot; world := power_up |}.

(** [3000 < millis() - lastReading] in [unsigned long]. *)
Definition reading_due (now last : Z) : bool :=
  3000 <? uint32 (now - last).

(* ================================================================== *)
(** * src/main.cpp: the variant without BLE *)

Module Main.

Definition setup (P : Platform) : M Phase :=
  emit (SerialBegin 115200) ;;
  delay 1000 ;;
  Serial_println "Starting ESP32 Water Quality Sensor (Test Version)..." ;;
  pinMode LED_GREEN ;;
  pinMode LED_YELLOW ;;
  pinMode LED_RED ;;
  digitalWrite LED_GREEN LOW ;;
  digitalWrite LED_YELLOW LOW ;;
  digitalWrite LED_RED LOW ;;
  emit WireBegin ;;
  found <- mpu.begin P ;;
  (if negb found then
     Serial_println "Failed to find MPU6050 chip!" ;;
     flash_red 5 ;;
     Serial_println "Continuing without MPU6050..."
   else
     mpu.setAccelerometerRange ;;
     mpu.setFilterBandwidth ;;
     Serial_println "MPU6050 initialized successfully.") ;;
  Serial_println "System ready. Monitoring water quality..." ;;
  digitalWrite LED_GREEN HIGH ;;
  delay 1000 ;;
  digitalWrite LED_GREEN LOW ;;
  ret Running.

(** The values made up when the chip does not answer. *)
Definition simulated_vibration (r : Z) : spec_float :=
  F32.of_double (F64.div (F64.of_Z r) Lit.d100_0).

Definition simulated_temperature (r : Z) : spec_float :=
  F32.of_double (F64.add Lit.d22_0 (F64.div (F64.of_Z r) Lit.d10_0)).

Definition simulated_motion (P : Platform) : M unit :=
  r1 <- random P (-50) 50 ;;
  assign (with_vibration (simulated_vibration r1)) ;;
  assign (with_vibrationDetected false) ;;
  r2 <- random P (-30) 30 ;;
  assign (with_temperature (simulated_temperature r2)).

(** The JSON line shown on the serial port. *)
Definition serial_json (P : Platform) : M unit :=
  r <- get reading ;;
  Serial_print "JSON: {" ;;
  Serial_print (dq ++ "pH" ++ dq ++ ":") ;;
  Serial_print (Print_float P (pH r) 2) ;;
  Serial_print "," ;;
  Serial_print (dq ++ "temperature" ++ dq ++ ":") ;;
  Serial_print (Print_float P (temperature r) 1) ;;
  Serial_print "," ;;
  Serial_print (dq ++ "tds" ++ dq ++ ":") ;;
  Serial_print (Print_float P (tds r) 1) ;;
  Serial_print "," ;;
  Serial_print (dq ++ "turbidity" ++ dq ++ ":") ;;
  Serial_print (Print_float P (turbidity r) 2) ;;
  Serial_print "," ;;
  Serial_print (dq ++ "vibration" ++ dq ++ ":") ;;
  Serial_print (Print_float P (vibration r) 2) ;;
  Serial_print "," ;;
  Serial_print (dq ++ "vibrationDetected" ++ dq ++ ":") ;;
  Serial_print (if vibrationDetected r then "true" else "false") ;;
  Serial_print "," ;;
  Serial_print (dq ++ "waterStatus" ++ dq ++ ":" ++ dq) ;;
  Serial_print (waterStatus r) ;;
  Serial_print dq ;;
  Serial_println "}".

Definition updateWaterQualityReadings (P : Platform) : M unit :=
  found <- mpu.begin P ;;
  (if found then motion_analyzer P else simulated_motion P) ;;
  tds_sensor P ;;
  water_quality_assessment ;;
  led_status_indicators P ;;
  ph_and_turbidity P ;;
  serial_summary P ;;
  serial_json P.

Definition loop (P : Platform) : M unit :=
  now <- millis P ;;
  last <- get lastReading ;;
  (if reading_due now last then
     updateWaterQualityReadings P ;;
     t <- millis P ;;
     modify (set_lastReading t)
   else ret tt) ;;
  delay 1000.

(** One step of the firmware: [setup] once, then [loop] for ever. *)
Definition step (P : Platform) (m : Machine) : Machine :=
  match phase m with
  | Boot => let (ph, w) := setup P (world m) in {| phase := ph; world := w |}
  | Stalled => m
  | Running => {| phase := Running; world := exec (loop P) (world m) |}
  end.

Definition run (P : Platform) (n : nat) : Machine :=
  Nat.iter n (step P) boot.

End Main.

(* ================================================================== *)
(** * backup/main_with_ble.cpp: the variant with the BLE notifier *)

Module MainWithBle.

#[local] Open Scope string_scope.

Definition SERVICE_UUID : string := "12345678-1234-1234-1234-123456789abc".
Definition CHARACTERISTIC_UUID : string :=
  "87654321-4321-4321-4321-cba987654321".

(** [MyServerCallbacks] *)
Definition onConnect : M unit :=
  modify (set_deviceConnected true) ;;
  Serial_println "Device connected!".

Definition onDisconnect : M unit :=
  modify (set_deviceConnected false) ;;
  Serial_println "Device disconnected!".

(** The BLE stack runs the callbacks on a task of its own, beside
    [loop]: a call of [ble_stack] is a point where that task gets to
    run, and delivers the callback that is due, if any. *)
Definition ble_stack (P : Platform) : M unit :=
  n <- next_call ;;
  match ble_client P n with
  | Some true => onConnect
  | Some false => onDisconnect
  | None => ret tt
  end.

(** The body of the [while (1)] that ends [setup] when the chip is not
    found. *)
Definition stall : M unit :=
  Serial_println "MPU6050 not found - check wiring!" ;;
  delay 1000.

Definition setup (P : Platform) : M Phase :=
  emit (SerialBegin 115200) ;;
  delay 1000 ;;
  Serial_println "Starting ESP32 Water Quality Sensor with Real Sensors..." ;;
  Serial_println "PlatformIO Version" ;;
  pinMode LED_GREEN ;;
  pinMode LED_YELLOW ;;
  pinMode LED_RED ;;
  digitalWrite LED_GREEN LOW ;;
  digitalWrite LED_YELLOW LOW ;;
  digitalWrite LED_RED LOW ;;
  emit WireBegin ;;
  found <- mpu.begin P ;;
  if negb found then
    Serial_println "Failed to find MPU6050 chip!" ;;
    flash_red 5 ;;
    ret Stalled
  else
    mpu.setAccelerometerRange ;;
    mpu.setFilterBandwidth ;;
    Serial_println "MPU6050 initialized successfully." ;;
    emit (Ble "BLEDevice::init ESP32-WaterSensor") ;;
    emit (Ble "BLEDevice::createServer") ;;
    emit (Ble "pServer->setCallbacks") ;;
    emit (Ble ("pServer->createService " ++ SERVICE_UUID)) ;;
    emit (Ble ("pService->createCharacteristic " ++ CHARACTERISTIC_UUID)) ;;
    emit (Ble "pCharacteristic->addDescriptor") ;;
    emit (Ble "pService->start") ;;
    emit (Ble "BLEDevice::getAdvertising") ;;
    emit (Ble ("pAdvertising->addServiceUUID " ++ SERVICE_UUID)) ;;
    emit (Ble "pAdvertising->setScanResponse false") ;;
    emit (Ble "pAdvertising->setMinPreferred 0") ;;
    emit (Ble "BLEDevice::startAdvertising") ;;
    Serial_println "Water Quality Sensor is now advertising..." ;;
    Serial_println "Device name: ESP32-WaterSensor" ;;
    Serial_println ("Service UUID: " ++ SERVICE_UUID) ;;
    Serial_println "System ready. Monitoring water quality..." ;;
    digitalWrite LED_GREEN HIGH ;;
    delay 1000 ;;
    digitalWrite LED_GREEN LOW ;;
    ret Running.

Definition updateWaterQualityReadings (P : Platform) : M unit :=
  motion_analyzer P ;;
  tds_sensor P ;;
  water_quality_assessment ;;
  led_status_indicators P ;;
  ph_and_turbidity P ;;
  serial_summary P.

Definition generateWaterQualityJSON (P : Platform) : M string :=
  r <- get reading ;;
  let jsonData := "{" in
  let jsonData :=
    jsonData ++ dq ++ "pH" ++ dq ++ ":" ++ String_float P (pH r) 2 ++ "," in
  let jsonData :=
    jsonData ++ dq ++ "temperature" ++ dq ++ ":"
             ++ String_float P (temperature r) 1 ++ "," in
  let jsonData :=
    jsonData ++ dq ++ "tds" ++ dq ++ ":" ++ String_float P (tds r) 1 ++ "," in
  let jsonData :=
    jsonData ++ dq ++ "turbidity" ++ dq ++ ":"
             ++ String_float P (turbidity r) 2 ++ "," in
  let jsonData :=
    jsonData ++ dq ++ "vibration" ++ dq ++ ":"
             ++ String_float P (vibration r) 2 ++ "," in
  let jsonData :=
    jsonData ++ dq ++ "vibrationDetected" ++ dq ++ ":"
             ++ (if vibrationDetected r then "true" else "false") ++ "," in
  let jsonData :=
    jsonData ++ dq ++ "waterStatus" ++ dq ++ ":" ++ dq
             ++ waterStatus r ++ dq ++ "," in
  now <- millis P ;;
  let jsonData :=
    jsonData ++ dq ++ "timestamp" ++ dq ++ ":" ++ dq
             ++ String_ulong now ++ dq ++ "," in
  let jsonData :=
    jsonData ++ dq ++ "deviceId" ++ dq ++ ":" ++ dq
             ++ "ESP32-WaterSensor" ++ dq ++ "," in
  let jsonData :=
    jsonData ++ dq ++ "status" ++ dq ++ ":" ++ dq ++ "active" ++ dq in
  let jsonData := jsonData ++ "}" in
  ret jsonData.

(** [loop], with the task of the BLE stack beside it: the callbacks may
    come between any two statements of [loop], and [deviceConnected] is
    read again wherever the source names it.  The sampling cycle and
    [generateWaterQualityJSON] neither read nor write the two
    connection flags, so a callback that comes inside one of them is
    taken at the point that follows it; only the place of its line on
    the serial port is then later than on the chip. *)
Definition loop (P : Platform) : M unit :=
  now <- millis P ;;
  last <- get lastReading ;;
  (if reading_due now last then
     (ble_stack P ;;
      updateWaterQualityReadings P ;;
      ble_stack P) ;;
     t <- millis P ;;
     modify (set_lastReading t)
   else ret tt) ;;
  ble_stack P ;;
  connected <- get deviceConnected ;;
  (if connected then
     waterData <- generateWaterQualityJSON P ;;
     ble_stack P ;;
     emit (BleNotify waterData) ;;
     ble_stack P ;;
     Serial_println ("Sent: " ++ waterData)
   else ret tt) ;;
  ble_stack P ;;
  connected <- get deviceConnected ;;
  old <- get oldDeviceConnected ;;
  (if negb connected && old then
     delay 500 ;;
     ble_stack P ;;
     emit (Ble "pServer->startAdvertising") ;;
     ble_stack P ;;
     Serial_println "Restarting advertising..." ;;
     ble_stack P ;;
     connected <- get deviceConnected ;;
     modify (set_oldDeviceConnected connected)
   else ret tt) ;;
  ble_stack P ;;
  connected <- get deviceConnected ;;
  old <- get oldDeviceConnected ;;
  (if connected && negb old then
     ble_stack P ;;
     connected <- get deviceConnected ;;
     modify (set_oldDeviceConnected connected)
   else ret tt) ;;
  ble_stack P ;;
  delay 1000 ;;
  ble_stack P.

(** One step of the firmware: [setup] once; then, for ever, the body of
    its [while (1)] if it parked there, and otherwise a pass of [loop],
    before which the BLE task may run as well. *)
Definition step (P : Platform) (m : Machine) : Machine :=
  match phase m with
  | Boot => let (ph, w) := setup P (world m) in {| phase := ph; world := w |}
  | Stalled => {| phase := Stalled; world := exec stall (world m) |}
  | Running =>
      {| phase := Running;
         world := exec (ble_stack P ;; loop P) (world m) |}
  end.

Definition run (P : Platform) (n : nat) : Machine :=
  Nat.iter n (step P) boot.

End MainWithBle.

(* ================================================================== *)
(** * Vocabulary of the properties *)

(** The integers [lo], [lo + 1], ..., [lo + n - 1]. *)
Definition Zrange (lo : Z) (n : nat) : list Z :=
  map (fun i => lo + Z.of_nat i) (seq 0 n).

(** [lo <= x <= hi], as the firmware compares. *)
Definition between (lo hi x : spec_float) : bool :=
  Fleb lo x && Fleb x hi.

(** The range the TDS value is clamped to. *)
Definition in_tds_range (x : spec_float) : Prop :=
  between Lit.f0 Lit.f2000 x = true.

(** A command leaves a component of the world as it found it. *)
Definition keeps {A B : Type} (f : World -> A) (c : M B) : Prop :=
  forall w, f (exec c w) = f w.

(** The calls a command makes all satisfy [Q]. *)
Definition emits {B : Type} (Q : Event -> Prop) (c : M B) : Prop :=
  forall w, exists evs, log (exec c w) = evs ++ log w /\ Forall Q evs.

(** An acceleration sample, as the driver hands it over. *)
Definition sample (x y z temp : spec_float) : sensors_event_t :=
  {| acceleration_x := x; acceleration_y := y; acceleration_z := z;
     event_temperature := temp |}.

(** [|x - c| <= eps] for the doubles [c] and [eps]. *)
Definition close_to (c eps x : spec_float) : bool :=
  between (F64.sub c eps) (F64.add c eps) x.

(** The LED channels, and their level on the pins. *)
Inductive Channel : Type :=
| Green
| Yellow
| Red.

Definition level (g : Gpio) (c : Channel) : bool :=
  match c with
  | Green => green g
  | Yellow => yellow g
  | Red => red g
  end.

Definition all_off : Gpio := {| green := false; yellow := false; red := false |}.

Definition only (c : Channel) : Gpio :=
  match c with
  | Green => {| green := true; yellow := false; red := false |}
  | Yellow => {| green := false; yellow := true; red := false |}
  | Red => {| green := false; yellow := false; red := true |}
  end.

(** The channel is on, or it is the one the firmware blinks: yellow,
    while the status is [vibration_detected]. *)
Definition on_or_blinking (w : World) (c : Channel) : bool :=
  level (gpio w) c
  || match c with
     | Yellow => (waterStatus (reading w) =? "vibration_detected")%string
     | _ => false
     end.

(** Number of LEDs that are on. *)
Definition leds_on (g : Gpio) : nat :=
  (if green g then 1 else 0) + (if yellow g then 1 else 0)
  + (if red g then 1 else 0).

(** What the LED section of the cycle leaves on the pins, by status. *)
Definition led_law (w : World) : Prop :=
  let s := waterStatus (reading w) in
  let g := gpio w in
  (leds_on g <= 1)%nat /\
  (s = "clean"%string -> g = only Green) /\
  (s = "unsafe"%string -> g = only Yellow) /\
  (s = "extremely_unsafe"%string -> g = only Red) /\
  (s = "vibration_detected"%string -> green g = false /\ red g = false) /\
  (s <> "clean"%string -> s <> "unsafe"%string ->
   s <> "extremely_unsafe"%string -> s <> "vibration_detected"%string ->
   g = all_off).

(** The pins after one more call, and after the calls of a log (newest
    first) from the level at power-up. *)
Definition drive (e : Event) (g : Gpio) : Gpio :=
  match e with
  | DigitalWrite pin lv =>
      {| green := if pin =? LED_GREEN then lv else green g;
         yellow := if pin =? LED_YELLOW then lv else yellow g;
         red := if pin =? LED_RED then lv else red g |}
  | _ => g
  end.

Fixpoint pins_after (l : list Event) : Gpio :=
  match l with
  | [] => all_off
  | e :: l' => drive e (pins_after l')
  end.

(** At no point of a log are two LEDs on. *)
Fixpoint never_two (l : list Event) : bool :=
  match l with
  | [] => true
  | e :: l' => (leds_on (drive e (pins_after l')) <=? 1)%nat && never_two l'
  end.

(** The pins are where the calls of the log left them, and no two LEDs
    were ever on together. *)
Definition tidy (w : World) : Prop :=
  gpio w = pins_after (log w) /\ never_two (log w) = true.

(** A command that never turns a second LED on. *)
Definition steady {B : Type} (c : M B) : Prop :=
  forall w, tidy w -> tidy (exec c w).

(** Number of sampling cycles behind a world: each reads the ADC once. *)
Definition is_sample (e : Event) : bool :=
  match e with
  | AnalogRead _ _ => true
  | _ => false
  end.

Definition samples (w : World) : nat :=
  List.length (List.filter is_sample (log w)).

(** ** A test bench *)

(** Decimal digits of [n], at least [width] of them. *)
Fixpoint pad_zeros (width : nat) (s : string) : string :=
  match width with
  | O => s
  | S k => if (String.length s <=? k)%nat then pad_zeros k ("0" ++ s) else s
  end.

(** A value printed with [d] decimals, rounded half up. *)
Definition print_decimal (x : spec_float) (d : nat) : string :=
  match SF2X x with
  | XNaN => "nan"
  | XInf _ => "inf"
  | XFin q =>
      let scale := Z.pow 10 (Z.of_nat d) in
      let n := Qfloor (Qabs q * inject_Z scale + (1 # 2)) in
      let sign := if Qlt_le_dec q 0 then "-" else EmptyString in
      let int_part := String_ulong (n / scale) in
      let frac_part := pad_zeros d (String_ulong (n mod scale)) in
      match d with
      | O => sign ++ int_part
      | S _ => sign ++ int_part ++ "." ++ frac_part
      end
  end%string.

(** A bench whose sensors answer the same at every call: the chip is
    [found] or not, the accelerometer reports [ev], the ADC [adc], every
    look at the clock comes [lag] milliseconds after the last, the raw
    random draws count up, no central connects, and [sin] is flat. *)
Definition bench (found : bool) (ev : sensors_event_t) (adc : Z) (lag : N)
  : Platform :=
  {| elapsed := fun _ => lag;
     mpu_found := fun _ => found;
     mpu_event := fun _ => ev;
     adc_sample := fun _ => adc;
     entropy := fun n => Z.of_nat n;
     ble_client := fun _ => None;
     sin := fun _ => S754_zero false;
     String_float := print_decimal;
     Print_float := print_decimal |}.

(** At rest: gravity on the z axis, 22 degrees. *)
Definition at_rest : sensors_event_t :=
  sample (F32.of_Z 0) (F32.of_Z 0) (F32.of_double Lit.d9_8) Init.temperature.

(** Shaken: 12 m/s2 on the z axis. *)
Definition shaken : sensors_event_t :=
  sample (F32.of_Z 0) (F32.of_Z 0) (F32.of_Z 12) Init.temperature.

(** A zero, or a finite datum below [2^B] in absolute value. *)
Definition sized (B : Z) (x : spec_float) : Prop :=
  match x with
  | S754_zero _ => True
  | S754_finite _ m e => Zpos (digits2_pos m) + e <= B
  | _ => False
  end.

(** The ranges of the synthetic signals. *)
Definition signals_in_range (r : Reading) : Prop :=
  between Lit.d6_0 Lit.d9_0 (pH r) = true /\
  between Lit.d0_1 Lit.d10_0 (turbidity r) = true.

(** libm's [sin] returns a number on every finite argument. *)
Definition sin_defined (P : Platform) : Prop :=
  forall x, is_finite x = true -> is_nan (sin P x) = false.

(** ** The wire record of the specification *)

(** A JSON value of the wire record: a number in its printed form, a
    bare boolean, or a string. *)
Inductive json_value : Type :=
| JNumber (text : string)
| JBool (b : bool)
| JString (s : string).

Definition render_value (v : json_value) : string :=
  match v with
  | JNumber text => text
  | JBool b => if b then "true" else "false"
  | JString s => dq ++ s ++ dq
  end%string.

Definition render_member (kv : string * json_value) : string :=
  (dq ++ fst kv ++ dq ++ ":" ++ render_value (snd kv))%string.

Fixpoint render_members (l : list (string * json_value)) : string :=
  match l with
  | [] => EmptyString
  | [kv] => render_member kv
  | kv :: tl => (render_member kv ++ "," ++ render_members tl)%string
  end.

(** A JSON object with its members in the order of the list. *)
Definition render_object (l : list (string * json_value)) : string :=
  ("{" ++ render_members l ++ "}")%string.

(** The wire record as the specification words it: the keys in their
    order, each with its precision or its fixed value. *)
Definition wire_record (P : Platform) (r : Reading) (now : Z)
  : list (string * json_value) :=
  [ ("pH", JNumber (String_float P (pH r) 2));
    ("temperature", JNumber (String_float P (temperature r) 1));
    ("tds", JNumber (String_float P (tds r) 1));
    ("turbidity", JNumber (String_float P (turbidity r) 2));
    ("vibration", JNumber (String_float P (vibration r) 2));
    ("vibrationDetected", JBool (vibrationDetected r));
    ("waterStatus", JString (waterStatus r));
    ("timestamp", JString (String_ulong now));
    ("deviceId", JString "ESP32-WaterSensor");
    ("status", JString "active") ]%string.

(** Calls to the driver that configure the chip, and calls that look for
    it. *)
Definition is_config (e : Event) : bool :=
  match e with
  | MpuSetAccelerometerRange | MpuSetFilterBandwidth => true
  | _ => false
  end.

Definition is_begin (e : Event) : bool :=
  match e with
  | MpuBegin _ => true
  | _ => false
  end.

(** Calls that neither look for the chip nor configure it. *)
Definition plain_call (e : Event) : Prop :=
  is_config e = false /\ is_begin e = false.

(** The draws of the fallback: [random(-50, 50)] and [random(-30, 30)]
    at the call indices [n] and [n + 1]. *)
Definition fallback_draws (P : Platform) (n : nat) : Z * Z :=
  (entropy P n mod 100 + -50, entropy P (S n) mod 60 + -30).

(** A bench whose chip does not answer the [mpu.begin()] of [setup] (the
    call 0) and answers every later one. *)
Definition late_chip : Platform :=
  {| elapsed := fun _ => 0%N;
     mpu_found := fun n => negb (Nat.eqb n 0);
     mpu_event := fun _ => shaken;
     adc_sample := fun _ => 300;
     entropy := fun n => Z.of_nat n;
     ble_client := fun _ => None;
     sin := fun _ => S754_zero false;
     String_float := print_decimal;
     Print_float := print_decimal |}.

(** ** Start-up *)

(** One flash of the red LED, and the error signal of [setup]: five of
    them. *)
Definition red_flash : list Event :=
  [DigitalWrite LED_RED true; Delay 200; DigitalWrite LED_RED false; Delay 200].

Definition red_flashes : list Event :=
  red_flash ++ red_flash ++ red_flash ++ red_flash ++ red_flash.

(** What the two [setup]s do before they look for the chip. *)
Definition pins_off : list Event :=
  [PinMode LED_GREEN; PinMode LED_YELLOW; PinMode LED_RED;
   DigitalWrite LED_GREEN false; DigitalWrite LED_YELLOW false;
   DigitalWrite LED_RED false; WireBegin].

(** The platform never lets [2^31] milliseconds pass between two looks
    at the clock. *)
Definition prompt (P : Platform) : Prop :=
  forall n, Z.of_N (elapsed P n) < 2 ^ 31.

(** The last reading was taken [d] milliseconds ago. *)
Definition last_reading_ago (d : Z) (w : World) : Prop :=
  lastReading w = uint32 (clock w - d).

(** [n] passes of [loop] of src/main.cpp. *)
Definition Main_passes (P : Platform) (n : nat) (w : World) : World :=
  Nat.iter n (exec (Main.loop P)) w.

(* ================================================================== *)
(** * Vocabulary of the further properties *)

(** The value the ADC returned last. *)
Fixpoint last_sample (l : list Event) : option Z :=
  match l with
  | [] => None
  | AnalogRead _ v :: _ => Some v
  | _ :: l' => last_sample l'
  end.

(** What the properties look at in a world. *)
Definition last_read (w : World) : option Z := last_sample (log w).
Definition flagged (w : World) : bool := vibrationDetected (reading w).
Definition status_of (w : World) : string := waterStatus (reading w).
Definition tds_of (w : World) : spec_float := tds (reading w).

(** The ADC counts at which the status changes, and the count from
    which the TDS value sits at the upper clamp. *)
Definition ADC_UNSAFE : Z := 1010.
Definition ADC_GAP : Z := 1348.
Definition ADC_XTREME : Z := 1649.
Definition ADC_SATURATED : Z := 3777.

(** The conversions of the [n] samples from [a] on never go down,
    starting above [prev]. *)
Fixpoint ascending (prev : spec_float) (a : Z) (n : nat) : bool :=
  match n with
  | O => true
  | S n' => let c := convert a in Fleb prev c && ascending c (a + 1) n'
  end.

(** The same datum, bit for bit. *)
Definition same_datum (x y : spec_float) : bool :=
  match x, y with
  | S754_zero s, S754_zero s' => Bool.eqb s s'
  | S754_infinity s, S754_infinity s' => Bool.eqb s s'
  | S754_nan, S754_nan => true
  | S754_finite s m e, S754_finite s' m' e' =>
      Bool.eqb s s' && Pos.eqb m m' && Z.eqb e e'
  | _, _ => false
  end.

(** The values [waterStatus] is ever given in the two files. *)
Definition status_names : list string :=
  ["unknown"; "clean"; "unsafe"; "extremely_unsafe"; "vibration_detected"]%string.

(** Every sample the platform hands over is one of the 12-bit ADC. *)
Definition adc_12_bit (P : Platform) : Prop :=
  forall n, 0 <= adc_sample P n <= ADC_RES.

(** The payloads notified to the central, newest first. *)
Fixpoint notified (l : list Event) : list string :=
  match l with
  | [] => []
  | BleNotify p :: l' => p :: notified l'
  | _ :: l' => notified l'
  end.

(** Calls to the BLE stack. *)
Definition is_ble (e : Event) : bool :=
  match e with
  | Ble _ | BleNotify _ => true
  | _ => false
  end.

(** [pServer->startAdvertising()], the call that makes the device
    visible again after a central has left. *)
Definition is_restart (e : Event) : bool :=
  match e with
  | Ble call => (call =? "pServer->startAdvertising")%string
  | _ => false
  end.

Definition restarts (w : World) : nat :=
  List.length (List.filter is_restart (log w)).

(** Number of times the firmware looked for the chip. *)
Definition probes (w : World) : nat :=
  List.length (List.filter is_begin (log w)).

(** Number of times the firmware read the chip. *)
Definition is_read (e : Event) : bool :=
  match e with
  | MpuGetEvent => true
  | _ => false
  end.

Definition chip_reads (w : World) : nat :=
  List.length (List.filter is_read (log w)).

(** The chip answers no [mpu.begin()] at all. *)
Definition chip_absent (P : Platform) : Prop :=
  forall n, mpu_found P n = false.

(** The motion values of the simulated mode of src/main.cpp: no
    vibration is reported, and the vibration and the temperature are
    such as the fallback makes up, within [-0.5, 0.5] and within three
    degrees of 22.0. *)
Definition simulated_mode (r : Reading) : Prop :=
  vibrationDetected r = false /\
  between (F64.lit (-5) 10) (F64.lit 5 10) (vibration r) = true /\
  between (F64.lit 19 1) (F64.lit 25 1) (temperature r) = true.

(** The characters a list of calls, in the order they were made, puts on
    the serial port; [println] ends its text with a carriage return and
    a line feed. *)
Definition crlf : string :=
  String (ascii_of_nat 13) (String (ascii_of_nat 10) EmptyString).

Fixpoint serial_text (evs : list Event) : string :=
  match evs with
  | [] => EmptyString
  | SerialPrint s :: tl => (s ++ serial_text tl)%string
  | SerialPrintln s :: tl => (s ++ crlf ++ serial_text tl)%string
  | _ :: tl => serial_text tl
  end.

(** The members of the JSON line src/main.cpp shows on the serial port,
    each number as [Serial.print] prints it. *)
Definition serial_record (P : Platform) (r : Reading)
  : list (string * json_value) :=
  [ ("pH", JNumber (Print_float P (pH r) 2));
    ("temperature", JNumber (Print_float P (temperature r) 1));
    ("tds", JNumber (Print_float P (tds r) 1));
    ("turbidity", JNumber (Print_float P (turbidity r) 2));
    ("vibration", JNumber (Print_float P (vibration r) 2));
    ("vibrationDetected", JBool (vibrationDetected r));
    ("waterStatus", JString (waterStatus r)) ]%string.

(** [Serial.print] and [String] print a number alike. *)
Definition prints_alike (P : Platform) : Prop :=
  forall x d, Print_float P x d = String_float P x d.

(** A command takes at least [ms] milliseconds. *)
Definition takes {B : Type} (ms : Z) (c : M B) : Prop :=
  forall w, clock w + ms <= clock (exec c w).

(** A bench with a central connected from the first pass of [loop] on. *)
Definition bench_connected (adc : Z) (lag : N) : Platform :=
  {| elapsed := fun _ => lag;
     mpu_found := fun _ => true;
     mpu_event := fun _ => at_rest;
     adc_sample := fun _ => adc;
     entropy := fun n => Z.of_nat n;
     ble_client := fun n => if Nat.eqb n 1 then Some true else None;
     sin := fun _ => S754_zero false;
     String_float := print_decimal;
     Print_float := print_decimal |}.

(** An accelerometer sample with no number on the x axis. *)
Definition broken_sample : sensors_event_t :=
  sample S754_nan (F32.of_Z 0) (F32.of_double Lit.d9_8) Init.temperature.

(** The parts of [loop], each under its comment in the source; the
    first is the same text in the two files, up to the cycle it calls. *)

(** [// Update water quality readings every 3 seconds] *)
Definition every_3_seconds (P : Platform) (update : M unit) : M unit :=
  now <- millis P ;;
  last <- get lastReading ;;
  if reading_due now last then
    update ;;
    t <- millis P ;;
    modify (set_lastReading t)
  else ret tt.

(** The cycle of the BLE variant with the points around it where the
    BLE task may run. *)
Definition cycle_beside (P : Platform) : M unit :=
  MainWithBle.ble_stack P ;;
  MainWithBle.updateWaterQualityReadings P ;;
  MainWithBle.ble_stack P.

(** [// Send data to connected device] *)
Definition send_data (P : Platform) : M unit :=
  connected <- get deviceConnected ;;
  if connected then
    waterData <- MainWithBle.generateWaterQualityJSON P ;;
    MainWithBle.ble_stack P ;;
    emit (BleNotify waterData) ;;
    MainWithBle.ble_stack P ;;
    Serial_println ("Sent: " ++ waterData)
  else ret tt.

(** [// Handle reconnection], the first of its two statements. *)
Definition restart_advertising (P : Platform) : M unit :=
  connected <- get deviceConnected ;;
  old <- get oldDeviceConnected ;;
  if negb connected && old then
    delay 500 ;;
    MainWithBle.ble_stack P ;;
    emit (Ble "pServer->startAdvertising") ;;
    MainWithBle.ble_stack P ;;
    Serial_println "Restarting advertising..." ;;
    MainWithBle.ble_stack P ;;
    connected <- get deviceConnected ;;
    modify (set_oldDeviceConnected connected)
  else ret tt.

(** The second: a central that has just connected is taken note of. *)
Definition note_connection (P : Platform) : M unit :=
  connected <- get deviceConnected ;;
  old <- get oldDeviceConnected ;;
  if connected && negb old then
    MainWithBle.ble_stack P ;;
    connected <- get deviceConnected ;;
    modify (set_oldDeviceConnected connected)
  else ret tt.

(** The calls made to the BLE stack, newest first, and the records
    notified among them. *)
Definition ble_calls (w : World) : list Event := List.filter is_ble (log w).

Definition notifications (w : World) : list string := notified (log w).

(** The side of the firmware that faces the central. *)
Definition ble_side (w : World) : bool * bool * list Event :=
  (deviceConnected w, oldDeviceConnected w, ble_calls w).

(** No callback is due at the calls [a], [a + 1], ..., [b - 1] to the
    platform. *)
Definition silent_between (P : Platform) (a b : nat) : Prop :=
  forall n, (a <= n < b)%nat -> ble_client P n = None.

(** No callback comes while the command [c] runs from [w]: none is due
    at any of the calls it makes to the platform. *)
Definition undisturbed {B : Type} (P : Platform) (c : M B) (w : World)
  : Prop :=
  silent_between P (calls w) (calls (exec c w)).

(** A command never takes a call to the platform back. *)
Definition counts {B : Type} (c : M B) : Prop :=
  forall w, (calls w <= calls (exec c w))%nat.

(** A command leaves [deviceConnected] alone when no callback comes:
    none before the call [b], by which the command is over. *)
Definition calm {B : Type} (P : Platform) (c : M B) : Prop :=
  forall w b,
    silent_between P (calls w) b -> (calls (exec c w) <= b)%nat ->
    deviceConnected (exec c w) = deviceConnected w.

(** The stamp of the last reading is a clock value [c0] of the past,
    and three seconds went by for each sample taken up to it. *)
Definition paced (w : World) : Prop :=
  exists c0, 0 <= c0 <= clock w /\ lastReading w = uint32 c0 /\
             3000 * Z.of_nat (samples w) <= c0.

(** As long as no sample was taken, the reading is the one of power-up
    and the LEDs are off. *)
Definition untouched (w : World) : Prop :=
  samples w = 0%nat -> reading w = reading power_up /\ gpio w = all_off.

(** ** Worlds of the bench *)

(** Power-up with a TDS value that is not a number. *)
Definition no_tds : World :=
  set_reading (with_tds S754_nan (reading power_up)) power_up.

(** The status [vibration_detected], 700 ms after power-up. *)
Definition shaking_at_700 : World :=
  set_reading (with_waterStatus "vibration_detected" (reading power_up))
    (set_clock 700 power_up).

(** A central was connected at the last pass of [loop] and is no more. *)
Definition just_left : World := set_oldDeviceConnected true power_up.

(** A central is connected, and was at the last pass of [loop]. *)
Definition with_central : World :=
  set_deviceConnected true (set_oldDeviceConnected true power_up).

(** A bench whose BLE stack delivers one callback, at the call [due] to
    the platform: [onConnect] when [up] is true, [onDisconnect] when it
    is false. *)
Definition bench_callback (due : nat) (up : bool) : Platform :=
  {| elapsed := fun _ => 0%N;
     mpu_found := fun _ => true;
     mpu_event := fun _ => at_rest;
     adc_sample := fun _ => 300;
     entropy := fun n => Z.of_nat n;
     ble_client := fun n => if Nat.eqb n due then Some up else None;
     sin := fun _ => S754_zero false;
     String_float := print_decimal;
     Print_float := print_decimal |}.

(* ================================================================== *)
(** * Order of floating-point values *)

Lemma Xcompare_antisym a b :
  Xcompare b a = option_map CompOpp (Xcompare a b).
Proof.
  destruct a as [|s1|p], b as [|s2|q]; simpl; try reflexivity.
  - destruct s1, s2; reflexivity.
  - destruct s1; reflexivity.
  - destruct s2; reflexivity.
  - f_equal. symmetry. apply Qcompare_antisym.
Qed.

Lemma Fltb_Fleb_false x y : Fltb x y = true -> Fleb y x = false.
Proof.
  unfold Fltb, Fleb, Fcompare. rewrite (Xcompare_antisym (SF2X x) (SF2X y)).
  destruct (Xcompare (SF2X x) (SF2X y)) as [[]|]; simpl; congruence.
Qed.

Lemma Fleb_Fltb_false x y : Fleb x y = true -> Fltb y x = false.
Proof.
  unfold Fltb, Fleb, Fcompare. rewrite (Xcompare_antisym (SF2X x) (SF2X y)).
  destruct (Xcompare (SF2X x) (SF2X y)) as [[]|]; simpl; congruence.
Qed.

Lemma Xcompare_some a b :
  a <> XNaN -> b <> XNaN -> exists c, Xcompare a b = Some c.
Proof.
  destruct a, b; simpl; intros; try congruence; eauto.
Qed.

Lemma SF2X_nan x : SF2X x = XNaN <-> is_nan x = true.
Proof. destruct x; simpl; split; congruence. Qed.

Lemma Fltb_false_Fleb x y :
  is_nan x = false -> is_nan y = false -> Fltb x y = false -> Fleb y x = true.
Proof.
  intros Hx Hy. unfold Fltb, Fleb, Fcompare.
  rewrite (Xcompare_antisym (SF2X x) (SF2X y)).
  destruct (Xcompare_some (SF2X x) (SF2X y)) as [c Hc].
  - rewrite SF2X_nan. congruence.
  - rewrite SF2X_nan. congruence.
  - rewrite Hc. destruct c; simpl; congruence.
Qed.

(* ================================================================== *)
(** * Rounding to a format *)

Lemma shr_1_m (mrs : shr_record) :
  0 <= shr_m mrs -> shr_m (shr_1 mrs) = shr_m mrs / 2.
Proof.
  destruct mrs as [m r s]; simpl. intros Hm.
  destruct m as [|[p|p|]|p]; simpl; try reflexivity; try lia.
  - rewrite Pos2Z.inj_xI. apply Z.div_unique with (r := 1); lia.
  - rewrite Pos2Z.inj_xO. apply Z.div_unique with (r := 0); lia.
Qed.

Lemma iter_pos_shr_1_m (p : positive) (mrs : shr_record) :
  0 <= shr_m mrs ->
  shr_m (iter_pos shr_1 p mrs) = shr_m mrs / 2 ^ Zpos p.
Proof.
  revert mrs. induction p as [p IH|p IH|]; intros mrs Hm; simpl iter_pos.
  - assert (H1 : 0 <= shr_m (shr_1 mrs))
      by (rewrite shr_1_m by assumption; apply Z.div_pos; lia).
    assert (H2 : 0 <= shr_m (iter_pos shr_1 p (shr_1 mrs)))
      by (rewrite IH by assumption; apply Z.div_pos; lia).
    rewrite IH by assumption. rewrite IH by assumption.
    rewrite shr_1_m by assumption.
    rewrite !Z.div_div by lia.
    f_equal.
    replace (Z.pos p~1) with (1 + Z.pos p + Z.pos p) by lia.
    rewrite !Z.pow_add_r by lia. lia.
  - assert (H2 : 0 <= shr_m (iter_pos shr_1 p mrs))
      by (rewrite IH by assumption; apply Z.div_pos; lia).
    rewrite IH by assumption. rewrite IH by assumption.
    rewrite !Z.div_div by lia.
    f_equal.
    replace (Z.pos p~0) with (Z.pos p + Z.pos p) by lia.
    rewrite !Z.pow_add_r by lia. lia.
  - rewrite shr_1_m by assumption. reflexivity.
Qed.

(** What [shr] leaves of the mantissa and of the exponent. *)
Lemma shr_m_e (mrs : shr_record) (e n : Z) :
  0 <= shr_m mrs ->
  shr_m (fst (shr mrs e n)) = shr_m mrs / 2 ^ Z.max 0 n /\
  snd (shr mrs e n) = e + Z.max 0 n.
Proof.
  intros Hm. destruct n as [|p|p]; simpl.
  - rewrite Z.div_1_r. lia.
  - rewrite iter_pos_shr_1_m by assumption. split; reflexivity.
  - rewrite Z.div_1_r. lia.
Qed.

Lemma shr_record_of_loc_m (m : Z) (l : location) :
  shr_m (shr_record_of_loc m l) = m.
Proof. destruct l as [|[]]; reflexivity. Qed.

Lemma round_nearest_even_cases (m : Z) (l : location) :
  round_nearest_even m l = m \/ round_nearest_even m l = m + 1.
Proof.
  destruct l as [|[]]; simpl; auto. destruct (Z.even m); auto.
Qed.

Lemma Zdigits2_log2 (z : Z) : 0 < z -> Zdigits2 z = Z.log2 z + 1.
Proof.
  destruct z as [|p|p]; try lia. intros _. simpl.
  assert (H : forall q, digits2_pos q = Pos.size q)
    by (induction q; simpl; congruence).
  rewrite H. destruct p; simpl; lia.
Qed.

Lemma Zdigits2_div_pow2 (z n : Z) :
  0 < z -> 0 <= n -> 0 < z / 2 ^ n ->
  Zdigits2 (z / 2 ^ n) = Zdigits2 z - n.
Proof.
  intros Hz Hn Hq.
  rewrite !Zdigits2_log2 by assumption.
  rewrite <- Z.shiftr_div_pow2 by assumption.
  rewrite Z.log2_shiftr by assumption.
  rewrite <- Z.shiftr_div_pow2 in Hq by assumption.
  assert (Hl : n <= Z.log2 z).
  { destruct (Z.le_gt_cases n (Z.log2 z)) as [|Hgt]; [assumption|].
    exfalso. rewrite Z.shiftr_eq_0 in Hq; lia. }
  lia.
Qed.

Lemma div_pow2_small (z n : Z) :
  0 < z -> 0 <= n -> z / 2 ^ n = 0 -> Zdigits2 z <= n.
Proof.
  intros Hz Hn Hq. rewrite Zdigits2_log2 by assumption.
  destruct (Z.le_gt_cases n (Z.log2 z)) as [Hle|]; [|lia].
  exfalso.
  assert (2 ^ n <= z).
  { apply Z.le_trans with (2 ^ Z.log2 z).
    - apply Z.pow_le_mono_r; lia.
    - apply Z.log2_spec. assumption. }
  assert (0 < z / 2 ^ n) by (apply Z.div_str_pos; lia).
  lia.
Qed.

(** Adding one to a mantissa adds a digit only on reaching a power of
    two. *)
Lemma Zdigits2_succ (z : Z) :
  0 < z ->
  Zdigits2 (z + 1) = Zdigits2 z \/
  (Zdigits2 (z + 1) = Zdigits2 z + 1 /\ z + 1 = 2 ^ Zdigits2 z).
Proof.
  intros Hz. rewrite !Zdigits2_log2 by lia.
  change (z + 1) with (Z.succ z).
  destruct (Z.log2_succ_or z) as [H|H].
  - right. split; [lia|].
    destruct (Z.log2_eq_succ_is_pow2 z H) as [b Hb].
    assert (0 <= b).
    { destruct (Z.le_gt_cases 0 b); [assumption|].
      rewrite Z.pow_neg_r in Hb by assumption. lia. }
    rewrite Hb in H. rewrite Z.log2_pow2 in H by assumption.
    rewrite Hb. f_equal. lia.
  - left. lia.
Qed.

Lemma Zdigits2_succ_le (z : Z) : 0 <= z -> Zdigits2 (z + 1) <= Zdigits2 z + 1.
Proof.
  intros Hz. destruct (Z.eq_dec z 0) as [->|Hnz]; [simpl; lia|].
  destruct (Zdigits2_succ z) as [H|[H _]]; lia.
Qed.

Lemma Zdigits2_lt_pow2 (z k : Z) : 0 <= z -> 0 <= k -> z < 2 ^ k -> Zdigits2 z <= k.
Proof.
  intros Hz Hk Hlt. destruct (Z.eq_dec z 0) as [->|Hnz]; [simpl; lia|].
  rewrite Zdigits2_log2 by lia.
  assert (Z.log2 z < k) by (apply Z.log2_lt_pow2; lia). lia.
Qed.

Lemma Zdigits2_bounds (z : Z) :
  0 < z -> 2 ^ (Zdigits2 z - 1) <= z < 2 ^ Zdigits2 z.
Proof.
  intros Hz. rewrite Zdigits2_log2 by assumption.
  replace (Z.log2 z + 1 - 1) with (Z.log2 z) by lia.
  replace (Z.log2 z + 1) with (Z.succ (Z.log2 z)) by lia.
  apply Z.log2_spec. assumption.
Qed.

Lemma digits2_pos_iter_xO (m d : positive) :
  Zpos (digits2_pos (Pos.iter xO m d)) = Zpos (digits2_pos m) + Zpos d.
Proof.
  revert m. induction d using Pos.peano_ind; intros m.
  - simpl. lia.
  - rewrite Pos.iter_succ. simpl digits2_pos. rewrite Pos2Z.inj_succ, IHd. lia.
Qed.

(** ** Rounding in a format *)

Section Rounding.
Variables prec emax : Z.
Hypothesis prec_pos : 0 < prec.

Let emin' := emin prec emax.
Let fexp' := fexp prec emax.

Lemma fexp_succ (d : Z) :
  fexp' (d + 1) = fexp' d \/ fexp' (d + 1) = fexp' d + 1.
Proof. unfold fexp', fexp. lia. Qed.

(** Shifts by no bit at all. *)
Ltac norm0 :=
  change (Z.max 0 0) with 0; change (2 ^ 0) with 1;
  rewrite ?Z.div_1_r, ?Z.add_0_r.

(** The datum [binary_round_aux] returns is never a NaN, and when it
    is finite its mantissa and exponent are the canonical ones of the
    format. *)
Lemma binary_round_aux_canonical (sx : bool) (mx ex : Z) (lx : location) :
  0 < mx -> ex <= fexp' (Zdigits2 mx + ex) ->
  match binary_round_aux prec emax sx mx ex lx with
  | S754_finite _ m e => bounded prec emax m e = true
  | S754_nan => False
  | _ => True
  end.
Proof.
  intros Hmx Hex. unfold binary_round_aux, shr_fexp.
  fold fexp'.
  set (f := fexp' (Zdigits2 mx + ex)) in *.
  destruct (shr_m_e (shr_record_of_loc mx lx) ex (f - ex)) as [Hm1 He1].
  { rewrite shr_record_of_loc_m. lia. }
  rewrite shr_record_of_loc_m in Hm1.
  replace (Z.max 0 (f - ex)) with (f - ex) in Hm1, He1 by lia.
  destruct (shr (shr_record_of_loc mx lx) ex (f - ex)) as [mrs' e'].
  simpl in Hm1, He1.
  assert (He' : e' = f) by lia. clear He1. subst e'.
  set (m' := shr_m mrs') in *.
  assert (Hm'0 : 0 <= m') by (rewrite Hm1; apply Z.div_pos; lia).
  set (m1 := round_nearest_even m' (loc_of_shr_record mrs')).
  assert (Hm1c : m1 = m' \/ m1 = m' + 1)
    by apply round_nearest_even_cases.
  assert (Hm10 : 0 <= m1) by lia.
  clearbody m1.
  set (n2 := fexp' (Zdigits2 m1 + f) - f).
  destruct (shr_m_e (shr_record_of_loc m1 loc_Exact) f n2) as [Hm2 He2].
  { simpl. assumption. }
  simpl shr_m in Hm2 at 2.
  destruct (shr (shr_record_of_loc m1 loc_Exact) f n2) as [mrs'' e''].
  simpl in Hm2, He2.
  (* the second shift is by at most one digit, and leaves a canonical
     mantissa *)
  assert (Hcanon : 0 < shr_m mrs'' ->
                   fexp' (Zdigits2 (shr_m mrs'') + e'') = e'').
  { intros Hpos. rewrite Hm2 in *. subst e''. clear Hm2.
    destruct (Z.eq_dec m' 0) as [Hz|Hnz].
    - (* everything was shifted out: the format is at its smallest
         exponent *)
      assert (Hd : Zdigits2 mx <= f - ex)
        by (apply div_pow2_small; [lia | lia | congruence]).
      assert (Hf : f = emin').
      { unfold f, fexp', fexp, emin', emin in *. lia. }
      destruct Hm1c as [E|E]; subst m1; rewrite Hz in *.
      + rewrite Z.div_0_l in Hpos; [lia|].
        apply Z.pow_nonzero; lia.
      + assert (Hn2 : n2 = 0).
        { unfold n2. rewrite Hz. change (Zdigits2 (0 + 1)) with 1.
          unfold fexp', fexp, emin', emin in *. lia. }
        rewrite Hn2 in *. norm0. change (Zdigits2 (0 + 1)) with 1.
        unfold fexp', fexp, emin', emin in *. lia.
    - assert (Hm'pos : 0 < m') by lia.
      assert (Hd' : Zdigits2 m' = Zdigits2 mx - (f - ex)).
      { rewrite Hm1. apply Zdigits2_div_pow2; lia. }
      assert (HD : fexp' (Zdigits2 m' + f) = f).
      { rewrite Hd'. unfold f. f_equal. lia. }
      destruct Hm1c as [E|E].
      + subst m1.
        assert (Hn2 : n2 = 0) by (unfold n2; lia).
        rewrite Hn2 in *. norm0. lia.
      + destruct (Zdigits2_succ m' Hm'pos) as [Hs|[Hs Hp]].
        * assert (Hn2 : n2 = 0) by (unfold n2; rewrite E, Hs; lia).
          rewrite Hn2 in *. norm0. rewrite E, Hs. lia.
        * rewrite <- E in Hs, Hp.
          assert (Hd1 : 1 <= Zdigits2 m')
            by (rewrite Zdigits2_log2 by lia;
                pose proof (Z.log2_nonneg m'); lia).
          destruct (fexp_succ (Zdigits2 m' + f)) as [Hf|Hf].
          -- assert (Hn2 : n2 = 0).
             { unfold n2. rewrite Hs.
               replace (Zdigits2 m' + 1 + f) with (Zdigits2 m' + f + 1)
                 by lia. lia. }
             rewrite Hn2 in *. norm0. rewrite Hs.
             replace (Zdigits2 m' + 1 + f)
               with (Zdigits2 m' + f + 1) by lia. lia.
          -- assert (Hn2 : n2 = 1).
             { unfold n2. rewrite Hs.
               replace (Zdigits2 m' + 1 + f) with (Zdigits2 m' + f + 1)
                 by lia. lia. }
             rewrite Hn2 in *. change (Z.max 0 1) with 1.
             assert (Hq : m1 / 2 ^ 1 = 2 ^ (Zdigits2 m' - 1)).
             { rewrite Hp.
               replace (Zdigits2 m') with (Zdigits2 m' - 1 + 1) at 1 by lia.
               rewrite Z.pow_add_r by lia. apply Z.div_mul. lia. }
             rewrite Hq.
             assert (Hdq : Zdigits2 (2 ^ (Zdigits2 m' - 1)) = Zdigits2 m').
             { rewrite Zdigits2_log2 by (apply Z.pow_pos_nonneg; lia).
               rewrite Z.log2_pow2 by lia. lia. }
             rewrite Hdq.
             replace (Zdigits2 m' + (f + 1)) with (Zdigits2 m' + f + 1)
               by lia. lia. }
  assert (Hnn : 0 <= shr_m mrs'')
    by (rewrite Hm2; apply Z.div_pos; [lia | apply Z.pow_pos_nonneg; lia]).
  destruct (shr_m mrs'') as [|m''|m''] eqn:Em; [exact I | | lia].
  destruct (e'' <=? emax - prec) eqn:Ee; [| exact I].
  unfold bounded, canonical_mantissa. rewrite Ee, andb_true_r.
  apply Z.eqb_eq. apply Hcanon. lia.
Qed.

Lemma binary_round_aux_not_nan (sx : bool) (mx ex : Z) (lx : location) :
  0 <= mx -> is_nan (binary_round_aux prec emax sx mx ex lx) = false.
Proof.
  intros Hmx. unfold binary_round_aux, shr_fexp.
  set (n1 := fexp prec emax (Zdigits2 mx + ex) - ex).
  destruct (shr_m_e (shr_record_of_loc mx lx) ex n1) as [Hm1 _].
  { rewrite shr_record_of_loc_m. assumption. }
  rewrite shr_record_of_loc_m in Hm1.
  destruct (shr (shr_record_of_loc mx lx) ex n1) as [mrs' e'].
  simpl fst in Hm1.
  set (m1 := round_nearest_even (shr_m mrs') (loc_of_shr_record mrs')).
  assert (Hm10 : 0 <= m1).
  { assert (0 <= shr_m mrs')
      by (rewrite Hm1; apply Z.div_pos;
          [lia | apply Z.pow_pos_nonneg; lia]).
    destruct (round_nearest_even_cases (shr_m mrs')
                (loc_of_shr_record mrs')); unfold m1; lia. }
  clearbody m1.
  set (n2 := fexp prec emax (Zdigits2 m1 + e') - e').
  destruct (shr_m_e (shr_record_of_loc m1 loc_Exact) e' n2) as [Hm2 _].
  { simpl. assumption. }
  simpl shr_m in Hm2 at 2.
  destruct (shr (shr_record_of_loc m1 loc_Exact) e' n2) as [mrs'' e''].
  simpl fst in Hm2.
  assert (0 <= shr_m mrs'')
    by (rewrite Hm2; apply Z.div_pos; [lia | apply Z.pow_pos_nonneg; lia]).
  destruct (shr_m mrs''); [reflexivity | | lia].
  destruct (e'' <=? emax - prec); reflexivity.
Qed.

(** When the exponent of the result stays within the format and the
    magnitude below [2^B], [binary_round_aux] returns a zero or a finite
    datum below [2^B]. *)
Lemma binary_round_aux_sized (sx : bool) (mx ex : Z) (lx : location) (B : Z) :
  0 <= mx -> 2 <= emax ->
  ex <= emax - prec -> ex + 1 <= B -> Zdigits2 mx + ex + 1 <= B ->
  emin' + 1 <= B -> B <= emax ->
  sized B (binary_round_aux prec emax sx mx ex lx).
Proof.
  intros Hmx Hemax Hex HexB HD Hmin HB.
  unfold binary_round_aux, shr_fexp. fold fexp'.
  set (n1 := fexp' (Zdigits2 mx + ex) - ex).
  destruct (shr_m_e (shr_record_of_loc mx lx) ex n1) as [Hm1 He1].
  { rewrite shr_record_of_loc_m. assumption. }
  rewrite shr_record_of_loc_m in Hm1.
  destruct (shr (shr_record_of_loc mx lx) ex n1) as [mrs' e'].
  simpl fst in Hm1. simpl snd in He1.
  set (m' := shr_m mrs') in *.
  assert (Hm'0 : 0 <= m')
    by (rewrite Hm1; apply Z.div_pos; [lia | apply Z.pow_pos_nonneg; lia]).
  assert (Hd' : Zdigits2 m' + e' <= Z.max (Zdigits2 mx + ex) e').
  { destruct (Z.eq_dec m' 0) as [Hz|Hnz].
    - rewrite Hz. simpl. lia.
    - assert (Hmxpos : 0 < mx).
      { destruct (Z.eq_dec mx 0) as [E0|]; [|lia].
        rewrite E0, Z.div_0_l in Hm1; [lia|]. apply Z.pow_nonzero; lia. }
      assert (Zdigits2 m' = Zdigits2 mx - Z.max 0 n1).
      { rewrite Hm1. apply Zdigits2_div_pow2; lia. }
      lia. }
  assert (He'b : e' <= emax - prec /\ e' + 1 <= B).
  { unfold n1, fexp', fexp, emin', emin in *. lia. }
  set (m1 := round_nearest_even m' (loc_of_shr_record mrs')).
  assert (Hm1c : m1 = m' \/ m1 = m' + 1) by apply round_nearest_even_cases.
  assert (Hm10 : 0 <= m1) by lia.
  assert (Hd1 : Zdigits2 m1 <= Zdigits2 m' + 1).
  { destruct Hm1c as [E|E]; rewrite E; [lia | apply Zdigits2_succ_le; lia]. }
  clearbody m1.
  set (n2 := fexp' (Zdigits2 m1 + e') - e').
  destruct (shr_m_e (shr_record_of_loc m1 loc_Exact) e' n2) as [Hm2 He2].
  { simpl. assumption. }
  simpl shr_m in Hm2 at 2.
  destruct (shr (shr_record_of_loc m1 loc_Exact) e' n2) as [mrs'' e''].
  simpl fst in Hm2. simpl snd in He2.
  assert (Hnn : 0 <= shr_m mrs'')
    by (rewrite Hm2; apply Z.div_pos; [lia | apply Z.pow_pos_nonneg; lia]).
  destruct (shr_m mrs'') as [|m''|m''] eqn:Em; [exact I | | lia].
  assert (Hm1pos : 0 < m1).
  { destruct (Z.eq_dec m1 0) as [Hz|]; [|lia].
    rewrite Hz, Z.div_0_l in Hm2; [lia|]. apply Z.pow_nonzero; lia. }
  assert (Hd'' : Zdigits2 (Z.pos m'') = Zdigits2 m1 - Z.max 0 n2).
  { rewrite Hm2. apply Zdigits2_div_pow2; lia. }
  assert (Hle : e'' <= emax - prec).
  { unfold n2, fexp', fexp, emin', emin in *. lia. }
  apply Z.leb_le in Hle. rewrite Hle.
  unfold sized. simpl Zdigits2 in Hd''. lia.
Qed.

(** After [shl_align] the mantissa has at least the digits of the
    format, so that rounding only ever shifts right. *)
Lemma shl_align_fexp (m : positive) (e : Z) :
  let '(mz, ez) := shl_align m e (fexp' (Zpos (digits2_pos m) + e)) in
  ez <= fexp' (Zdigits2 (Zpos mz) + ez).
Proof.
  unfold shl_align.
  set (f := fexp' (Zpos (digits2_pos m) + e)).
  destruct (f - e) as [|d|d] eqn:Ed; simpl Zdigits2.
  - fold f. lia.
  - fold f. lia.
  - rewrite digits2_pos_iter_xO.
    replace (Z.pos (digits2_pos m) + Z.pos d + f)
      with (Z.pos (digits2_pos m) + e) by lia.
    fold f. lia.
Qed.

Lemma binary_round_canonical (s : bool) (m : positive) (e : Z) :
  match binary_round prec emax s m e with
  | S754_finite _ m' e' => bounded prec emax m' e' = true
  | S754_nan => False
  | _ => True
  end.
Proof.
  unfold binary_round. fold fexp'.
  pose proof (shl_align_fexp m e) as H.
  destruct (shl_align m e (fexp' (Zpos (digits2_pos m) + e))) as [mz ez].
  apply binary_round_aux_canonical; [lia | exact H].
Qed.

Lemma shl_align_digits (m : positive) (e : Z) :
  let '(mz, ez) := shl_align m e (fexp' (Zpos (digits2_pos m) + e)) in
  Zpos (digits2_pos mz) + ez = Zpos (digits2_pos m) + e /\
  ez <= fexp' (Zpos (digits2_pos m) + e).
Proof.
  unfold shl_align.
  set (f := fexp' (Zpos (digits2_pos m) + e)).
  destruct (f - e) as [|d|d] eqn:Ed.
  - lia.
  - lia.
  - rewrite digits2_pos_iter_xO. lia.
Qed.

Lemma binary_round_sized (s : bool) (m : positive) (e B : Z) :
  2 <= emax -> Zpos (digits2_pos m) + e + 1 <= B ->
  emin' + 1 <= B -> B <= emax ->
  sized B (binary_round prec emax s m e).
Proof.
  intros Hemax HD Hmin HB. unfold binary_round. fold fexp'.
  pose proof (shl_align_digits m e) as H.
  destruct (shl_align m e (fexp' (Zpos (digits2_pos m) + e))) as [mz ez].
  destruct H as [Hd He].
  assert (Hf : fexp' (Zpos (digits2_pos m) + e) <= emax - prec)
    by (unfold fexp', fexp, emin', emin in *; lia).
  apply binary_round_aux_sized; simpl Zdigits2; try lia.
Qed.

Lemma binary_normalize_sized (z e : Z) (sz : bool) (B : Z) :
  2 <= emax -> Zdigits2 z + e + 1 <= B ->
  emin' + 1 <= B -> B <= emax ->
  sized B (binary_normalize prec emax z e sz).
Proof.
  intros Hemax HD Hmin HB. destruct z as [|p|p]; simpl.
  - exact I.
  - apply binary_round_sized; assumption.
  - apply binary_round_sized; assumption.
Qed.

(** The quotient of two finite data is a zero or finite as long as its
    magnitude stays within the format. *)
Lemma SFdiv_finite_sized (sx : bool) (mx : positive) (ex : Z)
    (sy : bool) (my : positive) (ey : Z) (B : Z) :
  2 <= emax ->
  (Zpos (digits2_pos mx) + ex) - (Zpos (digits2_pos my) + ey) + 2 <= B ->
  emin' + 1 <= B -> B <= emax ->
  sized B (SFdiv prec emax (S754_finite sx mx ex) (S754_finite sy my ey)).
Proof.
  intros Hemax HX Hmin HB. unfold SFdiv, SFdiv_core_binary. fold fexp'.
  simpl Zdigits2.
  set (d1 := Zpos (digits2_pos mx)) in *.
  set (d2 := Zpos (digits2_pos my)) in *.
  set (e' := Z.min (fexp' (d1 + ex - (d2 + ey))) (ex - ey)).
  set (s := ex - ey - e').
  assert (Hs : 0 <= s) by (unfold s, e'; lia).
  set (m' := match s with
             | Z.pos _ => Z.shiftl (Z.pos mx) s
             | 0 => Z.pos mx
             | Z.neg _ => 0
             end).
  assert (Hm' : m' = Z.pos mx * 2 ^ s).
  { unfold m'. destruct s as [|p|p] eqn:Es; try lia.
    rewrite Z.shiftl_mul_pow2 by lia. reflexivity. }
  clearbody m'.
  pose proof (Z.div_eucl_eq m' (Z.pos my)) as Hdiv.
  pose proof (Z.mod_pos_bound m' (Z.pos my)) as Hmod.
  unfold Z.modulo, Z.div in *.
  assert (Hq : fst (Z.div_eucl m' (Z.pos my)) = m' / Z.pos my) by reflexivity.
  destruct (Z.div_eucl m' (Z.pos my)) as [q r]. simpl in Hq.
  assert (Hb1 : 2 ^ (d1 - 1) <= Z.pos mx < 2 ^ d1)
    by (apply (Zdigits2_bounds (Z.pos mx)); lia).
  assert (Hb2 : 2 ^ (d2 - 1) <= Z.pos my < 2 ^ d2)
    by (apply (Zdigits2_bounds (Z.pos my)); lia).
  assert (Hd1 : 1 <= d1) by (unfold d1; lia).
  assert (Hd2 : 1 <= d2) by (unfold d2; lia).
  assert (Hm'lt : m' < 2 ^ (d1 + s)).
  { rewrite Hm', Z.pow_add_r by lia.
    apply Z.mul_lt_mono_pos_r; [apply Z.pow_pos_nonneg; lia | lia]. }
  assert (Hm'0 : 0 <= m') by (rewrite Hm'; apply Z.mul_nonneg_nonneg;
                              [lia | apply Z.pow_nonneg; lia]).
  assert (Hq0 : 0 <= q) by (rewrite Hq; apply Z.div_pos; lia).
  assert (Hdq : Zdigits2 q <= Z.max 0 (d1 + s - d2 + 1)).
  { destruct (Z.le_gt_cases 0 (d1 + s - d2 + 1)) as [Hk|Hk].
    - replace (Z.max 0 (d1 + s - d2 + 1)) with (d1 + s - d2 + 1) by lia.
      apply Zdigits2_lt_pow2; try lia.
      rewrite Hq. apply Z.div_lt_upper_bound; [lia|].
      assert (E : 2 ^ (d1 + s) = 2 ^ (d2 - 1) * 2 ^ (d1 + s - d2 + 1))
        by (rewrite <- Z.pow_add_r by lia; f_equal; lia).
      apply Z.lt_le_trans with (2 ^ (d1 + s)); [assumption|].
      rewrite E.
      apply Z.mul_le_mono_nonneg_r; [apply Z.pow_nonneg; lia | lia].
    - assert (m' < Z.pos my).
      { apply Z.lt_le_trans with (2 ^ (d1 + s)); [assumption|].
        apply Z.le_trans with (2 ^ (d2 - 1)); [|lia].
        apply Z.pow_le_mono_r; lia. }
      rewrite Hq, Z.div_small by lia. simpl. lia. }
  assert (He' : e' <= fexp' (d1 + ex - (d2 + ey))) by (unfold e'; lia).
  assert (Hf : fexp' (d1 + ex - (d2 + ey)) <= emax - prec
               /\ fexp' (d1 + ex - (d2 + ey)) + 1 <= B)
    by (unfold fexp', fexp, emin', emin in *; lia).
  apply binary_round_aux_sized; try lia.
Qed.

(** A datum in canonical form is its own rounding. *)
Lemma binary_round_bounded (s : bool) (m : positive) (e : Z) :
  bounded prec emax m e = true ->
  binary_round prec emax s m e = S754_finite s m e.
Proof.
  unfold bounded, canonical_mantissa. intros H.
  apply andb_true_iff in H. destruct H as [Hc He].
  apply Z.eqb_eq in Hc.
  unfold binary_round. rewrite Hc. unfold shl_align. rewrite Z.sub_diag.
  unfold binary_round_aux, shr_fexp. simpl Zdigits2. rewrite Hc.
  rewrite Z.sub_diag. cbv [shr shr_record_of_loc fst snd].
  cbv [loc_of_shr_record shr_m shr_r shr_s round_nearest_even].
  simpl Zdigits2. rewrite Hc, Z.sub_diag. cbv [shr_m].
  rewrite He. reflexivity.
Qed.

(** Rounding twice to the same format is rounding once. *)
Lemma round_to_idempotent (x : spec_float) :
  round_to prec emax (round_to prec emax x) = round_to prec emax x.
Proof.
  destruct x as [s|s| |s m e]; try reflexivity. simpl.
  pose proof (binary_round_canonical s m e) as H.
  destruct (binary_round prec emax s m e) as [s'|s'| |s' m' e'];
    try reflexivity.
  simpl. apply binary_round_bounded. exact H.
Qed.

Lemma round_to_not_nan (x : spec_float) :
  is_nan x = false -> is_nan (round_to prec emax x) = false.
Proof.
  destruct x as [s|s| |s m e]; try (intros; assumption). intros _. simpl.
  pose proof (binary_round_canonical s m e) as H.
  destruct (binary_round prec emax s m e); try reflexivity. contradiction.
Qed.
End Rounding.

Lemma binary_round_not_nan prec emax s m e :
  0 < prec -> is_nan (binary_round prec emax s m e) = false.
Proof.
  intros Hp. pose proof (binary_round_canonical prec emax Hp s m e) as H.
  destruct (binary_round prec emax s m e); try reflexivity. contradiction.
Qed.

Lemma binary_normalize_not_nan prec emax m e sz :
  0 < prec -> is_nan (binary_normalize prec emax m e sz) = false.
Proof.
  intros Hp. destruct m; simpl; [reflexivity | |];
    apply binary_round_not_nan; assumption.
Qed.

Lemma SFmul_finite_r_not_nan prec emax x s m e :
  0 < prec -> is_nan x = false ->
  is_nan (SFmul prec emax x (S754_finite s m e)) = false.
Proof.
  intros Hp Hx. destruct x as [sx|sx| |sx mx ex]; try reflexivity.
  - discriminate.
  - unfold SFmul. apply binary_round_aux_not_nan. lia.
Qed.

Lemma SFadd_finite_l_not_nan prec emax s m e y :
  0 < prec -> is_nan y = false ->
  is_nan (SFadd prec emax (S754_finite s m e) y) = false.
Proof.
  intros Hp Hy. destruct y as [sy|sy| |sy my ey]; try reflexivity.
  - discriminate.
  - unfold SFadd. apply binary_normalize_not_nan. assumption.
Qed.

Lemma SFadd_finite_r_not_nan prec emax x y :
  0 < prec -> is_nan x = false -> is_finite y = true ->
  is_nan (SFadd prec emax x y) = false.
Proof.
  intros Hp Hx Hy.
  destruct x as [sx|sx| |sx mx ex], y as [sy|sy| |sy my ey];
    try discriminate; try reflexivity.
  - destruct sx, sy; reflexivity.
  - unfold SFadd. apply binary_normalize_not_nan. assumption.
Qed.

Lemma constrain_cases x lo hi :
  constrain x lo hi = lo /\ Fltb x lo = true \/
  constrain x lo hi = hi /\ Fltb x lo = false /\ Fltb hi x = true \/
  constrain x lo hi = x /\ Fltb x lo = false /\ Fltb hi x = false.
Proof.
  unfold constrain. destruct (Fltb x lo); [auto|].
  destruct (Fltb hi x); auto.
Qed.

(* ================================================================== *)
(** * Reasoning on commands *)

Lemma exec_bind {A B : Type} (c : M A) (k : A -> M B) (w : World) :
  exec (bind c k) w = exec (k (eval c w)) (exec c w).
Proof. unfold exec, eval, bind. destruct (c w). reflexivity. Qed.

Lemma eval_bind {A B : Type} (c : M A) (k : A -> M B) (w : World) :
  eval (bind c k) w = eval (k (eval c w)) (exec c w).
Proof. unfold exec, eval, bind. destruct (c w). reflexivity. Qed.

Lemma forallb_Zrange (p : Z -> bool) (lo : Z) (n : nat) :
  forallb p (Zrange lo n) = true ->
  forall k, lo <= k < lo + Z.of_nat n -> p k = true.
Proof.
  intros H k Hk. rewrite forallb_forall in H. apply H.
  unfold Zrange. apply in_map_iff. exists (Z.to_nat (k - lo)).
  split; [lia|]. apply in_seq. lia.
Qed.

(** The value of a firmware constant, and a comparison decided on the
    value of a float. *)
Ltac const_values :=
  repeat match goal with
         | H : context [SF2X ?c] |- _ =>
             is_const c; let v := eval vm_compute in (SF2X c) in
             change (SF2X c) with v in H
         | |- context [SF2X ?c] =>
             is_const c; let v := eval vm_compute in (SF2X c) in
             change (SF2X c) with v
         end.

Ltac by_value t :=
  unfold between, Fleb, Fltb, Fcompare in *; const_values;
  destruct (SF2X t) as [|[]|?q]; cbv beta iota delta [Xcompare] in *;
  repeat match goal with
         | H : context [Qcompare ?a ?b] |- _ =>
             destruct (Qcompare_spec a b); try discriminate H
         | |- context [Qcompare ?a ?b] =>
             destruct (Qcompare_spec a b)
         end;
  try discriminate; try reflexivity; try lra.

(* ================================================================== *)
(** * Status classifier *)

(** The classifier changes nothing but [waterStatus]. *)
Lemma exec_assessment (w : World) :
  exec water_quality_assessment w =
  set_reading
    (with_waterStatus
       (waterStatus (reading (exec water_quality_assessment w))) (reading w)) w.
Proof.
  unfold water_quality_assessment. rewrite exec_bind.
  change (eval (get reading) w) with (reading w).
  change (exec (get reading) w) with w.
  destruct w as [c n g l r lr dc odc]; destruct r as [p t d tu v vd ws].
  cbn [reading tds vibrationDetected].
  destruct (Fleb d TDSCLEAN_THRESHOLD && negb vd); [reflexivity |].
  destruct (Fleb d TDSDIRTY_THRESHOLD && Fltb TDSCLEAN_THRESHOLD d && negb vd);
    [reflexivity |].
  destruct (Fleb TDSXTREME_THRESHOLD d); [reflexivity |].
  destruct vd; reflexivity.
Qed.

(** C1.  For a TDS value in [0, 2000], whatever the vibration flag and
    the previous status, the status classifier assigns [clean] when
    [tds <= 300] without vibration, [unsafe] when [300 < tds <= 400]
    without vibration, [extremely_unsafe] when [tds >= 500] with or
    without vibration, [vibration_detected] when there is vibration and
    [tds >= 500] does not hold; in the case that is left, which is
    [400 < tds < 500] without vibration, the status of the previous cycle
    stays.  The status is [unknown] after the classifier only if it was
    before. *)
Theorem status_classifier (w : World) :
  let t := tds (reading w) in
  let v := vibrationDetected (reading w) in
  let s' := waterStatus (reading (exec water_quality_assessment w)) in
  in_tds_range t ->
  (Fleb t TDSCLEAN_THRESHOLD = true -> v = false -> s' = "clean"%string) /\
  (Fltb TDSCLEAN_THRESHOLD t = true -> Fleb t TDSDIRTY_THRESHOLD = true ->
   v = false -> s' = "unsafe"%string) /\
  (Fleb TDSXTREME_THRESHOLD t = true -> s' = "extremely_unsafe"%string) /\
  (v = true -> Fleb TDSXTREME_THRESHOLD t = false ->
   s' = "vibration_detected"%string) /\
  (v = false -> Fltb TDSDIRTY_THRESHOLD t = true ->
   Fltb t TDSXTREME_THRESHOLD = true -> s' = waterStatus (reading w)) /\
  (v = false -> Fleb t TDSDIRTY_THRESHOLD = false ->
   Fleb TDSXTREME_THRESHOLD t = false ->
   Fltb TDSDIRTY_THRESHOLD t = true /\ Fltb t TDSXTREME_THRESHOLD = true) /\
  (s' = "unknown"%string -> waterStatus (reading w) = "unknown"%string).
Proof.
  intros t v s' Hr. subst s'.
  unfold water_quality_assessment. rewrite exec_bind.
  change (eval (get reading) w) with (reading w).
  change (exec (get reading) w) with w.
  fold t v.
  split; [| split; [| split; [| split; [| split; [| split]]]]].
  - intros H1 Hv. rewrite H1, Hv. reflexivity.
  - intros H1 H2 Hv. rewrite (Fltb_Fleb_false _ _ H1), H1, H2, Hv. reflexivity.
  - intros H3.
    assert (E1 : Fleb t TDSCLEAN_THRESHOLD = false) by (clear - H3; by_value t).
    assert (E2 : Fleb t TDSDIRTY_THRESHOLD = false) by (clear - H3; by_value t).
    rewrite E1, E2, H3. reflexivity.
  - intros Hv H3. rewrite Hv, H3. cbn. rewrite !andb_false_r. reflexivity.
  - intros Hv H2 H3.
    assert (E1 : Fleb t TDSCLEAN_THRESHOLD = false) by (clear - H2; by_value t).
    rewrite E1, (Fltb_Fleb_false _ _ H2), (Fltb_Fleb_false _ _ H3), Hv.
    reflexivity.
  - intros _ H2 H3. unfold in_tds_range in Hr. apply andb_true_iff in Hr.
    destruct Hr as [Hlo _]. clear - Hlo H2 H3. split; by_value t.
  - destruct (Fleb t TDSCLEAN_THRESHOLD && negb v); [discriminate |].
    destruct (Fleb t TDSDIRTY_THRESHOLD && Fltb TDSCLEAN_THRESHOLD t && negb v);
      [discriminate |].
    destruct (Fleb TDSXTREME_THRESHOLD t); [discriminate |].
    destruct v; [discriminate |]. cbn. trivial.
Qed.

(* ================================================================== *)
(** * Unit converter *)

Lemma exec_tds_sensor (P : Platform) (w : World) :
  reading (exec (tds_sensor P) w) =
  with_tds (convert (adc_sample P (calls w))) (reading w).
Proof. destruct w as [c n g l r lr dc odc]; destruct r. reflexivity. Qed.

(** Every sample of the 12-bit ADC converts to a value in the range. *)
Lemma convert_in_range_all :
  forallb (fun a => between Lit.f0 Lit.f2000 (convert a)) (Zrange 0 4096) = true.
Proof. vm_compute. reflexivity. Qed.

(** C2.  For every ADC sample in [0, 4095] the unit converter computes
    [voltage = adcValue * VREF / 4095],
    [compensation = 1.0 + 0.02 * (sensorTemperature - 25.0)],
    [vComp = voltage / compensation] and
    [tds = (133.42 * vComp^3 - 255.86 * vComp^2 + 857.39 * vComp) * 0.5]
    clamped to [0, 2000]; the sample 0 converts to 0 and every result is
    within [0, 2000]. *)
Theorem unit_converter (P : Platform) (w : World) :
  let adcValue := adc_sample P (calls w) in
  0 <= adcValue <= ADC_RES ->
  let voltage :=
    F32.div (F32.mul (F32.of_Z adcValue) VREF) (F32.of_Z ADC_RES) in
  let vComp := F32.div voltage compensation in
  let polynomial :=
    F32.of_double
      (F64.mul
         (F64.add
            (F64.sub (F64.mul Lit.d133_42 (pow vComp 3))
                     (F64.mul Lit.d255_86 (pow vComp 2)))
            (F64.mul Lit.d857_39 vComp))
         Lit.d0_5) in
  compensation =
    F32.of_double
      (F64.add Lit.d1_0
         (F64.mul Lit.d0_02 (F64.sub sensorTemperature Lit.d25_0))) /\
  tds (reading (exec (tds_sensor P) w)) = constrain polynomial Lit.f0 Lit.f2000 /\
  convert adcValue = tds (reading (exec (tds_sensor P) w)) /\
  in_tds_range (convert adcValue) /\
  convert 0 = S754_zero false.
Proof.
  intros adcValue Hadc voltage vComp polynomial.
  rewrite exec_tds_sensor. fold adcValue.
  split; [reflexivity |]. split; [reflexivity |]. split; [reflexivity |].
  split.
  - unfold in_tds_range.
    apply (forallb_Zrange (fun a => between Lit.f0 Lit.f2000 (convert a)) 0 4096
             convert_in_range_all).
    unfold ADC_RES in Hadc. lia.
  - vm_compute. reflexivity.
Qed.

(* ================================================================== *)
(** * Motion analyzer *)

Lemma exec_motion_analyzer (P : Platform) (w : World) :
  let ev := mpu_event P (calls w) in
  let v := vibration_magnitude (acceleration_x ev) (acceleration_y ev)
             (acceleration_z ev) in
  reading (exec (motion_analyzer P) w) =
  with_temperature (event_temperature ev)
    (with_vibrationDetected (vibration_exceeds v)
       (with_vibration v (reading w))).
Proof. destruct w as [c n g l r lr dc odc]; destruct r. reflexivity. Qed.

(** C3.  For every acceleration sample [(x, y, z)] the motion analyzer
    sets [vibration] to [sqrt(x*x + y*y + z*z) - 9.8] and
    [vibrationDetected] exactly when [|vibration| > 1.5].  The sample
    [(0, 0, 9.8)] gives a magnitude within [1e-6] of 0 and no vibration;
    the sample [(0, 0, 12.0)] gives a magnitude within [1e-6] of 2.2 and
    vibration. *)
Theorem motion_analyzer_spec (P : Platform) (w : World) :
  let ev := mpu_event P (calls w) in
  let x := acceleration_x ev in
  let y := acceleration_y ev in
  let z := acceleration_z ev in
  let r' := reading (exec (motion_analyzer P) w) in
  let zero := F32.of_Z 0 in
  let eps := F64.lit 1 1000000 in
  vibration r' =
    F32.of_double
      (F64.sub
         (F32.sqrt (F32.add (F32.add (F32.mul x x) (F32.mul y y))
                            (F32.mul z z)))
         Lit.d9_8) /\
  (vibrationDetected r' = true <->
   Fltb VIB_THRESHOLD (abs (vibration r')) = true) /\
  (forall temp,
     ev = sample zero zero (F32.of_double Lit.d9_8) temp ->
     close_to (F64.of_Z 0) eps (vibration r') = true /\
     vibrationDetected r' = false) /\
  (forall temp,
     ev = sample zero zero (F32.of_double (F64.lit 120 10)) temp ->
     close_to (F64.lit 22 10) eps (vibration r') = true /\
     vibrationDetected r' = true).
Proof.
  intros ev x y z r' zero eps. subst r'.
  rewrite exec_motion_analyzer. fold ev. fold x y z.
  split; [reflexivity |]. split; [reflexivity |].
  split; intros temp E; subst x y z; rewrite E; split;
    vm_compute; reflexivity.
Qed.

(* ================================================================== *)
(** * What a command keeps *)

Lemma keeps_ret {A B : Type} (f : World -> A) (b : B) : keeps f (ret b).
Proof. intros w. reflexivity. Qed.

Lemma keeps_bind {A B C : Type} (f : World -> A) (c : M B) (k : B -> M C) :
  keeps f c -> (forall b, keeps f (k b)) -> keeps f (bind c k).
Proof.
  intros Hc Hk w. rewrite exec_bind. rewrite Hk. apply Hc.
Qed.

Lemma keeps_flash_red {A : Type} (f : World -> A) (n : nat) :
  keeps f (digitalWrite LED_RED HIGH) ->
  keeps f (digitalWrite LED_RED LOW) ->
  keeps f (delay 200) ->
  keeps f (flash_red n).
Proof.
  intros H1 H2 H3. induction n as [|n IH]; simpl.
  - apply keeps_ret.
  - repeat (apply keeps_bind; [assumption | intros _]). assumption.
Qed.

(** A command keeps what none of its calls touches. *)
Ltac keeps_step :=
  first
    [ apply keeps_ret
    | apply keeps_bind; [| intro]
    | apply keeps_flash_red
    | match goal with
      | |- keeps _ (if ?b then _ else _) => destruct b
      | |- keeps _ (match ?x with _ => _ end) => destruct x
      end
    | (intros [? ? ? ? [] ? ? ?]; reflexivity) ].

Ltac keeps_all := repeat keeps_step.

Lemma led_keeps_reading (P : Platform) :
  keeps reading (led_status_indicators P).
Proof. unfold led_status_indicators. keeps_all. Qed.

Lemma ph_keeps_gpio (P : Platform) : keeps gpio (ph_and_turbidity P).
Proof. unfold ph_and_turbidity. keeps_all. Qed.

Lemma summary_keeps_gpio (P : Platform) : keeps gpio (serial_summary P).
Proof. unfold serial_summary. keeps_all. Qed.

Lemma summary_keeps_reading (P : Platform) : keeps reading (serial_summary P).
Proof. unfold serial_summary. keeps_all. Qed.

Lemma json_keeps_gpio (P : Platform) : keeps gpio (Main.serial_json P).
Proof. unfold Main.serial_json. keeps_all. Qed.

Lemma json_keeps_reading (P : Platform) : keeps reading (Main.serial_json P).
Proof. unfold Main.serial_json. keeps_all. Qed.

Lemma ph_keeps_status (P : Platform) :
  keeps (fun w => waterStatus (reading w)) (ph_and_turbidity P).
Proof. unfold ph_and_turbidity. keeps_all. Qed.

(* ================================================================== *)
(** * LED status indicators *)

(** The level of the yellow LED in the [vibration_detected] branch:
    [(millis() / 500) % 2] at the clock value [t]. *)
Lemma led_gpio (P : Platform) (w : World) :
  let s := waterStatus (reading w) in
  let t := clock w + Z.of_N (elapsed P (calls w)) in
  gpio (exec (led_status_indicators P) w) =
  if (s =? "clean")%string then only Green
  else if (s =? "unsafe")%string then only Yellow
  else if (s =? "extremely_unsafe")%string then only Red
  else if (s =? "vibration_detected")%string then
    {| green := false;
       yellow := negb ((uint32 t / 500) mod 2 =? 0);
       red := false |}
  else all_off.
Proof.
  destruct w as [c n g l r lr dc odc]; destruct r as [p t d tu v vd ws].
  unfold led_status_indicators. rewrite !exec_bind. cbn [waterStatus reading].
  change (waterStatus (reading (exec _ _))) with ws.
  cbv zeta.
  match goal with
  | |- context [eval (get reading) ?w0] =>
      change (waterStatus (eval (get reading) w0)) with ws
  end.
  destruct (ws =? "clean")%string; [reflexivity |].
  destruct (ws =? "unsafe")%string; [reflexivity |].
  destruct (ws =? "extremely_unsafe")%string; [reflexivity |].
  destruct (ws =? "vibration_detected")%string; reflexivity.
Qed.

Lemma led_law_after_led (P : Platform) (w : World) :
  led_law (exec (led_status_indicators P) w).
Proof.
  unfold led_law. rewrite led_keeps_reading, led_gpio.
  set (s := waterStatus (reading w)). cbv zeta.
  destruct (s =? "clean")%string eqn:E1.
  { apply String.eqb_eq in E1. rewrite E1.
    repeat split; intros;
      first [reflexivity | discriminate | congruence | (cbv; lia)]. }
  destruct (s =? "unsafe")%string eqn:E2.
  { apply String.eqb_eq in E2. rewrite E2.
    repeat split; intros;
      first [reflexivity | discriminate | congruence | (cbv; lia)]. }
  destruct (s =? "extremely_unsafe")%string eqn:E3.
  { apply String.eqb_eq in E3. rewrite E3.
    repeat split; intros;
      first [reflexivity | discriminate | congruence | (cbv; lia)]. }
  destruct (s =? "vibration_detected")%string eqn:E4.
  { apply String.eqb_eq in E4. rewrite E4.
    repeat split; intros;
      first [reflexivity | discriminate | congruence
            | (unfold leds_on; cbn [green yellow red];
               destruct (negb _); cbv; lia)]. }
  apply String.eqb_neq in E1, E2, E3, E4.
  repeat split; intros;
    first [reflexivity | discriminate | congruence | (cbv; lia)].
Qed.

(** ** The cycle as the sequence of its sections *)

Lemma Main_update_stages (P : Platform) (w : World) :
  exec (Main.updateWaterQualityReadings P) w =
  exec (Main.serial_json P)
    (exec (serial_summary P)
       (exec (ph_and_turbidity P)
          (exec (led_status_indicators P)
             (exec water_quality_assessment
                (exec (tds_sensor P)
                   (exec (if mpu_found P (calls w) then motion_analyzer P
                          else Main.simulated_motion P)
                      (exec (mpu.begin P) w))))))).
Proof.
  unfold Main.updateWaterQualityReadings. rewrite !exec_bind. reflexivity.
Qed.

Lemma MainWithBle_update_stages (P : Platform) (w : World) :
  exec (MainWithBle.updateWaterQualityReadings P) w =
  exec (serial_summary P)
    (exec (ph_and_turbidity P)
       (exec (led_status_indicators P)
          (exec water_quality_assessment
             (exec (tds_sensor P) (exec (motion_analyzer P) w))))).
Proof.
  unfold MainWithBle.updateWaterQualityReadings. rewrite !exec_bind.
  reflexivity.
Qed.

(** The sections after the LEDs touch neither the pins nor the status. *)
Lemma led_law_kept (w w' : World) :
  gpio w' = gpio w -> waterStatus (reading w') = waterStatus (reading w) ->
  led_law w -> led_law w'.
Proof. unfold led_law. intros -> ->. trivial. Qed.

Lemma Main_cycle_led_law (P : Platform) (w : World) :
  led_law (exec (Main.updateWaterQualityReadings P) w).
Proof.
  rewrite Main_update_stages.
  eapply led_law_kept; [| | apply led_law_after_led].
  - rewrite json_keeps_gpio, summary_keeps_gpio, ph_keeps_gpio. reflexivity.
  - rewrite json_keeps_reading, summary_keeps_reading.
    apply (ph_keeps_status P).
Qed.

Lemma MainWithBle_cycle_led_law (P : Platform) (w : World) :
  led_law (exec (MainWithBle.updateWaterQualityReadings P) w).
Proof.
  rewrite MainWithBle_update_stages.
  eapply led_law_kept; [| | apply led_law_after_led].
  - rewrite summary_keeps_gpio, ph_keeps_gpio. reflexivity.
  - rewrite summary_keeps_reading. apply (ph_keeps_status P).
Qed.

(* ================================================================== *)
(** * No two LEDs at any time *)

Lemma never_two_bound (l : list Event) :
  never_two l = true -> (leds_on (pins_after l) <= 1)%nat.
Proof.
  destruct l as [|e l]; cbn [never_two pins_after].
  - intros _. cbv. lia.
  - intros H. apply andb_prop in H. destruct H as [H _].
    apply Nat.leb_le. exact H.
Qed.

Lemma tidy_bound (w : World) : tidy w -> (leds_on (gpio w) <= 1)%nat.
Proof. intros [E N]. rewrite E. apply never_two_bound. exact N. Qed.

Lemma steady_ret {B : Type} (b : B) : steady (ret b).
Proof. intros w H. exact H. Qed.

Lemma steady_bind {B C : Type} (c : M B) (k : B -> M C) :
  steady c -> (forall b, steady (k b)) -> steady (bind c k).
Proof.
  intros Hc Hk w H. rewrite exec_bind. apply Hk, Hc, H.
Qed.

(** A command that makes no call and leaves the pins alone. *)
Lemma steady_silent {B : Type} (c : M B) :
  keeps gpio c -> keeps log c -> steady c.
Proof.
  intros Kg Kl w [E N]. unfold tidy. rewrite Kg, Kl. split; assumption.
Qed.

(** A call other than [digitalWrite]. *)
Lemma steady_emit (e : Event) :
  (forall g, drive e g = g) -> steady (emit e).
Proof.
  intros He [c n g l r lr dc odc] [E N]. cbn [gpio log] in E, N.
  unfold tidy, emit, modify, exec, set_log.
  cbn [snd gpio log pins_after never_two].
  rewrite He. split; [exact E |].
  apply andb_true_intro. split; [| exact N].
  apply Nat.leb_le. apply never_two_bound. exact N.
Qed.

Lemma exec_digitalWrite (pin val : Z) (w : World) :
  gpio (exec (digitalWrite pin val) w)
    = drive (DigitalWrite pin (negb (val =? 0))) (gpio w) /\
  log (exec (digitalWrite pin val) w)
    = DigitalWrite pin (negb (val =? 0)) :: log w.
Proof. destruct w. split; reflexivity. Qed.

(** Turning a pin off. *)
Lemma steady_off (pin : Z) : steady (digitalWrite pin LOW).
Proof.
  intros w H. pose proof (tidy_bound w H) as B. destruct H as [E N].
  destruct (exec_digitalWrite pin LOW w) as [Eg El].
  unfold tidy. rewrite Eg, El. cbn [pins_after never_two].
  rewrite <- E. split; [reflexivity |].
  apply andb_true_intro. split; [| exact N].
  apply Nat.leb_le. revert B.
  destruct (gpio w) as [a b c]. unfold leds_on, drive, LOW.
  cbn [green yellow red negb Z.eqb].
  destruct (pin =? LED_GREEN), (pin =? LED_YELLOW), (pin =? LED_RED),
    a, b, c; cbn; lia.
Qed.

(** Driving one pin while the three LEDs are off. *)
Lemma tidy_one_on (pin val : Z) (w : World) :
  tidy w -> gpio w = all_off -> tidy (exec (digitalWrite pin val) w).
Proof.
  intros [E N] Off.
  destruct (exec_digitalWrite pin val w) as [Eg El].
  unfold tidy. rewrite Eg, El. cbn [pins_after never_two].
  rewrite <- E. split; [reflexivity |].
  apply andb_true_intro. split; [| exact N].
  apply Nat.leb_le. rewrite Off.
  unfold leds_on, drive, all_off, LED_GREEN, LED_YELLOW, LED_RED.
  cbn [green yellow red].
  destruct (Z.eqb_spec pin 2), (Z.eqb_spec pin 4), (Z.eqb_spec pin 5),
    (negb (val =? 0)); cbn; lia.
Qed.

Lemma millis_keeps_gpio (P : Platform) : keeps gpio (millis P).
Proof. unfold millis. keeps_all. Qed.

Lemma millis_keeps_log (P : Platform) : keeps log (millis P).
Proof. unfold millis. keeps_all. Qed.

Lemma steady_millis (P : Platform) : steady (millis P).
Proof.
  apply steady_silent; [apply millis_keeps_gpio | apply millis_keeps_log].
Qed.

(** The LED section turns the three LEDs off before it turns one on. *)
Lemma steady_led (P : Platform) : steady (led_status_indicators P).
Proof.
  intros w H.
  set (w3 := exec (digitalWrite LED_RED LOW)
               (exec (digitalWrite LED_YELLOW LOW)
                  (exec (digitalWrite LED_GREEN LOW) w))).
  assert (T3 : tidy w3) by (subst w3; repeat apply steady_off; exact H).
  assert (O3 : gpio w3 = all_off).
  { subst w3. destruct w as [c n [a b d] l r lr dc odc]. reflexivity. }
  unfold led_status_indicators. rewrite !exec_bind. fold w3. cbv beta.
  destruct (waterStatus (eval (get reading) w3) =? "clean")%string.
  { apply tidy_one_on; assumption. }
  destruct (waterStatus (eval (get reading) w3) =? "unsafe")%string.
  { apply tidy_one_on; assumption. }
  destruct (waterStatus (eval (get reading) w3) =? "extremely_unsafe")%string.
  { apply tidy_one_on; assumption. }
  destruct (waterStatus (eval (get reading) w3) =? "vibration_detected")%string.
  { rewrite exec_bind. apply tidy_one_on.
    - apply steady_millis. exact T3.
    - rewrite millis_keeps_gpio. exact O3. }
  exact T3.
Qed.

(** A command of calls other than [digitalWrite] is steady. *)
Ltac steady_step :=
  first
    [ apply steady_ret
    | apply steady_bind; [| intro]
    | apply steady_emit; intro; reflexivity
    | apply steady_silent; intros [? ? ? ? [] ? ? ?]; reflexivity
    | match goal with
      | |- steady (if ?b then _ else _) => destruct b
      | |- steady (match ?x with _ => _ end) => destruct x
      end ].

Ltac steady_all := repeat steady_step.

Ltac unfold_calls :=
  unfold millis, delay, analogRead, random, Serial_print, Serial_println,
    mpu.begin, mpu.getEvent, assign, pinMode.

Lemma steady_begin (P : Platform) : steady (mpu.begin P).
Proof. unfold_calls. steady_all. Qed.

Lemma steady_motion_analyzer (P : Platform) : steady (motion_analyzer P).
Proof. unfold motion_analyzer. unfold_calls. steady_all. Qed.

Lemma steady_simulated_motion (P : Platform) :
  steady (Main.simulated_motion P).
Proof. unfold Main.simulated_motion. unfold_calls. steady_all. Qed.

Lemma steady_tds_sensor (P : Platform) : steady (tds_sensor P).
Proof. unfold tds_sensor. unfold_calls. steady_all. Qed.

Lemma steady_assessment : steady water_quality_assessment.
Proof. unfold water_quality_assessment. unfold_calls. steady_all. Qed.

Lemma steady_ph (P : Platform) : steady (ph_and_turbidity P).
Proof. unfold ph_and_turbidity. unfold_calls. steady_all. Qed.

Lemma steady_summary (P : Platform) : steady (serial_summary P).
Proof. unfold serial_summary. unfold_calls. steady_all. Qed.

Lemma steady_json (P : Platform) : steady (Main.serial_json P).
Proof. unfold Main.serial_json. unfold_calls. steady_all. Qed.

Lemma steady_generate (P : Platform) :
  steady (MainWithBle.generateWaterQualityJSON P).
Proof. unfold MainWithBle.generateWaterQualityJSON. unfold_calls. steady_all. Qed.

Lemma steady_delay (ms : Z) : steady (delay ms).
Proof. unfold_calls. steady_all. Qed.

Lemma steady_Main_cycle (P : Platform) :
  steady (Main.updateWaterQualityReadings P).
Proof.
  unfold Main.updateWaterQualityReadings.
  apply steady_bind; [apply steady_begin | intros found].
  apply steady_bind.
  { destruct found;
      [apply steady_motion_analyzer | apply steady_simulated_motion]. }
  intros _. apply steady_bind; [apply steady_tds_sensor | intros _].
  apply steady_bind; [apply steady_assessment | intros _].
  apply steady_bind; [apply steady_led | intros _].
  apply steady_bind; [apply steady_ph | intros _].
  apply steady_bind; [apply steady_summary | intros _].
  apply steady_json.
Qed.

Lemma steady_MainWithBle_cycle (P : Platform) :
  steady (MainWithBle.updateWaterQualityReadings P).
Proof.
  unfold MainWithBle.updateWaterQualityReadings.
  apply steady_bind; [apply steady_motion_analyzer | intros _].
  apply steady_bind; [apply steady_tds_sensor | intros _].
  apply steady_bind; [apply steady_assessment | intros _].
  apply steady_bind; [apply steady_led | intros _].
  apply steady_bind; [apply steady_ph | intros _].
  apply steady_summary.
Qed.

(** The sections of a pass through [loop], by name. *)
Ltac steady_section :=
  match goal with
  | |- steady (millis _) => apply steady_millis
  | |- steady (delay _) => apply steady_delay
  | |- steady (Main.updateWaterQualityReadings _) => apply steady_Main_cycle
  | |- steady (MainWithBle.updateWaterQualityReadings _) =>
      apply steady_MainWithBle_cycle
  | |- steady (MainWithBle.generateWaterQualityJSON _) =>
      apply steady_generate
  | |- steady (Serial_println _) => unfold Serial_println
  | |- steady (MainWithBle.onConnect) => unfold MainWithBle.onConnect
  | |- steady (MainWithBle.onDisconnect) => unfold MainWithBle.onDisconnect
  end.

Ltac steady_loop := repeat first [steady_section | steady_step].

Lemma steady_Main_loop (P : Platform) : steady (Main.loop P).
Proof. unfold Main.loop. steady_loop. Qed.

Lemma steady_MainWithBle_loop (P : Platform) :
  steady (MainWithBle.ble_stack P ;; MainWithBle.loop P).
Proof.
  unfold MainWithBle.ble_stack, MainWithBle.loop. steady_loop.
Qed.

Lemma steady_stall : steady MainWithBle.stall.
Proof. unfold MainWithBle.stall. unfold_calls. steady_all. Qed.

(** [setup] runs once, from power-up. *)
Lemma Main_setup_tidy (P : Platform) :
  tidy (snd (Main.setup P power_up)) /\
  fst (Main.setup P power_up) <> Boot.
Proof.
  destruct P as [el mf me ad en bc sn sf pf].
  unfold tidy. vm_compute. destruct (mf 0%nat); vm_compute;
    repeat split; discriminate.
Qed.

Lemma MainWithBle_setup_tidy (P : Platform) :
  tidy (snd (MainWithBle.setup P power_up)) /\
  fst (MainWithBle.setup P power_up) <> Boot.
Proof.
  destruct P as [el mf me ad en bc sn sf pf].
  unfold tidy. vm_compute. destruct (mf 0%nat); vm_compute;
    repeat split; discriminate.
Qed.

Lemma Main_run_succ (P : Platform) (n : nat) :
  Main.run P (S n) = Main.step P (Main.run P n).
Proof. reflexivity. Qed.

Lemma MainWithBle_run_succ (P : Platform) (n : nat) :
  MainWithBle.run P (S n) = MainWithBle.step P (MainWithBle.run P n).
Proof. reflexivity. Qed.

Lemma Main_run_tidy (P : Platform) (n : nat) :
  tidy (world (Main.run P n)) /\
  (phase (Main.run P n) = Boot -> world (Main.run P n) = power_up).
Proof.
  induction n as [|n [IH B]].
  - split; [split; reflexivity | reflexivity].
  - rewrite Main_run_succ. destruct (Main.run P n) as [ph w].
    cbn [phase world] in *. unfold Main.step. cbn [phase world].
    destruct ph.
    + rewrite (B eq_refl).
      destruct (Main_setup_tidy P) as [T NB].
      destruct (Main.setup P power_up) as [ph' w'].
      cbn [phase world fst snd] in *.
      split; [exact T | intros E; contradiction].
    + cbn [phase world]. split; [exact IH | discriminate].
    + cbn [phase world]. split; [| discriminate].
      apply steady_Main_loop. exact IH.
Qed.

Lemma MainWithBle_run_tidy (P : Platform) (n : nat) :
  tidy (world (MainWithBle.run P n)) /\
  (phase (MainWithBle.run P n) = Boot ->
   world (MainWithBle.run P n) = power_up).
Proof.
  induction n as [|n [IH B]].
  - split; [split; reflexivity | reflexivity].
  - rewrite MainWithBle_run_succ. destruct (MainWithBle.run P n) as [ph w].
    cbn [phase world] in *. unfold MainWithBle.step. cbn [phase world].
    destruct ph.
    + rewrite (B eq_refl).
      destruct (MainWithBle_setup_tidy P) as [T NB].
      destruct (MainWithBle.setup P power_up) as [ph' w'].
      cbn [phase world fst snd] in *.
      split; [exact T | intros E; contradiction].
    + cbn [phase world]. split; [| discriminate].
      apply steady_stall. exact IH.
    + cbn [phase world]. split; [| discriminate].
      apply steady_MainWithBle_loop. exact IH.
Qed.

(** C4, as the firmware has it.  After every sampling cycle of either
    variant at most one LED is on: green alone for [clean], yellow alone
    for [unsafe], red alone for [extremely_unsafe]; for
    [vibration_detected] green and red are off; for every other status
    the three LEDs are off.  And at no point of a run, [setup] included,
    are two LEDs on together. *)
Theorem led_at_most_one (P : Platform) :
  (forall w,
     led_law (exec (Main.updateWaterQualityReadings P) w) /\
     led_law (exec (MainWithBle.updateWaterQualityReadings P) w)) /\
  (forall n,
     never_two (log (world (Main.run P n))) = true /\
     never_two (log (world (MainWithBle.run P n))) = true).
Proof.
  split.
  - intros w. split;
      [apply Main_cycle_led_law | apply MainWithBle_cycle_led_law].
  - intros n. split.
    + apply (Main_run_tidy P n).
    + apply (MainWithBle_run_tidy P n).
Qed.

(** C4, as stated, fails.  On a bench at rest whose ADC reads 1500, the
    TDS value is 449.1 ppm: the first cycle after power-up leaves the
    status [unknown], and no LED is on or blinking. *)
Lemma led_exclusivity_fails :
  let w := world (Main.run (bench true at_rest 1500 0) 4) in
  samples w = 1%nat /\
  waterStatus (reading w) = "unknown"%string /\
  ~ exists c, on_or_blinking w c = true.
Proof.
  vm_compute. split; [reflexivity |]. split; [reflexivity |].
  intros [[] H]; discriminate H.
Qed.

(* ================================================================== *)
(** * The yellow LED between two cycles *)

Lemma json_keeps_gpio_ble (P : Platform) :
  keeps gpio (MainWithBle.generateWaterQualityJSON P).
Proof. unfold MainWithBle.generateWaterQualityJSON. keeps_all. Qed.

(** A pass of [loop] that finds no reading due leaves the LEDs as they
    are: the pins are written in the sampling cycle only. *)
Lemma loop_not_due_keeps_gpio (P : Platform) (w : World) :
  reading_due (eval (millis P) w) (lastReading w) = false ->
  gpio (exec (MainWithBle.loop P) w) = gpio w /\
  gpio (exec (Main.loop P) w) = gpio w.
Proof.
  intros Hdue.
  assert (Hl : lastReading (exec (millis P) w) = lastReading w)
    by (destruct w; reflexivity).
  assert (Hg : gpio (exec (millis P) w) = gpio w)
    by (destruct w; reflexivity).
  split.
  - unfold MainWithBle.loop. rewrite exec_bind, exec_bind.
    change (eval (get lastReading) (exec (millis P) w))
      with (lastReading (exec (millis P) w)).
    change (exec (get lastReading) (exec (millis P) w))
      with (exec (millis P) w).
    rewrite Hl, Hdue. rewrite <- Hg.
    generalize (exec (millis P) w). intros w1.
    match goal with |- gpio (exec ?c w1) = _ => assert (K : keeps gpio c) end.
    { pose proof (json_keeps_gpio_ble P). keeps_all; try assumption. }
    apply K.
  - unfold Main.loop. rewrite exec_bind, exec_bind.
    change (eval (get lastReading) (exec (millis P) w))
      with (lastReading (exec (millis P) w)).
    change (exec (get lastReading) (exec (millis P) w))
      with (exec (millis P) w).
    rewrite Hl, Hdue. rewrite <- Hg.
    generalize (exec (millis P) w). intros w1.
    match goal with |- gpio (exec ?c w1) = _ => assert (K : keeps gpio c) end.
    { keeps_all. }
    apply K.
Qed.

(** C8, on the code.  A bench that is shaken, with 250 ms between two
    looks at the clock: the cycle of the third step finds the status
    [vibration_detected] and drives the yellow LED high; the LED is still
    high after each of the next two passes of [loop], 1250 ms and 2500 ms
    later, no cycle having run in between; the next cycle comes at the
    sixth step only. *)
Theorem vibration_led_held :
  let P := bench true shaken 300 250 in
  map (fun n =>
         let w := world (MainWithBle.run P n) in
         (clock w, waterStatus (reading w), yellow (gpio w), samples w))
      [3; 4; 5; 6]%nat
  = [(5500, "vibration_detected"%string, true, 1%nat);
     (6750, "vibration_detected"%string, true, 1%nat);
     (8000, "vibration_detected"%string, true, 1%nat);
     (10250, "vibration_detected"%string, true, 2%nat)].
Proof. vm_compute. reflexivity. Qed.

(* ================================================================== *)
(** * Synthetic signal generator *)

Lemma sized_is_finite (B : Z) (x : spec_float) : sized B x -> is_finite x = true.
Proof. destruct x; simpl; intros H; try reflexivity; contradiction. Qed.

Lemma of_Z_sized (t : Z) :
  0 <= t < 2 ^ 32 -> sized 34 (F64.of_Z t).
Proof.
  intros Ht. unfold F64.of_Z.
  apply binary_normalize_sized; unfold emin, F64.prec, F64.emax; try lia.

  assert (Zdigits2 t <= 32) by (apply Zdigits2_lt_pow2; lia). lia.
Qed.

(** The argument the firmware passes to [sin] is finite. *)
Lemma sin_argument_finite (t : Z) (s : bool) (m : positive) (e : Z) :
  0 <= t < 2 ^ 32 -> 0 <= Zpos (digits2_pos m) + e ->
  is_finite (F64.div (F64.of_Z t) (S754_finite s m e)) = true.
Proof.
  intros Ht Hm. pose proof (of_Z_sized t Ht) as Hs.
  destruct (F64.of_Z t) as [s0|s0| |s0 m0 e0]; unfold sized in Hs;
    try contradiction.
  - reflexivity.
  - apply (sized_is_finite 40). unfold F64.div.
    apply SFdiv_finite_sized; unfold emin, F64.prec, F64.emax; lia.
Qed.

Lemma uint32_range (z : Z) : 0 <= uint32 z < 2 ^ 32.
Proof. unfold uint32. apply Z.mod_pos_bound. lia. Qed.

(** The jitter terms: finite, and within the stated bounds. *)
Lemma jitter_all :
  forallb (fun j =>
             let x := F64.div (F64.of_Z j) Lit.d100_0 in
             is_finite x
             && between (F64.lit (-30) 100) (F64.lit 30 100) x
             && (negb ((-10 <=? j) && (j <? 10))
                 || between (F64.lit (-10) 100) (F64.lit 10 100) x))
          (Zrange (-30) 60) = true.
Proof. vm_compute. reflexivity. Qed.

Lemma jitter_spec (j : Z) :
  -30 <= j < 30 ->
  let x := F64.div (F64.of_Z j) Lit.d100_0 in
  is_finite x = true /\
  between (F64.lit (-30) 100) (F64.lit 30 100) x = true /\
  (-10 <= j < 10 -> between (F64.lit (-10) 100) (F64.lit 10 100) x = true).
Proof.
  intros Hj x.
  pose proof (forallb_Zrange _ (-30) 60 jitter_all j) as H.
  cbv beta zeta in H. fold x in H.
  assert (Hr : -30 <= j < -30 + Z.of_nat 60) by lia.
  specialize (H Hr).
  apply andb_true_iff in H. destruct H as [H H3].
  apply andb_true_iff in H. destruct H as [H1 H2].
  split; [assumption|]. split; [assumption|].
  intros Hj'. apply orb_true_iff in H3. destruct H3 as [H3|H3]; [|assumption].
  exfalso. apply negb_true_iff in H3.
  assert ((-10 <=? j) && (j <? 10) = true).
  { apply andb_true_iff. split; [apply Z.leb_le | apply Z.ltb_lt]; lia. }
  congruence.
Qed.

(** A rounded value, clamped between two doubles and assigned to a
    [float], lies between the bounds as soon as the rounded bounds do. *)
Lemma clamp_assign_range (raw lo hi : spec_float) :
  is_nan raw = false ->
  between lo hi (F32.of_double lo) = true ->
  between lo hi (F32.of_double hi) = true ->
  between lo hi
    (F32.of_double (constrain (F32.of_double raw) lo hi)) = true.
Proof.
  intros Hraw Hlo Hhi.
  assert (Hx : is_nan (F32.of_double raw) = false)
    by (apply round_to_not_nan; [unfold F32.prec; lia | assumption]).
  assert (Nlo : is_nan lo = false).
  { unfold between in Hlo. apply andb_true_iff in Hlo. destruct Hlo as [H _].
    destruct lo; try reflexivity. discriminate. }
  assert (Nhi : is_nan hi = false).
  { unfold between in Hhi. apply andb_true_iff in Hhi. destruct Hhi as [_ H].
    destruct hi; try reflexivity.
    unfold Fleb, Fcompare in H. simpl in H.
    destruct (SF2X (F32.of_double S754_nan)); discriminate. }
  destruct (constrain_cases (F32.of_double raw) lo hi)
    as [[E H]|[[E [H1 H2]]|[E [H1 H2]]]]; rewrite E.
  - assumption.
  - assumption.
  - unfold F32.of_double at 1. rewrite round_to_idempotent
      by (unfold F32.prec; lia).
    fold F32.of_double. unfold between.
    rewrite (Fltb_false_Fleb _ _ Hx Nlo H1), (Fltb_false_Fleb _ _ Nhi Hx H2).
    reflexivity.
Qed.

Lemma synthetic_pH_not_nan (P : Platform) (t j : Z) :
  sin_defined P -> 0 <= t < 2 ^ 32 -> -30 <= j < 30 ->
  is_nan (F64.add
            (F64.add Lit.d7_0
               (F64.mul (sin P (F64.div (F64.of_Z t) Lit.d15000_0)) Lit.d0_8))
            (F64.div (F64.of_Z j) Lit.d100_0)) = false.
Proof.
  intros Hsin Ht Hj.
  apply SFadd_finite_r_not_nan; [unfold F64.prec; lia | | apply jitter_spec; lia].
  apply SFadd_finite_l_not_nan; [unfold F64.prec; lia |].
  apply SFmul_finite_r_not_nan; [unfold F64.prec; lia |].
  apply Hsin. apply sin_argument_finite; [assumption | vm_compute; discriminate].
Qed.

Lemma synthetic_turbidity_not_nan (P : Platform) (t j : Z) :
  sin_defined P -> 0 <= t < 2 ^ 32 -> -30 <= j < 30 ->
  is_nan (F64.add
            (F64.add Lit.d2_0
               (F64.mul (sin P (F64.div (F64.of_Z t) Lit.d18000_0)) Lit.d1_5))
            (F64.div (F64.of_Z j) Lit.d100_0)) = false.
Proof.
  intros Hsin Ht Hj.
  apply SFadd_finite_r_not_nan; [unfold F64.prec; lia | | apply jitter_spec; lia].
  apply SFadd_finite_l_not_nan; [unfold F64.prec; lia |].
  apply SFmul_finite_r_not_nan; [unfold F64.prec; lia |].
  apply Hsin. apply sin_argument_finite; [assumption | vm_compute; discriminate].
Qed.

Lemma exec_ph_and_turbidity (P : Platform) (w : World) :
  let n := calls w in
  let t1 := uint32 (clock w + Z.of_N (elapsed P n)) in
  let j1 := entropy P (S n) mod 20 + -10 in
  let t2 :=
    uint32 (clock w + Z.of_N (elapsed P n) + Z.of_N (elapsed P (S (S n)))) in
  let j2 := entropy P (S (S (S n))) mod 60 + -30 in
  reading (exec (ph_and_turbidity P) w) =
  with_turbidity
    (F32.of_double (constrain (synthetic_turbidity P t2 j2) Lit.d0_1 Lit.d10_0))
    (with_pH
       (F32.of_double (constrain (synthetic_pH P t1 j1) Lit.d6_0 Lit.d9_0))
       (reading w)).
Proof. destruct w as [c n g l r lr dc odc]; destruct r. reflexivity. Qed.

Lemma ph_establishes_range (P : Platform) (w : World) :
  sin_defined P -> signals_in_range (reading (exec (ph_and_turbidity P) w)).
Proof.
  intros Hsin. rewrite exec_ph_and_turbidity. cbv zeta.
  unfold signals_in_range, with_turbidity, with_pH. cbn [pH turbidity].
  split.
  - unfold synthetic_pH. apply clamp_assign_range.
    + apply synthetic_pH_not_nan; [assumption | apply uint32_range |].
      pose proof (Z.mod_pos_bound (entropy P (S (calls w))) 20). lia.
    + vm_compute. reflexivity.
    + vm_compute. reflexivity.
  - unfold synthetic_turbidity. apply clamp_assign_range.
    + apply synthetic_turbidity_not_nan; [assumption | apply uint32_range |].
      pose proof (Z.mod_pos_bound (entropy P (S (S (S (calls w))))) 60). lia.
    + vm_compute. reflexivity.
    + vm_compute. reflexivity.
Qed.

(** ** The ranges over a whole run *)

Lemma millis_keeps_reading (P : Platform) : keeps reading (millis P).
Proof. unfold millis. keeps_all. Qed.

Lemma delay_keeps_reading (ms : Z) : keeps reading (delay ms).
Proof. unfold delay. keeps_all. Qed.

Lemma Main_update_establishes_range (P : Platform) (w : World) :
  sin_defined P ->
  signals_in_range (reading (exec (Main.updateWaterQualityReadings P) w)).
Proof.
  intros Hsin. rewrite Main_update_stages.
  rewrite json_keeps_reading, summary_keeps_reading.
  apply ph_establishes_range. assumption.
Qed.

Lemma MainWithBle_update_establishes_range (P : Platform) (w : World) :
  sin_defined P ->
  signals_in_range
    (reading (exec (MainWithBle.updateWaterQualityReadings P) w)).
Proof.
  intros Hsin. rewrite MainWithBle_update_stages.
  rewrite summary_keeps_reading.
  apply ph_establishes_range. assumption.
Qed.

Lemma exec_get {A : Type} (f : World -> A) (w : World) : exec (get f) w = w.
Proof. reflexivity. Qed.

Lemma eval_get {A : Type} (f : World -> A) (w : World) : eval (get f) w = f w.
Proof. reflexivity. Qed.

Lemma exec_ret {A : Type} (a : A) (w : World) : exec (ret a) w = w.
Proof. reflexivity. Qed.

Lemma set_lastReading_keeps_reading (t : Z) :
  keeps reading (modify (set_lastReading t)).
Proof. intros w. reflexivity. Qed.

Lemma millis_keeps_lastReading (P : Platform) : keeps lastReading (millis P).
Proof. unfold millis. keeps_all. Qed.

(** A pass of [loop] leaves the reading as the cycle made it when a
    reading is due, and as it is otherwise. *)
Lemma Main_loop_reading (P : Platform) (w : World) :
  reading (exec (Main.loop P) w) =
  if reading_due (eval (millis P) w) (lastReading w)
  then reading (exec (Main.updateWaterQualityReadings P) (exec (millis P) w))
  else reading w.
Proof.
  unfold Main.loop. rewrite exec_bind, exec_bind, exec_bind. cbv beta.
  rewrite delay_keeps_reading, exec_get, eval_get, millis_keeps_lastReading.
  destruct (reading_due _ _).
  - rewrite exec_bind, exec_bind. cbv beta.
    rewrite set_lastReading_keeps_reading, millis_keeps_reading. reflexivity.
  - rewrite exec_ret, millis_keeps_reading. reflexivity.
Qed.

Lemma ble_json_keeps_reading (P : Platform) :
  keeps reading (MainWithBle.generateWaterQualityJSON P).
Proof. unfold MainWithBle.generateWaterQualityJSON. keeps_all. Qed.

Lemma ble_stack_keeps_reading (P : Platform) :
  keeps reading (MainWithBle.ble_stack P).
Proof.
  unfold MainWithBle.ble_stack, MainWithBle.onConnect, MainWithBle.onDisconnect.
  keeps_all.
Qed.

Lemma cycle_beside_reading (P : Platform) (w : World) :
  reading (exec (cycle_beside P) w) =
  reading (exec (MainWithBle.updateWaterQualityReadings P)
             (exec (MainWithBle.ble_stack P) w)).
Proof.
  unfold cycle_beside. rewrite exec_bind, exec_bind.
  apply ble_stack_keeps_reading.
Qed.

Lemma MainWithBle_loop_reading (P : Platform) (w : World) :
  reading (exec (MainWithBle.loop P) w) =
  if reading_due (eval (millis P) w) (lastReading w)
  then reading (exec (cycle_beside P) (exec (millis P) w))
  else reading w.
Proof.
  unfold MainWithBle.loop. rewrite exec_bind, exec_bind, exec_bind. cbv beta.
  match goal with
  | |- context [exec (?tl) (exec (if ?b then ?c else ?d) ?w0)] =>
      assert (K : keeps reading tl);
      [| rewrite (K (exec (if b then c else d) w0)); clear K]
  end.
  { pose proof (ble_json_keeps_reading P).
    pose proof (ble_stack_keeps_reading P).
    keeps_all; try assumption. }
  rewrite exec_get, eval_get, millis_keeps_lastReading.
  destruct (reading_due _ _).
  - rewrite exec_bind, exec_bind. cbv beta.
    rewrite set_lastReading_keeps_reading, millis_keeps_reading. reflexivity.
  - rewrite exec_ret, millis_keeps_reading. reflexivity.
Qed.

Lemma Main_setup_keeps_reading (P : Platform) : keeps reading (Main.setup P).
Proof. unfold Main.setup. keeps_all. Qed.

Lemma MainWithBle_setup_keeps_reading (P : Platform) :
  keeps reading (MainWithBle.setup P).
Proof. unfold MainWithBle.setup. keeps_all. Qed.

Lemma power_up_in_range : signals_in_range (reading power_up).
Proof. split; vm_compute; reflexivity. Qed.

Lemma Main_run_in_range (P : Platform) (n : nat) :
  sin_defined P -> signals_in_range (reading (world (Main.run P n))).
Proof.
  intros Hsin. induction n as [|n IH].
  - apply power_up_in_range.
  - unfold Main.run in *. simpl Nat.iter.
    set (m := Nat.iter n (Main.step P) boot) in *.
    unfold Main.step. destruct (phase m).
    + pose proof (Main_setup_keeps_reading P (world m)) as K.
      unfold exec in K. destruct (Main.setup P (world m)) as [ph w'].
      simpl in *. rewrite K. assumption.
    + assumption.
    + cbn [world].
      rewrite Main_loop_reading. destruct (reading_due _ _).
      * apply Main_update_establishes_range. assumption.
      * assumption.
Qed.

Lemma MainWithBle_run_in_range (P : Platform) (n : nat) :
  sin_defined P -> signals_in_range (reading (world (MainWithBle.run P n))).
Proof.
  intros Hsin. induction n as [|n IH].
  - apply power_up_in_range.
  - unfold MainWithBle.run in *. simpl Nat.iter.
    set (m := Nat.iter n (MainWithBle.step P) boot) in *.
    unfold MainWithBle.step. destruct (phase m).
    + pose proof (MainWithBle_setup_keeps_reading P (world m)) as K.
      unfold exec in K. destruct (MainWithBle.setup P (world m)) as [ph w'].
      simpl in *. rewrite K. assumption.
    + cbn [world]. unfold MainWithBle.stall.
      rewrite exec_bind. rewrite delay_keeps_reading. assumption.
    + cbn [world]. rewrite exec_bind.
      rewrite MainWithBle_loop_reading. destruct (reading_due _ _).
      * rewrite cycle_beside_reading.
        apply MainWithBle_update_establishes_range. assumption.
      * rewrite ble_stack_keeps_reading. assumption.
Qed.

(** What the two statements of the generator read: the clock and the
    draw of each, as the platform hands them over. *)
Lemma ph_and_turbidity_reads (P : Platform) (w : World) :
  let t1 := eval (millis P) w in
  let w1 := exec (millis P) w in
  let j1 := eval (random P (-10) 10) w1 in
  let w2 := exec (assign (with_pH (synthetic_pH P t1 j1)))
              (exec (random P (-10) 10) w1) in
  let t2 := eval (millis P) w2 in
  let w3 := exec (millis P) w2 in
  let j2 := eval (random P (-30) 30) w3 in
  let n := calls w in
  t1 = uint32 (clock w + Z.of_N (elapsed P n)) /\
  j1 = entropy P (S n) mod 20 + -10 /\
  t2 = uint32 (clock w + Z.of_N (elapsed P n)
               + Z.of_N (elapsed P (S (S n)))) /\
  j2 = entropy P (S (S (S n))) mod 60 + -30.
Proof.
  destruct w as [c n g l r lr dc odc]; destruct r.
  repeat split; reflexivity.
Qed.

(** C5.  The synthetic signal generator reads the clock and draws a
    jitter for each of its two statements: with [t1] what the first
    [millis()] returns and [j1] what [random(-10, 10)] then draws, and
    [t2] and [j2] what the second [millis()] returns and
    [random(-30, 30)] then draws, it sets
    [pH = clamp(7.0 + sin(t1/15000) * 0.8 + j1/100, 6.0, 9.0)], the jitter
    [j1/100] being within [-0.10, 0.10], and
    [turbidity = clamp(2.0 + sin(t2/18000) * 1.5 + j2/100, 0.1, 10.0)],
    the jitter [j2/100] being within [-0.30, 0.30].  The clock values are
    those of the 32-bit millisecond counter at the two calls and the
    draws are the raw draws of the platform reduced into [-10, 10) and
    [-30, 30).  pH stays within [6.0, 9.0] and turbidity within
    [0.1, 10.0] after any number of steps of either variant. *)
Theorem synthetic_signal_generator (P : Platform) (w : World) :
  sin_defined P ->
  (let t1 := eval (millis P) w in
   let w1 := exec (millis P) w in
   let j1 := eval (random P (-10) 10) w1 in
   let w2 := exec (assign (with_pH (synthetic_pH P t1 j1)))
               (exec (random P (-10) 10) w1) in
   let t2 := eval (millis P) w2 in
   let w3 := exec (millis P) w2 in
   let j2 := eval (random P (-30) 30) w3 in
   let jitterP := F64.div (F64.of_Z j1) Lit.d100_0 in
   let jitterT := F64.div (F64.of_Z j2) Lit.d100_0 in
   let r' := reading (exec (ph_and_turbidity P) w) in
   let n := calls w in
   t1 = uint32 (clock w + Z.of_N (elapsed P n)) /\
   j1 = entropy P (S n) mod 20 - 10 /\
   t2 = uint32 (clock w + Z.of_N (elapsed P n)
                + Z.of_N (elapsed P (S (S n)))) /\
   j2 = entropy P (S (S (S n))) mod 60 - 30 /\
   0 <= t1 < 2 ^ 32 /\ 0 <= t2 < 2 ^ 32 /\
   -10 <= j1 < 10 /\ -30 <= j2 < 30 /\
   between (F64.lit (-10) 100) (F64.lit 10 100) jitterP = true /\
   between (F64.lit (-30) 100) (F64.lit 30 100) jitterT = true /\
   pH r' =
     F32.of_double
       (constrain
          (F32.of_double
             (F64.add
                (F64.add Lit.d7_0
                   (F64.mul (sin P (F64.div (F64.of_Z t1) Lit.d15000_0))
                            Lit.d0_8))
                jitterP))
          Lit.d6_0 Lit.d9_0) /\
   turbidity r' =
     F32.of_double
       (constrain
          (F32.of_double
             (F64.add
                (F64.add Lit.d2_0
                   (F64.mul (sin P (F64.div (F64.of_Z t2) Lit.d18000_0))
                            Lit.d1_5))
                jitterT))
          Lit.d0_1 Lit.d10_0) /\
   signals_in_range r') /\
  (forall n,
     signals_in_range (reading (world (Main.run P n))) /\
     signals_in_range (reading (world (MainWithBle.run P n)))).
Proof.
  intros Hsin. split.
  - intros t1 w1 j1 w2 t2 w3 j2 jitterP jitterT r' n.
    destruct (ph_and_turbidity_reads P w) as (E1 & E2 & E3 & E4).
    change (t1 = uint32 (clock w + Z.of_N (elapsed P n))) in E1.
    change (j1 = entropy P (S n) mod 20 + -10) in E2.
    change (t2 = uint32 (clock w + Z.of_N (elapsed P n)
                         + Z.of_N (elapsed P (S (S n))))) in E3.
    change (j2 = entropy P (S (S (S n))) mod 60 + -30) in E4.
    pose proof (exec_ph_and_turbidity P w) as E. cbv zeta in E.
    fold n in E. rewrite <- E1, <- E2, <- E3, <- E4 in E.
    pose proof (Z.mod_pos_bound (entropy P (S n)) 20) as B1.
    pose proof (Z.mod_pos_bound (entropy P (S (S (S n)))) 60) as B2.
    split; [exact E1 |]. split; [rewrite E2; lia |].
    split; [exact E3 |]. split; [rewrite E4; lia |].
    split; [rewrite E1; apply uint32_range |].
    split; [rewrite E3; apply uint32_range |].
    split; [lia |]. split; [lia |].
    split; [apply jitter_spec; lia |].
    split; [apply jitter_spec; lia |].
    subst r'. rewrite E. split; [reflexivity |]. split; [reflexivity |].
    rewrite <- E. apply ph_establishes_range. assumption.
  - intros n. split.
    + apply Main_run_in_range. assumption.
    + apply MainWithBle_run_in_range. assumption.
Qed.

(* ================================================================== *)
(** * The wire record *)

Lemma string_app_assoc (a b c : string) :
  ((a ++ b) ++ c = a ++ (b ++ c))%string.
Proof. induction a as [|x a IH]; simpl; [reflexivity | now rewrite IH]. Qed.

Lemma eval_json (P : Platform) (w : World) :
  eval (MainWithBle.generateWaterQualityJSON P) w =
  render_object
    (wire_record P (reading w)
       (uint32 (clock w + Z.of_N (elapsed P (calls w))))).
Proof.
  destruct w as [c n g l r lr dc odc]; destruct r as [p t d tu v vd ws].
  unfold MainWithBle.generateWaterQualityJSON.
  rewrite eval_bind.
  change (eval (get reading) ?w0) with (reading w0).
  cbv zeta. rewrite eval_bind.
  unfold render_object, wire_record, render_members, render_member,
    render_value.
  cbn [eval exec ret fst snd reading pH temperature tds turbidity vibration
       vibrationDetected waterStatus].
  change (eval (millis P) ?w0) with
    (uint32 (clock w0 + Z.of_N (elapsed P (calls w0)))).
  cbn [get clock calls fst snd eval exec].
  rewrite !string_app_assoc. reflexivity.
Qed.

(** C6.  The wire record is a JSON object with the keys [pH],
    [temperature], [tds], [turbidity], [vibration], [vibrationDetected],
    [waterStatus], [timestamp], [deviceId], [status] in this order: pH
    printed with 2 decimals, temperature with 1, tds with 1, turbidity
    with 2, vibration with 2, vibrationDetected as a bare boolean,
    waterStatus as a string, timestamp as the string of the millisecond
    clock, deviceId the string [ESP32-WaterSensor] and status the string
    [active], whatever the reading. *)
Theorem wire_record_format (P : Platform) (w : World) :
  let r := reading w in
  let now := uint32 (clock w + Z.of_N (elapsed P (calls w))) in
  eval (MainWithBle.generateWaterQualityJSON P) w =
  render_object
    [ ("pH", JNumber (String_float P (pH r) 2));
      ("temperature", JNumber (String_float P (temperature r) 1));
      ("tds", JNumber (String_float P (tds r) 1));
      ("turbidity", JNumber (String_float P (turbidity r) 2));
      ("vibration", JNumber (String_float P (vibration r) 2));
      ("vibrationDetected", JBool (vibrationDetected r));
      ("waterStatus", JString (waterStatus r));
      ("timestamp", JString (String_ulong now));
      ("deviceId", JString "ESP32-WaterSensor");
      ("status", JString "active") ]%string /\
  map fst (wire_record P r now) =
    [ "pH"; "temperature"; "tds"; "turbidity"; "vibration";
      "vibrationDetected"; "waterStatus"; "timestamp"; "deviceId";
      "status" ]%string /\
  reading (exec (MainWithBle.generateWaterQualityJSON P) w) = r.
Proof.
  intros r now. split; [apply eval_json |]. split; [reflexivity |].
  apply ble_json_keeps_reading.
Qed.

(* ================================================================== *)
(** * The calls a command makes *)

Lemma emits_ret {B : Type} (Q : Event -> Prop) (b : B) : emits Q (ret b).
Proof. intros w. exists []. split; [reflexivity | constructor]. Qed.

Lemma emits_bind {B C : Type} (Q : Event -> Prop) (c : M B) (k : B -> M C) :
  emits Q c -> (forall b, emits Q (k b)) -> emits Q (bind c k).
Proof.
  intros Hc Hk w. rewrite exec_bind.
  destruct (Hc w) as [e1 [E1 F1]].
  destruct (Hk (eval c w) (exec c w)) as [e2 [E2 F2]].
  exists (e2 ++ e1). split.
  - rewrite E2, E1. apply app_assoc.
  - apply Forall_app. split; assumption.
Qed.

Lemma emits_emit (Q : Event -> Prop) (e : Event) : Q e -> emits Q (emit e).
Proof.
  intros H w. exists [e]. split; [reflexivity | constructor; [assumption | constructor]].
Qed.

Lemma emits_keeps {B : Type} (Q : Event -> Prop) (c : M B) :
  keeps log c -> emits Q c.
Proof.
  intros K w. exists []. split; [apply K | constructor].
Qed.

(** Every call of a command satisfies a property that each of them can
    be seen to satisfy. *)
Ltac emits_step :=
  first
    [ apply emits_ret
    | apply emits_bind; [| intro]
    | apply emits_emit; cbv; (reflexivity || tauto || (repeat split; congruence))
    | apply emits_keeps; intros [? ? ? ? [] ? ? ?]; reflexivity
    | match goal with
      | |- emits _ (if ?b then _ else _) => destruct b
      | |- emits _ (match ?x with _ => _ end) => destruct x
      end ].

Ltac emits_all := repeat emits_step.

Ltac unfold_cycle :=
  unfold motion_analyzer, Main.simulated_motion, tds_sensor,
    water_quality_assessment, led_status_indicators, ph_and_turbidity,
    serial_summary, Main.serial_json,
    millis, delay, digitalWrite, analogRead, random, Serial_print,
    Serial_println, mpu.getEvent, assign, pinMode.

Lemma motion_analyzer_emits (P : Platform) :
  emits plain_call (motion_analyzer P).
Proof. unfold_cycle. unfold plain_call. emits_all. Qed.

Lemma simulated_motion_emits (P : Platform) :
  emits plain_call (Main.simulated_motion P).
Proof. unfold_cycle. unfold plain_call. emits_all. Qed.

Lemma tds_sensor_emits (P : Platform) : emits plain_call (tds_sensor P).
Proof. unfold_cycle. unfold plain_call. emits_all. Qed.

Lemma assessment_emits : emits plain_call water_quality_assessment.
Proof. unfold_cycle. unfold plain_call. emits_all. Qed.

Lemma led_emits (P : Platform) : emits plain_call (led_status_indicators P).
Proof. unfold_cycle. unfold plain_call. emits_all. Qed.

Lemma ph_emits (P : Platform) : emits plain_call (ph_and_turbidity P).
Proof. unfold_cycle. unfold plain_call. emits_all. Qed.

Lemma summary_emits (P : Platform) : emits plain_call (serial_summary P).
Proof. unfold_cycle. unfold plain_call. emits_all. Qed.

Lemma json_emits (P : Platform) : emits plain_call (Main.serial_json P).
Proof. unfold_cycle. unfold plain_call. emits_all. Qed.

Lemma Main_cycle_tail_emits (P : Platform) (found : bool) :
  emits plain_call
    ((if found then motion_analyzer P else Main.simulated_motion P) ;;
     tds_sensor P ;;
     water_quality_assessment ;;
     led_status_indicators P ;;
     ph_and_turbidity P ;;
     serial_summary P ;;
     Main.serial_json P).
Proof.
  apply emits_bind.
  { destruct found; [apply motion_analyzer_emits | apply simulated_motion_emits]. }
  intros _. apply emits_bind; [apply tds_sensor_emits | intros _].
  apply emits_bind; [apply assessment_emits | intros _].
  apply emits_bind; [apply led_emits | intros _].
  apply emits_bind; [apply ph_emits | intros _].
  apply emits_bind; [apply summary_emits | intros _].
  apply json_emits.
Qed.

(* ================================================================== *)
(** * The motion sensor inside the cycle of src/main.cpp *)

Lemma exec_simulated_motion (P : Platform) (w : World) :
  let (k1, k2) := fallback_draws P (calls w) in
  reading (exec (Main.simulated_motion P) w) =
  with_temperature (Main.simulated_temperature k2)
    (with_vibrationDetected false
       (with_vibration (Main.simulated_vibration k1) (reading w))).
Proof. destruct w as [c n g l r lr dc odc]; destruct r. reflexivity. Qed.

Lemma begin_footprint (P : Platform) (w : World) :
  reading (exec (mpu.begin P) w) = reading w /\
  calls (exec (mpu.begin P) w) = S (calls w) /\
  log (exec (mpu.begin P) w) = MpuBegin (mpu_found P (calls w)) :: log w /\
  samples (exec (mpu.begin P) w) = samples w.
Proof. destruct w. repeat split; reflexivity. Qed.

(** The sections that follow the motion sensor change neither the
    vibration nor the temperature. *)
Lemma cycle_tail_keeps_motion (P : Platform) (w : World) :
  let w' := exec (ph_and_turbidity P)
              (exec (led_status_indicators P)
                 (exec water_quality_assessment (exec (tds_sensor P) w))) in
  vibration (reading w') = vibration (reading w) /\
  vibrationDetected (reading w') = vibrationDetected (reading w) /\
  temperature (reading w') = temperature (reading w) /\
  tds (reading w') = convert (adc_sample P (calls w)).
Proof.
  cbv zeta. rewrite exec_ph_and_turbidity. cbv zeta.
  rewrite led_keeps_reading, exec_assessment.
  change (reading (set_reading ?r ?w0)) with r.
  rewrite exec_tds_sensor.
  unfold with_turbidity, with_pH, with_waterStatus, with_tds.
  cbn [vibration vibrationDetected temperature tds].
  repeat split; reflexivity.
Qed.

Lemma motion_keeps_samples (P : Platform) (found : bool) :
  keeps samples (if found then motion_analyzer P else Main.simulated_motion P).
Proof. unfold_cycle. keeps_all. Qed.

Lemma tds_adds_sample (P : Platform) (w : World) :
  samples (exec (tds_sensor P) w) = S (samples w) /\
  calls (exec (tds_sensor P) w) = S (calls w).
Proof. destruct w. split; reflexivity. Qed.

Lemma assessment_keeps_samples : keeps samples water_quality_assessment.
Proof. unfold_cycle. keeps_all. Qed.

Lemma led_keeps_samples (P : Platform) :
  keeps samples (led_status_indicators P).
Proof. unfold_cycle. keeps_all. Qed.

Lemma ph_keeps_samples (P : Platform) : keeps samples (ph_and_turbidity P).
Proof. unfold_cycle. keeps_all. Qed.

Lemma summary_keeps_samples (P : Platform) : keeps samples (serial_summary P).
Proof. unfold_cycle. keeps_all. Qed.

Lemma json_keeps_samples (P : Platform) : keeps samples (Main.serial_json P).
Proof. unfold_cycle. keeps_all. Qed.

Lemma cycle_tail_keeps_samples (P : Platform) :
  keeps samples
    (water_quality_assessment ;;
     led_status_indicators P ;;
     ph_and_turbidity P ;;
     serial_summary P ;;
     Main.serial_json P).
Proof.
  apply keeps_bind; [apply assessment_keeps_samples | intros _].
  apply keeps_bind; [apply led_keeps_samples | intros _].
  apply keeps_bind; [apply ph_keeps_samples | intros _].
  apply keeps_bind; [apply summary_keeps_samples | intros _].
  apply json_keeps_samples.
Qed.

Lemma Main_cycle_samples (P : Platform) (w : World) :
  samples (exec (Main.updateWaterQualityReadings P) w) = S (samples w).
Proof.
  unfold Main.updateWaterQualityReadings.
  rewrite exec_bind, exec_bind, exec_bind. cbv beta.
  rewrite cycle_tail_keeps_samples.
  destruct (tds_adds_sample P
              (exec (if eval (mpu.begin P) w then motion_analyzer P
                     else Main.simulated_motion P) (exec (mpu.begin P) w)))
    as [E _].
  rewrite E, motion_keeps_samples. f_equal; apply begin_footprint.
Qed.

(** The fallback values: every draw gives a vibration within
    [-0.5, 0.5] and a temperature jitter within [-3.0, 3.0]. *)
Lemma fallback_all :
  forallb (fun k =>
             between (F64.lit (-5) 10) (F64.lit 5 10)
               (Main.simulated_vibration k))
          (Zrange (-50) 100)
  && forallb (fun k =>
                between (F64.lit (-30) 10) (F64.lit 30 10)
                  (F64.div (F64.of_Z k) Lit.d10_0))
             (Zrange (-30) 60) = true.
Proof. vm_compute. reflexivity. Qed.

(** A cycle whose [mpu.begin()] fails: the motion values are made up
    from the two draws that follow, and the ADC is read after them. *)
Lemma Main_cycle_fallback (P : Platform) (w : World) :
  mpu_found P (calls w) = false ->
  let r' := reading (exec (Main.updateWaterQualityReadings P) w) in
  let k1 := entropy P (S (calls w)) mod 100 + -50 in
  let k2 := entropy P (S (S (calls w))) mod 60 + -30 in
  vibration r' = Main.simulated_vibration k1 /\
  vibrationDetected r' = false /\
  temperature r' = Main.simulated_temperature k2 /\
  tds r' = convert (adc_sample P (S (S (S (calls w))))).
Proof.
  intros Hfound r' k1 k2.
  destruct (begin_footprint P w) as [Br [Bc _]].
  pose proof (exec_simulated_motion P (exec (mpu.begin P) w)) as Es.
  rewrite Bc, Br in Es. unfold fallback_draws in Es. fold k1 k2 in Es.
  subst r'. rewrite Main_update_stages, Hfound.
  rewrite json_keeps_reading, summary_keeps_reading.
  destruct (cycle_tail_keeps_motion P
              (exec (Main.simulated_motion P) (exec (mpu.begin P) w)))
    as [E1 [E2 [E3 E4]]].
  rewrite E1, E2, E3, E4, Es.
  assert (Ec : calls (exec (Main.simulated_motion P) (exec (mpu.begin P) w))
               = S (S (S (calls w)))).
  { rewrite <- Bc. generalize (exec (mpu.begin P) w). intros [].
    reflexivity. }
  rewrite Ec. repeat split; reflexivity.
Qed.

(** What the fallback draws: the two draws of [random] that follow the
    failed [mpu.begin()], as the platform hands them over. *)
Lemma simulated_motion_draws (P : Platform) (w : World) :
  let w1 := exec (mpu.begin P) w in
  let k1 := eval (random P (-50) 50) w1 in
  let w2 := exec (assign (with_vibrationDetected false))
              (exec (assign (with_vibration (Main.simulated_vibration k1)))
                 (exec (random P (-50) 50) w1)) in
  let k2 := eval (random P (-30) 30) w2 in
  k1 = entropy P (S (calls w)) mod 100 + -50 /\
  k2 = entropy P (S (S (calls w))) mod 60 + -30.
Proof.
  destruct w as [c n g l r lr dc odc]; destruct r. split; reflexivity.
Qed.

(** C7.  In src/main.cpp, whenever [mpu.begin()] fails in a sampling
    cycle, the cycle takes for [vibration] the draw [k1] that
    [random(-50, 50)] makes next, divided by 100, which lies within
    [-0.5, 0.5], sets [vibrationDetected] to false, takes for
    [temperature] 22.0 plus the draw [k2] that [random(-30, 30)] makes
    after it, divided by 10, a jitter within [-3.0, 3.0], and goes on
    with the rest of the cycle: the ADC is read and converted, and the
    status, the LEDs and the synthetic signals are updated.  The two
    draws are the raw draws of the platform at the two calls that follow
    [mpu.begin()], reduced into [-50, 50) and [-30, 30). *)
Theorem motion_fallback (P : Platform) (w : World) :
  mpu_found P (calls w) = false ->
  let w' := exec (Main.updateWaterQualityReadings P) w in
  let r' := reading w' in
  let w1 := exec (mpu.begin P) w in
  let k1 := eval (random P (-50) 50) w1 in
  let w2 := exec (assign (with_vibrationDetected false))
              (exec (assign (with_vibration (Main.simulated_vibration k1)))
                 (exec (random P (-50) 50) w1)) in
  let k2 := eval (random P (-30) 30) w2 in
  let jitter := F64.div (F64.of_Z k2) Lit.d10_0 in
  (k1, k2) = fallback_draws P (S (calls w)) /\
  k1 = entropy P (S (calls w)) mod 100 - 50 /\
  k2 = entropy P (S (S (calls w))) mod 60 - 30 /\
  -50 <= k1 < 50 /\ -30 <= k2 < 30 /\
  vibration r' = F32.of_double (F64.div (F64.of_Z k1) Lit.d100_0) /\
  between (F64.lit (-5) 10) (F64.lit 5 10) (vibration r') = true /\
  vibrationDetected r' = false /\
  between (F64.lit (-30) 10) (F64.lit 30 10) jitter = true /\
  temperature r' = F32.of_double (F64.add Lit.d22_0 jitter) /\
  tds r' = convert (adc_sample P (S (S (S (calls w))))) /\
  samples w' = S (samples w) /\
  led_law w' /\
  (sin_defined P -> signals_in_range r').
Proof.
  intros Hfound w' r' w1 k1 w2 k2 jitter.
  pose proof fallback_all as Hall. apply andb_true_iff in Hall.
  destruct Hall as [Hv Ht].
  destruct (simulated_motion_draws P w) as [K1 K2].
  change (k1 = entropy P (S (calls w)) mod 100 + -50) in K1.
  change (k2 = entropy P (S (S (calls w))) mod 60 + -30) in K2.
  pose proof (Z.mod_pos_bound (entropy P (S (calls w))) 100) as B1.
  pose proof (Z.mod_pos_bound (entropy P (S (S (calls w)))) 60) as B2.
  pose proof (Main_cycle_fallback P w Hfound) as Hr. cbv zeta in Hr.
  rewrite <- K1, <- K2 in Hr. fold w' r' in Hr.
  destruct Hr as [R1 [R2 [R3 R4]]].
  split; [unfold fallback_draws; rewrite K1, K2; reflexivity |].
  split; [rewrite K1; lia |]. split; [rewrite K2; lia |].
  split; [lia |]. split; [lia |].
  split; [exact R1 |].
  split.
  { rewrite R1.
    apply (forallb_Zrange _ (-50) 100 Hv k1). lia. }
  split; [exact R2 |].
  split.
  { apply (forallb_Zrange _ (-30) 60 Ht k2). lia. }
  split; [exact R3 |]. split; [exact R4 |].
  split; [apply Main_cycle_samples |].
  split; [apply Main_cycle_led_law |].
  intros Hsin. apply Main_update_establishes_range. assumption.
Qed.

Lemma trace_app (w w' : World) (evs : list Event) (e : Event) :
  log w' = evs ++ e :: log w -> trace w' = trace w ++ e :: rev evs.
Proof.
  unfold trace. intros ->. rewrite rev_app_distr. simpl.
  rewrite <- app_assoc. reflexivity.
Qed.

(** C10.  In src/main.cpp every sampling cycle starts by calling
    [mpu.begin()]: it takes the accelerometer and temperature readings
    of the chip exactly when this call succeeds and the fallback values
    when it fails, whatever [setup] found; none of the other calls of the
    cycle is a [mpu.begin()], a [setAccelerometerRange] or a
    [setFilterBandwidth]. *)
Theorem sensor_probed_every_cycle (P : Platform) (w : World) :
  let found := mpu_found P (calls w) in
  let w' := exec (Main.updateWaterQualityReadings P) w in
  let r' := reading w' in
  let ev := mpu_event P (S (calls w)) in
  (exists evs,
     trace w' = trace w ++ MpuBegin found :: evs /\ Forall plain_call evs) /\
  (found = true ->
   vibration r' =
     vibration_magnitude (acceleration_x ev) (acceleration_y ev)
       (acceleration_z ev) /\
   vibrationDetected r' = vibration_exceeds (vibration r') /\
   temperature r' = event_temperature ev) /\
  (found = false ->
   vibration r' = Main.simulated_vibration (fst (fallback_draws P (S (calls w)))) /\
   vibrationDetected r' = false /\
   temperature r' =
     Main.simulated_temperature (snd (fallback_draws P (S (calls w))))).
Proof.
  intros found w' r' ev.
  destruct (begin_footprint P w) as [Br [Bc [Bl _]]].
  split; [| split].
  - subst w'. unfold Main.updateWaterQualityReadings. rewrite exec_bind.
    cbv beta.
    destruct (Main_cycle_tail_emits P (eval (mpu.begin P) w)
                (exec (mpu.begin P) w)) as [evs [E F]].
    exists (rev evs). split.
    + apply trace_app. rewrite E, Bl. reflexivity.
    + apply Forall_rev. assumption.
  - intros Hf. subst r' w'. rewrite Main_update_stages. fold found.
    rewrite Hf. rewrite json_keeps_reading, summary_keeps_reading.
    destruct (cycle_tail_keeps_motion P
                (exec (motion_analyzer P) (exec (mpu.begin P) w)))
      as [E1 [E2 [E3 _]]].
    rewrite E1, E2, E3, exec_motion_analyzer. cbv zeta. rewrite Bc.
    fold ev. repeat split; reflexivity.
  - intros Hf. subst r' w'. rewrite Main_update_stages. fold found.
    rewrite Hf. rewrite json_keeps_reading, summary_keeps_reading.
    destruct (cycle_tail_keeps_motion P
                (exec (Main.simulated_motion P) (exec (mpu.begin P) w)))
      as [E1 [E2 [E3 _]]].
    rewrite E1, E2, E3.
    pose proof (exec_simulated_motion P (exec (mpu.begin P) w)) as Es.
    rewrite Bc, Br in Es.
    destruct (fallback_draws P (S (calls w))) as [k1 k2].
    rewrite Es. repeat split; reflexivity.
Qed.

(** The chip that [setup] did not find is looked for again, and used, by
    the first cycle; its range and bandwidth are never set. *)
Example availability_not_latched :
  let w := world (Main.run late_chip 2) in
  filter (fun e => is_begin e || is_config e
                   || match e with MpuGetEvent => true | _ => false end)
         (trace w)
  = [MpuBegin false; MpuBegin true; MpuGetEvent] /\
  vibrationDetected (reading w) = true.
Proof. vm_compute. split; reflexivity. Qed.

(* ================================================================== *)
(** * Start-up without the motion sensor *)

(** ** The variant with BLE parks in [setup] *)

Lemma MainWithBle_setup_missing (P : Platform) :
  mpu_found P 0%nat = false ->
  phase (MainWithBle.run P 1) = Stalled /\
  trace (world (MainWithBle.run P 1)) =
    [SerialBegin 115200; Delay 1000;
     SerialPrintln "Starting ESP32 Water Quality Sensor with Real Sensors...";
     SerialPrintln "PlatformIO Version"]
    ++ pins_off
    ++ [MpuBegin false; SerialPrintln "Failed to find MPU6050 chip!"]
    ++ red_flashes /\
  reading (world (MainWithBle.run P 1)) = reading power_up /\
  samples (world (MainWithBle.run P 1)) = 0%nat.
Proof.
  destruct P as [el mf me ad en bc sn sf pf]. cbn [mpu_found]. intros H.
  vm_compute. rewrite H. vm_compute. repeat split; reflexivity.
Qed.

Lemma stall_footprint (w : World) :
  reading (exec MainWithBle.stall w) = reading w /\
  samples (exec MainWithBle.stall w) = samples w /\
  gpio (exec MainWithBle.stall w) = gpio w /\
  clock (exec MainWithBle.stall w) = clock w + 1000.
Proof. destruct w. repeat split; reflexivity. Qed.

Lemma MainWithBle_stalled_for_ever (P : Platform) (n : nat) :
  mpu_found P 0%nat = false ->
  phase (MainWithBle.run P (S n)) = Stalled /\
  reading (world (MainWithBle.run P (S n))) = reading power_up /\
  samples (world (MainWithBle.run P (S n))) = 0%nat /\
  clock (world (MainWithBle.run P (S n))) = 3000 + 1000 * Z.of_nat n.
Proof.
  intros H. induction n as [|n IH].
  - destruct (MainWithBle_setup_missing P H) as [E1 [_ [E3 E4]]].
    split; [assumption |]. split; [assumption |]. split; [assumption |].
    clear - H. destruct P as [el mf me ad en bc sn sf pf].
    cbn [mpu_found] in H. vm_compute. rewrite H. vm_compute. reflexivity.
  - destruct IH as [I1 [I2 [I3 I4]]].
    unfold MainWithBle.run in *.
    change (Nat.iter (S (S n)) (MainWithBle.step P) boot)
      with (MainWithBle.step P (Nat.iter (S n) (MainWithBle.step P) boot)).
    set (m := Nat.iter (S n) (MainWithBle.step P) boot) in *.
    unfold MainWithBle.step. rewrite I1. cbn [phase world].
    destruct (stall_footprint (world m)) as [S1 [S2 [_ S4]]].
    rewrite S1, S2, S4, I2, I3, I4.
    repeat split; try reflexivity. lia.
Qed.

(** ** The variant without BLE goes on *)

Lemma Main_setup_missing (P : Platform) :
  mpu_found P 0%nat = false ->
  trace (world (Main.run P 1)) =
    [SerialBegin 115200; Delay 1000;
     SerialPrintln "Starting ESP32 Water Quality Sensor (Test Version)..."]
    ++ pins_off
    ++ [MpuBegin false; SerialPrintln "Failed to find MPU6050 chip!"]
    ++ red_flashes
    ++ [SerialPrintln "Continuing without MPU6050...";
        SerialPrintln "System ready. Monitoring water quality...";
        DigitalWrite LED_GREEN true; Delay 1000;
        DigitalWrite LED_GREEN false].
Proof.
  destruct P as [el mf me ad en bc sn sf pf]. cbn [mpu_found]. intros H.
  vm_compute. rewrite H. vm_compute. reflexivity.
Qed.

Lemma Main_after_setup (P : Platform) :
  let m := Main.run P 1 in
  phase m = Running /\
  lastReading (world m) = 0 /\
  samples (world m) = 0%nat /\
  (clock (world m) = 2000 \/ clock (world m) = 4000).
Proof.
  destruct P as [el mf me ad en bc sn sf pf].
  vm_compute. destruct (mf 0%nat); repeat split; auto.
Qed.

Lemma Main_running (P : Platform) (n : nat) :
  Main.run P (S n) =
  {| phase := Running;
     world := Main_passes P n (world (Main.run P 1)) |}.
Proof.
  induction n as [|n IH].
  - destruct (Main_after_setup P) as [E _].
    change (Main_passes P 0 (world (Main.run P 1)))
      with (world (Main.run P 1)).
    cbv zeta in E.
    destruct (Main.run P 1) as [ph w]. cbn [phase world] in *. rewrite E.
    reflexivity.
  - unfold Main.run in *.
    change (Nat.iter (S (S n)) (Main.step P) boot)
      with (Main.step P (Nat.iter (S n) (Main.step P) boot)).
    rewrite IH. reflexivity.
Qed.

Lemma eval_millis (P : Platform) (w : World) :
  eval (millis P) w = uint32 (clock w + Z.of_N (elapsed P (calls w))).
Proof. destruct w. reflexivity. Qed.

Lemma millis_footprint (P : Platform) (w : World) :
  clock (exec (millis P) w) = clock w + Z.of_N (elapsed P (calls w)) /\
  lastReading (exec (millis P) w) = lastReading w /\
  samples (exec (millis P) w) = samples w.
Proof. destruct w. repeat split; reflexivity. Qed.

Lemma Main_loop_not_due (P : Platform) (w : World) :
  reading_due (eval (millis P) w) (lastReading w) = false ->
  exec (Main.loop P) w = exec (delay 1000) (exec (millis P) w).
Proof.
  intros H. unfold Main.loop. rewrite exec_bind, exec_bind, exec_bind.
  cbv beta. rewrite exec_get, eval_get, millis_keeps_lastReading, H, exec_ret.
  reflexivity.
Qed.

Lemma Main_loop_due (P : Platform) (w : World) :
  reading_due (eval (millis P) w) (lastReading w) = true ->
  let w2 := exec (Main.updateWaterQualityReadings P) (exec (millis P) w) in
  exec (Main.loop P) w =
  exec (delay 1000)
    (exec (modify (set_lastReading (eval (millis P) w2)))
       (exec (millis P) w2)).
Proof.
  intros H. unfold Main.loop. rewrite exec_bind, exec_bind, exec_bind.
  cbv beta. rewrite exec_get, eval_get, millis_keeps_lastReading, H.
  rewrite exec_bind, exec_bind. cbv beta. reflexivity.
Qed.

(** The test of [loop] in [unsigned long] is the test on the time that
    really passed, as long as that is below [2^32] ms. *)
Lemma reading_due_ago (c d e : Z) :
  0 <= d + e < 2 ^ 32 ->
  reading_due (uint32 (c + e)) (uint32 (c - d)) = (3000 <? d + e).
Proof.
  intros H. unfold reading_due, uint32. rewrite <- Zminus_mod.
  replace (c + e - (c - d)) with (d + e) by lia.
  rewrite Z.mod_small by assumption. reflexivity.
Qed.

Lemma after_reading (P : Platform) (w2 : World) :
  let w' := exec (delay 1000)
              (exec (modify (set_lastReading (eval (millis P) w2)))
                 (exec (millis P) w2)) in
  samples w' = samples w2 /\ last_reading_ago 1000 w'.
Proof.
  destruct w2 as [c n g l r lr dc odc]. split; [reflexivity |].
  unfold last_reading_ago. cbn. f_equal. lia.
Qed.

(** One pass of [loop]: either it runs a cycle, or the last reading
    grows a second older. *)
Lemma Main_pass (P : Platform) (w : World) (d : Z) :
  prompt P -> last_reading_ago d w -> 1000 <= d <= 4000 ->
  let w' := exec (Main.loop P) w in
  (samples w' = S (samples w) /\ last_reading_ago 1000 w') \/
  (samples w' = samples w /\
   exists d', d + 1000 <= d' <= 4000 /\ last_reading_ago d' w').
Proof.
  intros Hp Hago Hd w'. subst w'.
  set (e := Z.of_N (elapsed P (calls w))).
  assert (He : 0 <= e < 2 ^ 31) by (split; [unfold e; lia | apply Hp]).
  assert (Hdue : reading_due (eval (millis P) w) (lastReading w)
                 = (3000 <? d + e)).
  { rewrite eval_millis, Hago. fold e. apply reading_due_ago. lia. }
  destruct (3000 <? d + e) eqn:E.
  - left. rewrite (Main_loop_due P w Hdue). cbv zeta.
    destruct (after_reading P
                (exec (Main.updateWaterQualityReadings P) (exec (millis P) w)))
      as [S1 S2].
    split; [| exact S2].
    rewrite S1, Main_cycle_samples. f_equal; apply millis_footprint.
  - right. rewrite (Main_loop_not_due P w Hdue).
    apply Z.ltb_ge in E.
    destruct (millis_footprint P w) as [M1 [M2 M3]].
    split.
    + rewrite <- M3. generalize (exec (millis P) w). intros []. reflexivity.
    + exists (d + e + 1000). split; [lia |].
      unfold last_reading_ago in *.
      assert (L : lastReading (exec (delay 1000) (exec (millis P) w))
                  = lastReading (exec (millis P) w))
        by (generalize (exec (millis P) w); intros []; reflexivity).
      assert (C : clock (exec (delay 1000) (exec (millis P) w))
                  = clock (exec (millis P) w) + 1000)
        by (generalize (exec (millis P) w); intros []; reflexivity).
      rewrite L, C, M1, M2, Hago. fold e. f_equal. lia.
Qed.

Lemma Main_passes_succ (P : Platform) (n : nat) (w : World) :
  Main_passes P (S n) w = Main_passes P n (exec (Main.loop P) w).
Proof. unfold Main_passes. apply Nat.iter_succ_r. Qed.

(** Passes of [loop] never lose a cycle, and keep the last reading
    between one and four seconds old. *)
Lemma Main_passes_keep (P : Platform) (n : nat) :
  prompt P ->
  forall w d, last_reading_ago d w -> 1000 <= d <= 4000 ->
  (samples w <= samples (Main_passes P n w))%nat /\
  exists d', 1000 <= d' <= 4000 /\ last_reading_ago d' (Main_passes P n w).
Proof.
  intros Hp. induction n as [|n IH]; intros w d Hago Hd.
  - split; [apply Nat.le_refl |]. exists d. split; assumption.
  - rewrite Main_passes_succ.
    destruct (Main_pass P w d Hp Hago Hd) as [[S1 A1]|[S1 [d' [Hd' A1]]]].
    + destruct (IH _ 1000 A1 ltac:(lia)) as [S2 I2].
      split; [lia | exact I2].
    + destruct (IH _ d' A1 ltac:(lia)) as [S2 I2].
      split; [lia | exact I2].
Qed.

(** A cycle runs within [j] passes once the last reading is [5 - j]
    seconds old. *)
Lemma Main_passes_progress (P : Platform) (j : nat) :
  prompt P ->
  forall w d, last_reading_ago d w ->
  1000 * (5 - Z.of_nat j) <= d -> 1000 <= d <= 4000 ->
  (S (samples w) <= samples (Main_passes P j w))%nat /\
  exists d', 1000 <= d' <= 4000 /\ last_reading_ago d' (Main_passes P j w).
Proof.
  intros Hp. induction j as [|j IH]; intros w d Hago Hj Hd.
  - simpl in Hj. lia.
  - rewrite Main_passes_succ.
    destruct (Main_pass P w d Hp Hago Hd) as [[S1 A1]|[S1 [d' [Hd' A1]]]].
    + destruct (Main_passes_keep P j Hp _ 1000 A1 ltac:(lia)) as [S2 I2].
      split; [lia | exact I2].
    + destruct (IH _ d' A1 ltac:(lia) ltac:(lia)) as [S2 I2].
      split; [lia | exact I2].
Qed.

Lemma Main_passes_add (P : Platform) (a b : nat) (w : World) :
  Main_passes P (a + b) w = Main_passes P b (Main_passes P a w).
Proof.
  unfold Main_passes. rewrite Nat.add_comm. apply Nat.iter_add.
Qed.

(** Every four passes of [loop] run at least one cycle. *)
Lemma Main_cycles_keep_coming (P : Platform) (k : nat) :
  prompt P ->
  forall w d, last_reading_ago d w -> 1000 <= d <= 4000 ->
  (samples w + k <= samples (Main_passes P (4 * k) w))%nat /\
  exists d', 1000 <= d' <= 4000 /\
             last_reading_ago d' (Main_passes P (4 * k) w).
Proof.
  intros Hp. induction k as [|k IH]; intros w d Hago Hd.
  - split; [simpl; lia |]. exists d. split; assumption.
  - replace (4 * S k)%nat with (4 + 4 * k)%nat by lia.
    rewrite Main_passes_add.
    destruct (Main_passes_progress P 4 Hp w d Hago ltac:(simpl; lia) Hd)
      as [S1 [d1 [Hd1 A1]]].
    destruct (IH _ d1 A1 Hd1) as [S2 I2].
    split; [lia | exact I2].
Qed.

(* ================================================================== *)
(** * The theorems at work on the bench *)

Lemma bench_sin_defined (found : bool) (ev : sensors_event_t) (adc : Z)
    (lag : N) :
  sin_defined (bench found ev adc lag).
Proof. intros x _. reflexivity. Qed.

(** At power-up the TDS value is 150 ppm and there is no vibration: the
    classifier says [clean]. *)
Lemma status_classifier_witness :
  in_tds_range (tds (reading power_up)) /\
  waterStatus (reading (exec water_quality_assessment power_up))
  = "clean"%string.
Proof.
  assert (R : in_tds_range (tds (reading power_up)))
    by (vm_compute; reflexivity).
  split; [exact R |].
  apply (status_classifier power_up R); vm_compute; reflexivity.
Defined.

(** The ADC sample 2048 converts to a value in the range. *)
Lemma unit_converter_witness :
  0 <= adc_sample (bench true at_rest 2048 0) (calls power_up) <= ADC_RES /\
  in_tds_range (convert 2048).
Proof.
  assert (R : 0 <= adc_sample (bench true at_rest 2048 0) (calls power_up)
              <= ADC_RES)
    by (vm_compute; split; discriminate).
  split; [exact R |].
  apply (unit_converter (bench true at_rest 2048 0) power_up R).
Defined.

(** The synthetic signals of the bench stay in range over 25 steps. *)
Lemma synthetic_signal_generator_witness :
  sin_defined (bench true at_rest 300 250) /\
  signals_in_range
    (reading (world (MainWithBle.run (bench true at_rest 300 250) 25))).
Proof.
  split; [apply bench_sin_defined |].
  apply (synthetic_signal_generator (bench true at_rest 300 250) power_up
           (bench_sin_defined true at_rest 300 250)).
Defined.

(** On a bench without the chip the first cycle runs on made-up values
    and still reads the ADC. *)
Lemma motion_fallback_witness :
  mpu_found (bench false at_rest 300 0) (calls power_up) = false /\
  samples (exec (Main.updateWaterQualityReadings (bench false at_rest 300 0))
             power_up) = 1%nat.
Proof.
  split; [reflexivity |].
  destruct (motion_fallback (bench false at_rest 300 0) power_up eq_refl)
    as (_ & _ & _ & _ & _ & _ & _ & _ & _ & _ & _ & S1 & _).
  exact S1.
Defined.

(* ================================================================== *)
(** * From ADC counts to the status *)

Lemma same_datum_eq (x y : spec_float) : same_datum x y = true -> x = y.
Proof.
  destruct x as [s| s| |s m e], y as [s'| s'| |s' m' e']; cbn;
    try discriminate; intros H.
  - apply Bool.eqb_prop in H. congruence.
  - apply Bool.eqb_prop in H. congruence.
  - reflexivity.
  - apply andb_prop in H. destruct H as [H He].
    apply andb_prop in H. destruct H as [Hs Hm].
    apply Bool.eqb_prop in Hs. apply Pos.eqb_eq in Hm. apply Z.eqb_eq in He.
    congruence.
Qed.

Lemma Fleb_trans (x y z : spec_float) :
  Fleb x y = true -> Fleb y z = true -> Fleb x z = true.
Proof.
  unfold Fleb, Fcompare.
  destruct (SF2X x) as [|sx|p], (SF2X y) as [|sy|q], (SF2X z) as [|sz|r];
    cbn; try discriminate; try reflexivity;
    try (destruct sx; try discriminate; try reflexivity);
    try (destruct sy; try discriminate; try reflexivity);
    try (destruct sz; try discriminate; try reflexivity).
  destruct (Qcompare_spec p q); try discriminate;
    destruct (Qcompare_spec q r); try discriminate;
    destruct (Qcompare_spec p r); try reflexivity; intros _ _; lra.
Qed.

Lemma Fleb_refl_r (x y : spec_float) : Fleb x y = true -> Fleb y y = true.
Proof.
  unfold Fleb, Fcompare.
  destruct (SF2X x) as [|sx|p], (SF2X y) as [|sy|q]; cbn; try discriminate;
    intros _; try (destruct sy; reflexivity);
    destruct (Qcompare_spec q q); try reflexivity; lra.
Qed.

Lemma Fleb_Fltb_trans (x y z : spec_float) :
  Fleb x y = true -> Fltb y z = true -> Fltb x z = true.
Proof.
  unfold Fleb, Fltb, Fcompare.
  destruct (SF2X x) as [|sx|p], (SF2X y) as [|sy|q], (SF2X z) as [|sz|r];
    cbn; try discriminate; try reflexivity;
    try (destruct sx; try discriminate; try reflexivity);
    try (destruct sy; try discriminate; try reflexivity);
    try (destruct sz; try discriminate; try reflexivity).
  destruct (Qcompare_spec p q); try discriminate;
    destruct (Qcompare_spec q r); try discriminate;
    destruct (Qcompare_spec p r); try reflexivity; intros _ _; lra.
Qed.

Lemma Fltb_Fleb_trans (x y z : spec_float) :
  Fltb x y = true -> Fleb y z = true -> Fltb x z = true.
Proof.
  unfold Fleb, Fltb, Fcompare.
  destruct (SF2X x) as [|sx|p], (SF2X y) as [|sy|q], (SF2X z) as [|sz|r];
    cbn; try discriminate; try reflexivity;
    try (destruct sx; try discriminate; try reflexivity);
    try (destruct sy; try discriminate; try reflexivity);
    try (destruct sz; try discriminate; try reflexivity).
  destruct (Qcompare_spec p q); try discriminate;
    destruct (Qcompare_spec q r); try discriminate;
    destruct (Qcompare_spec p r); try reflexivity; intros _ _; lra.
Qed.

(** ** The conversion never goes down *)

Lemma convert_ascending : ascending Lit.f0 0 4096 = true.
Proof. vm_compute. reflexivity. Qed.

Lemma ascending_from (n : nat) (p : spec_float) (a : Z) :
  ascending p a n = true ->
  forall j, (j < n)%nat -> Fleb p (convert (a + Z.of_nat j)) = true.
Proof.
  revert p a. induction n as [|n IH]; intros p a H j Hj; [lia |].
  cbn [ascending] in H. cbv zeta in H. apply andb_prop in H.
  destruct H as [H1 H2]. destruct j as [|j].
  - rewrite Z.add_0_r. exact H1.
  - apply (Fleb_trans _ (convert a)); [exact H1 |].
    replace (a + Z.of_nat (S j)) with (a + 1 + Z.of_nat j) by lia.
    apply (IH _ _ H2). lia.
Qed.

Lemma ascending_between (n : nat) (p : spec_float) (a : Z) :
  ascending p a n = true ->
  forall i j, (i <= j)%nat -> (j < n)%nat ->
  Fleb (convert (a + Z.of_nat i)) (convert (a + Z.of_nat j)) = true.
Proof.
  revert p a. induction n as [|n IH]; intros p a H i j Hij Hj; [lia |].
  cbn [ascending] in H. cbv zeta in H. apply andb_prop in H.
  destruct H as [H1 H2]. destruct i as [|i].
  - rewrite Z.add_0_r. destruct j as [|j].
    + rewrite Z.add_0_r. apply (Fleb_refl_r _ _ H1).
    + replace (a + Z.of_nat (S j)) with (a + 1 + Z.of_nat j) by lia.
      apply (ascending_from n _ _ H2). lia.
  - destruct j as [|j]; [lia |].
    replace (a + Z.of_nat (S i)) with (a + 1 + Z.of_nat i) by lia.
    replace (a + Z.of_nat (S j)) with (a + 1 + Z.of_nat j) by lia.
    apply (IH _ _ H2); lia.
Qed.

Lemma convert_le (a b : Z) :
  0 <= a -> a <= b -> b <= 4095 -> Fleb (convert a) (convert b) = true.
Proof.
  intros Ha Hab Hb.
  pose proof (ascending_between 4096 _ 0 convert_ascending
                (Z.to_nat a) (Z.to_nat b) ltac:(lia) ltac:(lia)) as H.
  rewrite !Z.add_0_l, !Z2Nat.id in H by lia. exact H.
Qed.

(** The bands of the 12-bit ADC, each with the comparisons the
    classifier makes on the TDS value it converts to. *)
Lemma band_clean (a : Z) :
  0 <= a < 1010 ->
  Fleb (convert a) TDSCLEAN_THRESHOLD = true /\
  Fleb TDSXTREME_THRESHOLD (convert a) = false.
Proof.
  intros H.
  pose proof (convert_le a 1009 ltac:(lia) ltac:(lia) ltac:(lia)) as L.
  split.
  - apply (Fleb_trans _ _ _ L). vm_compute. reflexivity.
  - apply Fltb_Fleb_false. apply (Fleb_Fltb_trans _ _ _ L).
    vm_compute. reflexivity.
Qed.

Lemma band_unsafe (a : Z) :
  1010 <= a < 1348 ->
  Fleb (convert a) TDSCLEAN_THRESHOLD = false /\
  Fleb (convert a) TDSDIRTY_THRESHOLD = true /\
  Fltb TDSCLEAN_THRESHOLD (convert a) = true /\
  Fleb TDSXTREME_THRESHOLD (convert a) = false.
Proof.
  intros H.
  pose proof (convert_le 1010 a ltac:(lia) ltac:(lia) ltac:(lia)) as L.
  pose proof (convert_le a 1347 ltac:(lia) ltac:(lia) ltac:(lia)) as U.
  assert (C : Fltb TDSCLEAN_THRESHOLD (convert a) = true).
  { apply (Fltb_Fleb_trans _ (convert 1010)); [vm_compute; reflexivity | exact L]. }
  split; [apply Fltb_Fleb_false; exact C |]. split; [| split; [exact C |]].
  - apply (Fleb_trans _ _ _ U). vm_compute. reflexivity.
  - apply Fltb_Fleb_false. apply (Fleb_Fltb_trans _ _ _ U).
    vm_compute. reflexivity.
Qed.

Lemma band_gap (a : Z) :
  1348 <= a < 1649 ->
  Fleb (convert a) TDSCLEAN_THRESHOLD = false /\
  Fleb (convert a) TDSDIRTY_THRESHOLD = false /\
  Fleb TDSXTREME_THRESHOLD (convert a) = false.
Proof.
  intros H.
  pose proof (convert_le 1348 a ltac:(lia) ltac:(lia) ltac:(lia)) as L.
  pose proof (convert_le a 1648 ltac:(lia) ltac:(lia) ltac:(lia)) as U.
  assert (D : Fltb TDSDIRTY_THRESHOLD (convert a) = true).
  { apply (Fltb_Fleb_trans _ (convert 1348)); [vm_compute; reflexivity | exact L]. }
  split; [| split].
  - apply Fltb_Fleb_false.
    apply (Fleb_Fltb_trans _ TDSDIRTY_THRESHOLD); [vm_compute; reflexivity | exact D].
  - apply Fltb_Fleb_false. exact D.
  - apply Fltb_Fleb_false. apply (Fleb_Fltb_trans _ _ _ U).
    vm_compute. reflexivity.
Qed.

Lemma band_xtreme (a : Z) :
  1649 <= a <= 4095 ->
  Fleb (convert a) TDSCLEAN_THRESHOLD = false /\
  Fleb (convert a) TDSDIRTY_THRESHOLD = false /\
  Fleb TDSXTREME_THRESHOLD (convert a) = true.
Proof.
  intros H.
  pose proof (convert_le 1649 a ltac:(lia) ltac:(lia) ltac:(lia)) as L.
  assert (X : Fleb TDSXTREME_THRESHOLD (convert a) = true).
  { apply (Fleb_trans _ (convert 1649)); [vm_compute; reflexivity | exact L]. }
  split; [| split; [| exact X]]; apply Fltb_Fleb_false.
  - apply (Fltb_Fleb_trans _ TDSXTREME_THRESHOLD); [vm_compute; reflexivity | exact X].
  - apply (Fltb_Fleb_trans _ TDSXTREME_THRESHOLD); [vm_compute; reflexivity | exact X].
Qed.

(** The status the classifier leaves, from the three comparisons. *)
Lemma assessment_status (w : World) :
  let t := tds (reading w) in
  let v := vibrationDetected (reading w) in
  waterStatus (reading (exec water_quality_assessment w)) =
  (if Fleb t TDSCLEAN_THRESHOLD && negb v then "clean"
   else if Fleb t TDSDIRTY_THRESHOLD && Fltb TDSCLEAN_THRESHOLD t && negb v
        then "unsafe"
   else if Fleb TDSXTREME_THRESHOLD t then "extremely_unsafe"
   else if v then "vibration_detected"
   else waterStatus (reading w))%string.
Proof.
  destruct w as [c n g l r lr dc odc]; destruct r as [p t d tu v vd ws].
  unfold water_quality_assessment. rewrite exec_bind.
  change (eval (get reading) _) with
    {| pH := p; temperature := t; tds := d; turbidity := tu; vibration := v;
       vibrationDetected := vd; waterStatus := ws |}.
  cbn [reading tds vibrationDetected waterStatus].
  destruct (Fleb d TDSCLEAN_THRESHOLD && negb vd); [reflexivity |].
  destruct (Fleb d TDSDIRTY_THRESHOLD && Fltb TDSCLEAN_THRESHOLD d && negb vd);
    [reflexivity |].
  destruct (Fleb TDSXTREME_THRESHOLD d); [reflexivity |].
  destruct vd; reflexivity.
Qed.

(** The status a sample of the ADC leads to, by its band. *)
Lemma band_status (adc : Z) (v : bool) (prev : string) (w : World) :
  0 <= adc <= ADC_RES ->
  tds (reading w) = convert adc ->
  vibrationDetected (reading w) = v ->
  waterStatus (reading w) = prev ->
  let s' := waterStatus (reading (exec water_quality_assessment w)) in
  (adc < ADC_UNSAFE ->
   s' = if v then "vibration_detected" else "clean")%string /\
  (ADC_UNSAFE <= adc < ADC_GAP ->
   s' = if v then "vibration_detected" else "unsafe")%string /\
  (ADC_GAP <= adc < ADC_XTREME ->
   s' = if v then "vibration_detected" else prev)%string /\
  (ADC_XTREME <= adc -> s' = "extremely_unsafe"%string).
Proof.
  unfold ADC_RES, ADC_UNSAFE, ADC_GAP, ADC_XTREME.
  intros Hr Ht Hv Hp. rewrite assessment_status. cbv zeta.
  rewrite Ht, Hv, Hp.
  split; [| split; [| split]]; intros Hb.
  - destruct (band_clean adc ltac:(lia)) as [B1 B2]. rewrite B1, B2.
    destruct v; cbn; rewrite ?andb_false_r; reflexivity.
  - destruct (band_unsafe adc ltac:(lia)) as [B1 [B2 [B3 B4]]].
    rewrite B1, B2, B3, B4. destruct v; reflexivity.
  - destruct (band_gap adc ltac:(lia)) as [B1 [B2 B3]].
    rewrite B1, B2, B3. destruct v; reflexivity.
  - destruct (band_xtreme adc ltac:(lia)) as [B1 [B2 B3]].
    rewrite B1, B2, B3. reflexivity.
Qed.

(** ** The sections of the cycle around the classifier *)

Ltac unfold_sections :=
  unfold motion_analyzer, Main.simulated_motion, tds_sensor,
    led_status_indicators, ph_and_turbidity, serial_summary,
    Main.serial_json, millis, delay, digitalWrite, analogRead, random,
    Serial_print, Serial_println, mpu.begin, mpu.getEvent, assign, pinMode.

Lemma assessment_keeps_last_read : keeps last_read water_quality_assessment.
Proof. unfold water_quality_assessment, assign. keeps_all. Qed.

Lemma assessment_keeps_flagged : keeps flagged water_quality_assessment.
Proof. unfold water_quality_assessment, assign. keeps_all. Qed.

Lemma led_keeps_last_read (P : Platform) :
  keeps last_read (led_status_indicators P).
Proof. unfold_sections. keeps_all. Qed.

Lemma ph_keeps_last_read (P : Platform) : keeps last_read (ph_and_turbidity P).
Proof. unfold_sections. keeps_all. Qed.

Lemma ph_keeps_flagged (P : Platform) : keeps flagged (ph_and_turbidity P).
Proof. unfold_sections. keeps_all. Qed.

Lemma summary_keeps_last_read (P : Platform) :
  keeps last_read (serial_summary P).
Proof. unfold_sections. keeps_all. Qed.

Lemma json_keeps_last_read (P : Platform) :
  keeps last_read (Main.serial_json P).
Proof. unfold_sections. keeps_all. Qed.

Lemma begin_keeps_status (P : Platform) : keeps status_of (mpu.begin P).
Proof. unfold_sections. keeps_all. Qed.

Lemma motion_analyzer_keeps_status (P : Platform) :
  keeps status_of (motion_analyzer P).
Proof. unfold_sections. keeps_all. Qed.

Lemma simulated_motion_keeps_status (P : Platform) :
  keeps status_of (Main.simulated_motion P).
Proof. unfold_sections. keeps_all. Qed.

(** What the TDS section leaves: the sample in the log, its conversion
    in [tds], the flag and the status as they were. *)
Lemma tds_sensor_footprint (P : Platform) (w : World) :
  let a := adc_sample P (calls w) in
  last_read (exec (tds_sensor P) w) = Some a /\
  tds (reading (exec (tds_sensor P) w)) = convert a /\
  flagged (exec (tds_sensor P) w) = flagged w /\
  status_of (exec (tds_sensor P) w) = status_of w.
Proof.
  destruct w as [c n g l r lr dc odc]; destruct r. repeat split; reflexivity.
Qed.

(** The tail of a cycle, from the TDS section on, in either variant. *)
Lemma cycle_tail_bands (P : Platform) (w2 w' : World) (adc : Z) :
  let w4 := exec water_quality_assessment (exec (tds_sensor P) w2) in
  last_read w' = last_read w4 ->
  flagged w' = flagged w4 ->
  status_of w' = status_of w4 ->
  last_read w' = Some adc -> 0 <= adc <= ADC_RES ->
  let v := flagged w' in
  let s' := status_of w' in
  (adc < ADC_UNSAFE ->
   s' = if v then "vibration_detected" else "clean")%string /\
  (ADC_UNSAFE <= adc < ADC_GAP ->
   s' = if v then "vibration_detected" else "unsafe")%string /\
  (ADC_GAP <= adc < ADC_XTREME ->
   s' = if v then "vibration_detected" else status_of w2)%string /\
  (ADC_XTREME <= adc -> s' = "extremely_unsafe"%string).
Proof.
  intros w4 L F S Hl Hr v s'. subst v s'.
  destruct (tds_sensor_footprint P w2) as [T1 [T2 [T3 T4]]]. cbv zeta in *.
  rewrite L in Hl. subst w4. rewrite assessment_keeps_last_read, T1 in Hl.
  injection Hl as Hl.
  rewrite F, S, assessment_keeps_flagged, T3.
  apply (band_status adc (flagged w2) (status_of w2) (exec (tds_sensor P) w2)).
  - exact Hr.
  - rewrite T2, Hl. reflexivity.
  - exact T3.
  - exact T4.
Qed.

Lemma led_keeps_flagged (P : Platform) :
  keeps flagged (led_status_indicators P).
Proof. unfold_sections. keeps_all. Qed.

Lemma led_keeps_status (P : Platform) :
  keeps status_of (led_status_indicators P).
Proof. unfold_sections. keeps_all. Qed.

Lemma ph_keeps_status_of (P : Platform) : keeps status_of (ph_and_turbidity P).
Proof. unfold_sections. keeps_all. Qed.

Lemma summary_keeps_flagged (P : Platform) : keeps flagged (serial_summary P).
Proof. unfold_sections. keeps_all. Qed.

Lemma summary_keeps_status (P : Platform) :
  keeps status_of (serial_summary P).
Proof. unfold_sections. keeps_all. Qed.

Lemma json_keeps_flagged (P : Platform) : keeps flagged (Main.serial_json P).
Proof. unfold_sections. keeps_all. Qed.

Lemma json_keeps_status (P : Platform) : keeps status_of (Main.serial_json P).
Proof. unfold_sections. keeps_all. Qed.

(** The sections after the classifier leave the sample, the flag and
    the status alone. *)
Lemma MainWithBle_tail_keeps (P : Platform) (w4 : World) :
  let w' := exec (serial_summary P)
              (exec (ph_and_turbidity P)
                 (exec (led_status_indicators P) w4)) in
  last_read w' = last_read w4 /\ flagged w' = flagged w4 /\
  status_of w' = status_of w4.
Proof.
  cbv zeta. split; [| split].
  - rewrite summary_keeps_last_read, ph_keeps_last_read.
    apply led_keeps_last_read.
  - rewrite summary_keeps_flagged, ph_keeps_flagged.
    apply led_keeps_flagged.
  - rewrite summary_keeps_status, ph_keeps_status_of.
    apply led_keeps_status.
Qed.

Lemma Main_tail_keeps (P : Platform) (w4 : World) :
  let w' := exec (Main.serial_json P)
              (exec (serial_summary P)
                 (exec (ph_and_turbidity P)
                    (exec (led_status_indicators P) w4))) in
  last_read w' = last_read w4 /\ flagged w' = flagged w4 /\
  status_of w' = status_of w4.
Proof.
  cbv zeta. rewrite json_keeps_last_read, json_keeps_flagged,
    json_keeps_status.
  apply MainWithBle_tail_keeps.
Qed.

Lemma Main_head_keeps (P : Platform) (w : World) :
  status_of (exec (if mpu_found P (calls w) then motion_analyzer P
                   else Main.simulated_motion P) (exec (mpu.begin P) w))
  = status_of w.
Proof.
  destruct (mpu_found P (calls w)).
  - rewrite motion_analyzer_keeps_status. apply begin_keeps_status.
  - rewrite simulated_motion_keeps_status. apply begin_keeps_status.
Qed.

(** X1.  The sample the ADC returns in a sampling cycle decides the
    status the cycle ends with, in both variants.  For a 12-bit sample
    [adc] and the vibration flag [v] of the cycle: below 1010 counts the
    status is [clean], from 1010 to 1347 [unsafe], from 1348 to 1648 the
    status the cycle began with, each of the three giving way to
    [vibration_detected] when [v] is set; from 1649 counts on the status
    is [extremely_unsafe] whatever [v]. *)
Theorem adc_status_bands (P : Platform) (w w' : World) (adc : Z) :
  w' = exec (Main.updateWaterQualityReadings P) w \/
  w' = exec (MainWithBle.updateWaterQualityReadings P) w ->
  last_read w' = Some adc ->
  0 <= adc <= ADC_RES ->
  let v := flagged w' in
  let s' := status_of w' in
  (adc < ADC_UNSAFE ->
   s' = if v then "vibration_detected" else "clean")%string /\
  (ADC_UNSAFE <= adc < ADC_GAP ->
   s' = if v then "vibration_detected" else "unsafe")%string /\
  (ADC_GAP <= adc < ADC_XTREME ->
   s' = if v then "vibration_detected" else status_of w)%string /\
  (ADC_XTREME <= adc -> s' = "extremely_unsafe"%string).
Proof.
  intros [E | E] Hl Hr.
  - rewrite Main_update_stages in E.
    destruct (Main_tail_keeps P
                (exec water_quality_assessment
                   (exec (tds_sensor P)
                      (exec (if mpu_found P (calls w) then motion_analyzer P
                             else Main.simulated_motion P)
                         (exec (mpu.begin P) w))))) as [L [F S]].
    rewrite <- E in L, F, S.
    pose proof (cycle_tail_bands P _ w' adc L F S Hl Hr) as B.
    rewrite Main_head_keeps in B. exact B.
  - rewrite MainWithBle_update_stages in E.
    destruct (MainWithBle_tail_keeps P
                (exec water_quality_assessment
                   (exec (tds_sensor P) (exec (motion_analyzer P) w))))
      as [L [F S]].
    rewrite <- E in L, F, S.
    pose proof (cycle_tail_bands P _ w' adc L F S Hl Hr) as B.
    rewrite motion_analyzer_keeps_status in B. exact B.
Qed.

(* ================================================================== *)
(** * The unit converter over the range of the ADC *)

Lemma convert_saturated_all :
  forallb (fun a => same_datum (convert a) Lit.f2000) (Zrange 3777 319) = true.
Proof. vm_compute. reflexivity. Qed.

(** X2.  Over the 12 bits of the ADC the TDS value never goes down as
    the sample goes up; it stays below 2000 ppm up to 3776 counts and
    is the upper clamp, 2000 ppm, from 3777 counts on. *)
Theorem convert_monotone (a b : Z) :
  0 <= a -> a <= b -> b <= ADC_RES ->
  Fleb (convert a) (convert b) = true /\
  (b < ADC_SATURATED -> Fltb (convert b) Lit.f2000 = true) /\
  (ADC_SATURATED <= b -> convert b = Lit.f2000).
Proof.
  unfold ADC_RES, ADC_SATURATED. intros Ha Hab Hb.
  split; [| split].
  - apply convert_le; assumption.
  - intros H. apply (Fleb_Fltb_trans _ (convert 3776)).
    + apply convert_le; lia.
    + vm_compute. reflexivity.
  - intros H. apply same_datum_eq.
    apply (forallb_Zrange _ 3777 319 convert_saturated_all). lia.
Qed.

(** ** Temperature compensation *)

Lemma compensation_all :
  forallb (fun a => same_datum (F32.div (voltage_of a) compensation)
                               (voltage_of a))
    (Zrange 0 4096) = true.
Proof. vm_compute. reflexivity. Qed.

(** X3.  The temperature compensation of the TDS section has no effect:
    [sensorTemperature] is the constant 25.0, so the factor is exactly 1
    and [vComp] is the voltage for every sample of the 12-bit ADC; the
    temperature the motion sensor measured (or the fallback made up)
    does not enter the TDS value. *)
Theorem compensation_is_identity (P : Platform) (w : World) (t : spec_float) :
  let adcValue := adc_sample P (calls w) in
  0 <= adcValue <= ADC_RES ->
  compensation = F32.of_Z 1 /\
  F32.div (voltage_of adcValue) compensation = voltage_of adcValue /\
  tds (reading (exec (tds_sensor P)
                  (set_reading (with_temperature t (reading w)) w)))
  = tds (reading (exec (tds_sensor P) w)).
Proof.
  intros adcValue Hr. unfold ADC_RES in Hr.
  split; [vm_compute; reflexivity |]. split.
  - apply same_datum_eq.
    apply (forallb_Zrange _ 0 4096 compensation_all). lia.
  - rewrite !exec_tds_sensor. destruct w; reflexivity.
Qed.

(* ================================================================== *)
(** * Values that are not numbers *)

Lemma vibration_magnitude_nan (x y z : spec_float) :
  is_nan x || is_nan y || is_nan z = true ->
  vibration_magnitude x y z = S754_nan.
Proof.
  intros H. unfold vibration_magnitude.
  assert (Hm : forall a, F32.mul S754_nan a = S754_nan)
    by (intros []; reflexivity).
  assert (Hl : forall a, F32.add S754_nan a = S754_nan)
    by (intros []; reflexivity).
  assert (Hr : forall a, F32.add a S754_nan = S754_nan)
    by (intros []; reflexivity).
  assert (E : F32.add (F32.add (F32.mul x x) (F32.mul y y)) (F32.mul z z)
              = S754_nan).
  { apply orb_true_iff in H. destruct H as [H | H].
    - apply orb_true_iff in H. destruct H as [H | H].
      + destruct x; try discriminate. rewrite ?Hm, ?Hl, ?Hr. reflexivity.
      + destruct y; try discriminate. rewrite ?Hm, ?Hr, ?Hl. reflexivity.
    - destruct z; try discriminate. rewrite ?Hm, ?Hr. reflexivity. }
  rewrite E. reflexivity.
Qed.

(** X4.  An acceleration sample with a component that is not a number
    makes [vibration] not a number and leaves [vibrationDetected] false:
    the motion analyzer reports a broken sample as no vibration. *)
Theorem nan_sample_no_vibration (P : Platform) (w : World) :
  let ev := mpu_event P (calls w) in
  is_nan (acceleration_x ev) || is_nan (acceleration_y ev)
  || is_nan (acceleration_z ev) = true ->
  let r' := reading (exec (motion_analyzer P) w) in
  vibration r' = S754_nan /\ vibrationDetected r' = false.
Proof.
  intros ev H r'. subst r'. rewrite exec_motion_analyzer. fold ev.
  cbv zeta. rewrite (vibration_magnitude_nan _ _ _ H).
  split; reflexivity.
Qed.

(** X5.  A TDS value that is not a number passes the clamp and matches
    none of the three TDS rules of the classifier: the status becomes
    [vibration_detected] when the flag is set and stays as it was
    otherwise. *)
Theorem classifier_nan_tds (w : World) :
  tds (reading w) = S754_nan ->
  constrain (tds (reading w)) Lit.f0 Lit.f2000 = S754_nan /\
  waterStatus (reading (exec water_quality_assessment w)) =
  (if vibrationDetected (reading w) then "vibration_detected"
   else waterStatus (reading w))%string.
Proof.
  intros H. rewrite assessment_status. cbv zeta. rewrite H.
  split; reflexivity.
Qed.

(* ================================================================== *)
(** * What holds of the reading all along a run *)

(** A property of the reading that [setup] and the reporting leave
    alone holds all along a run as soon as it holds at power-up and
    every sampling cycle establishes it again. *)
Section Along_a_run.

Variable P : Platform.
Variable good : Reading -> Prop.
Hypothesis good_power_up : good (reading power_up).
Hypothesis good_Main_cycle :
  forall w, good (reading w) ->
            good (reading (exec (Main.updateWaterQualityReadings P) w)).
Hypothesis good_MainWithBle_cycle :
  forall w, good (reading w) ->
            good (reading (exec (MainWithBle.updateWaterQualityReadings P) w)).

Lemma Main_run_good (n : nat) : good (reading (world (Main.run P n))).
Proof.
  induction n as [|n IH].
  - exact good_power_up.
  - rewrite Main_run_succ. destruct (Main.run P n) as [ph w].
    cbn [world] in IH. unfold Main.step. cbn [phase world]. destruct ph.
    + pose proof (Main_setup_keeps_reading P w) as K. unfold exec in K.
      destruct (Main.setup P w) as [ph' w1]. cbn [world snd] in *.
      rewrite K. exact IH.
    + exact IH.
    + cbn [world]. rewrite Main_loop_reading.
      destruct (reading_due _ _); [| exact IH].
      apply good_Main_cycle. rewrite millis_keeps_reading. exact IH.
Qed.

Lemma MainWithBle_run_good (n : nat) :
  good (reading (world (MainWithBle.run P n))).
Proof.
  induction n as [|n IH].
  - exact good_power_up.
  - rewrite MainWithBle_run_succ. destruct (MainWithBle.run P n) as [ph w].
    cbn [world] in IH. unfold MainWithBle.step. cbn [phase world].
    destruct ph.
    + pose proof (MainWithBle_setup_keeps_reading P w) as K.
      unfold exec in K.
      destruct (MainWithBle.setup P w) as [ph' w1]. cbn [world snd] in *.
      rewrite K. exact IH.
    + cbn [world]. unfold MainWithBle.stall. rewrite exec_bind.
      rewrite delay_keeps_reading.
      change (reading (exec (Serial_println _) w)) with (reading w).
      exact IH.
    + cbn [world]. rewrite exec_bind. rewrite MainWithBle_loop_reading.
      destruct (reading_due _ _).
      * rewrite cycle_beside_reading. apply good_MainWithBle_cycle.
        rewrite ble_stack_keeps_reading, millis_keeps_reading,
          ble_stack_keeps_reading.
        exact IH.
      * rewrite ble_stack_keeps_reading. exact IH.
Qed.

End Along_a_run.

(** ** The status is one of five names *)

Lemma assessment_named (w : World) :
  In (status_of w) status_names ->
  In (status_of (exec water_quality_assessment w)) status_names.
Proof.
  intros H. unfold status_of at 1. rewrite assessment_status. cbv zeta.
  destruct (_ && _); [cbn; tauto |].
  destruct (_ && _); [cbn; tauto |].
  destruct (Fleb _ _); [cbn; tauto |].
  destruct (vibrationDetected _); [cbn; tauto |]. exact H.
Qed.

Lemma Main_cycle_named (P : Platform) (w : World) :
  In (status_of w) status_names ->
  In (status_of (exec (Main.updateWaterQualityReadings P) w)) status_names.
Proof.
  intros H. rewrite Main_update_stages.
  destruct (Main_tail_keeps P
              (exec water_quality_assessment
                 (exec (tds_sensor P)
                    (exec (if mpu_found P (calls w) then motion_analyzer P
                           else Main.simulated_motion P)
                       (exec (mpu.begin P) w))))) as [_ [_ S]].
  cbv zeta in S. rewrite S. apply assessment_named.
  destruct (tds_sensor_footprint P
              (exec (if mpu_found P (calls w) then motion_analyzer P
                     else Main.simulated_motion P)
                 (exec (mpu.begin P) w))) as [_ [_ [_ T]]].
  rewrite T, Main_head_keeps. exact H.
Qed.

Lemma MainWithBle_cycle_named (P : Platform) (w : World) :
  In (status_of w) status_names ->
  In (status_of (exec (MainWithBle.updateWaterQualityReadings P) w))
     status_names.
Proof.
  intros H. rewrite MainWithBle_update_stages.
  destruct (MainWithBle_tail_keeps P
              (exec water_quality_assessment
                 (exec (tds_sensor P) (exec (motion_analyzer P) w))))
    as [_ [_ S]].
  cbv zeta in S. rewrite S. apply assessment_named.
  destruct (tds_sensor_footprint P (exec (motion_analyzer P) w))
    as [_ [_ [_ T]]].
  rewrite T, motion_analyzer_keeps_status. exact H.
Qed.

(** X6.  All along a run of either variant [waterStatus] is one of
    [unknown], [clean], [unsafe], [extremely_unsafe] and
    [vibration_detected]. *)
Theorem status_is_named (P : Platform) (n : nat) :
  In (waterStatus (reading (world (Main.run P n)))) status_names /\
  In (waterStatus (reading (world (MainWithBle.run P n)))) status_names.
Proof.
  split.
  - apply (Main_run_good P (fun r => In (waterStatus r) status_names)).
    + cbn. tauto.
    + intros w. apply (Main_cycle_named P w).
  - apply (MainWithBle_run_good P (fun r => In (waterStatus r) status_names)).
    + cbn. tauto.
    + intros w. apply (MainWithBle_cycle_named P w).
Qed.

(** ** The TDS value stays in its range *)

Lemma assessment_keeps_tds : keeps tds_of water_quality_assessment.
Proof. unfold water_quality_assessment, assign. keeps_all. Qed.

Lemma led_keeps_tds (P : Platform) : keeps tds_of (led_status_indicators P).
Proof. unfold_sections. keeps_all. Qed.

Lemma ph_keeps_tds (P : Platform) : keeps tds_of (ph_and_turbidity P).
Proof. unfold_sections. keeps_all. Qed.

Lemma summary_keeps_tds (P : Platform) : keeps tds_of (serial_summary P).
Proof. unfold_sections. keeps_all. Qed.

Lemma json_keeps_tds (P : Platform) : keeps tds_of (Main.serial_json P).
Proof. unfold_sections. keeps_all. Qed.

(** The TDS value a cycle leaves is the conversion of a sample. *)
Lemma Main_cycle_tds (P : Platform) (w : World) :
  exists n, tds_of (exec (Main.updateWaterQualityReadings P) w)
            = convert (adc_sample P n).
Proof.
  rewrite Main_update_stages.
  rewrite json_keeps_tds, summary_keeps_tds, ph_keeps_tds, led_keeps_tds,
    assessment_keeps_tds.
  eexists. unfold tds_of. rewrite exec_tds_sensor. reflexivity.
Qed.

Lemma MainWithBle_cycle_tds (P : Platform) (w : World) :
  exists n, tds_of (exec (MainWithBle.updateWaterQualityReadings P) w)
            = convert (adc_sample P n).
Proof.
  rewrite MainWithBle_update_stages.
  rewrite summary_keeps_tds, ph_keeps_tds, led_keeps_tds,
    assessment_keeps_tds.
  eexists. unfold tds_of. rewrite exec_tds_sensor. reflexivity.
Qed.

Lemma convert_in_range (a : Z) :
  0 <= a <= ADC_RES -> in_tds_range (convert a).
Proof.
  unfold ADC_RES. intros H. unfold in_tds_range.
  apply (forallb_Zrange _ 0 4096 convert_in_range_all). lia.
Qed.

(** X7.  With a 12-bit ADC, [tds] is within [0, 2000] all along a run of
    either variant, from its initial value of 150 on. *)
Theorem tds_stays_in_range (P : Platform) (n : nat) :
  adc_12_bit P ->
  in_tds_range (tds (reading (world (Main.run P n)))) /\
  in_tds_range (tds (reading (world (MainWithBle.run P n)))).
Proof.
  intros H. split.
  - apply (Main_run_good P (fun r => in_tds_range (tds r))).
    + vm_compute. reflexivity.
    + intros w _. destruct (Main_cycle_tds P w) as [k E].
      unfold tds_of in E. rewrite E. apply convert_in_range, H.
  - apply (MainWithBle_run_good P (fun r => in_tds_range (tds r))).
    + vm_compute. reflexivity.
    + intros w _. destruct (MainWithBle_cycle_tds P w) as [k E].
      unfold tds_of in E. rewrite E. apply convert_in_range, H.
Qed.

(* ================================================================== *)
(** * The parts of [loop] *)

Lemma Main_loop_parts (P : Platform) (w : World) :
  exec (Main.loop P) w =
  exec (delay 1000)
    (exec (every_3_seconds P (Main.updateWaterQualityReadings P)) w).
Proof.
  unfold Main.loop, every_3_seconds. rewrite !exec_bind. cbv beta.
  rewrite !exec_get, !eval_get. reflexivity.
Qed.

(** The parts of the pass of the BLE variant, with the points between
    them where the BLE task may run. *)
Lemma MainWithBle_loop_parts (P : Platform) (w : World) :
  exec (MainWithBle.loop P) w =
  exec (MainWithBle.ble_stack P)
    (exec (delay 1000)
       (exec (MainWithBle.ble_stack P)
          (exec (note_connection P)
             (exec (MainWithBle.ble_stack P)
                (exec (restart_advertising P)
                   (exec (MainWithBle.ble_stack P)
                      (exec (send_data P)
                         (exec (MainWithBle.ble_stack P)
                            (exec (every_3_seconds P (cycle_beside P))
                               w))))))))).
Proof.
  unfold MainWithBle.loop, every_3_seconds, send_data, restart_advertising,
    note_connection, cycle_beside.
  repeat (rewrite exec_bind; cbv beta).
  rewrite ?exec_get, ?eval_get. reflexivity.
Qed.

(* ================================================================== *)
(** * Time *)

Lemma takes_ret {B : Type} (b : B) : takes 0 (ret b).
Proof. intros w. change (exec (ret b) w) with w. lia. Qed.

Lemma takes_bind {B C : Type} (a b : Z) (c : M B) (k : B -> M C) :
  takes a c -> (forall x, takes b (k x)) -> takes (a + b) (bind c k).
Proof.
  intros Hc Hk w. rewrite exec_bind.
  specialize (Hc w). specialize (Hk (eval c w) (exec c w)). lia.
Qed.

Lemma takes_less {B : Type} (a b : Z) (c : M B) :
  b <= a -> takes a c -> takes b c.
Proof. intros H Hc w. specialize (Hc w). lia. Qed.

Lemma takes_still {B : Type} (c : M B) : keeps clock c -> takes 0 c.
Proof. intros K w. rewrite K. lia. Qed.

Lemma takes_millis (P : Platform) : takes 0 (millis P).
Proof. intros w. destruct (millis_footprint P w) as [E _]. rewrite E. lia. Qed.

Lemma takes_delay (ms : Z) : takes ms (delay ms).
Proof. intros [c n g l r lr dc odc]. cbn. lia. Qed.

(** No part of the firmware sets the clock back. *)
Ltac idle_step :=
  first
    [ apply takes_ret
    | match goal with
      | |- takes 0 (millis _) => apply takes_millis
      | |- takes 0 (delay ?ms) =>
          apply (takes_less ms 0); [lia | apply takes_delay]
      | |- takes _ (if ?b then _ else _) => destruct b
      | |- takes _ (match ?x with _ => _ end) => destruct x
      end
    | apply (takes_bind 0 0); [| intro]
    | apply takes_still; intros [? ? ? ? [] ? ? ?]; reflexivity ].

Ltac idle_all := repeat idle_step.

Ltac unfold_calls_but_time :=
  unfold analogRead, random, Serial_print, Serial_println,
    mpu.begin, mpu.getEvent, assign, pinMode.

Lemma idle_begin (P : Platform) : takes 0 (mpu.begin P).
Proof. unfold_calls_but_time. idle_all. Qed.

Lemma idle_motion_analyzer (P : Platform) : takes 0 (motion_analyzer P).
Proof. unfold motion_analyzer. unfold_calls_but_time. idle_all. Qed.

Lemma idle_simulated_motion (P : Platform) :
  takes 0 (Main.simulated_motion P).
Proof. unfold Main.simulated_motion. unfold_calls_but_time. idle_all. Qed.

Lemma idle_tds_sensor (P : Platform) : takes 0 (tds_sensor P).
Proof. unfold tds_sensor. unfold_calls_but_time. idle_all. Qed.

Lemma idle_assessment : takes 0 water_quality_assessment.
Proof. unfold water_quality_assessment. unfold_calls_but_time. idle_all. Qed.

Lemma idle_led (P : Platform) : takes 0 (led_status_indicators P).
Proof. unfold led_status_indicators. unfold_calls_but_time. idle_all. Qed.

Lemma idle_ph (P : Platform) : takes 0 (ph_and_turbidity P).
Proof. unfold ph_and_turbidity. unfold_calls_but_time. idle_all. Qed.

Lemma idle_summary (P : Platform) : takes 0 (serial_summary P).
Proof. unfold serial_summary. unfold_calls_but_time. idle_all. Qed.

Lemma idle_json (P : Platform) : takes 0 (Main.serial_json P).
Proof. unfold Main.serial_json. unfold_calls_but_time. idle_all. Qed.

Lemma idle_generate (P : Platform) :
  takes 0 (MainWithBle.generateWaterQualityJSON P).
Proof.
  unfold MainWithBle.generateWaterQualityJSON. unfold_calls_but_time.
  idle_all.
Qed.

Lemma idle_Main_cycle (P : Platform) :
  takes 0 (Main.updateWaterQualityReadings P).
Proof.
  unfold Main.updateWaterQualityReadings.
  apply (takes_bind 0 0); [apply idle_begin | intros found].
  apply (takes_bind 0 0).
  { destruct found; [apply idle_motion_analyzer | apply idle_simulated_motion]. }
  intros _. apply (takes_bind 0 0); [apply idle_tds_sensor | intros _].
  apply (takes_bind 0 0); [apply idle_assessment | intros _].
  apply (takes_bind 0 0); [apply idle_led | intros _].
  apply (takes_bind 0 0); [apply idle_ph | intros _].
  apply (takes_bind 0 0); [apply idle_summary | intros _].
  apply idle_json.
Qed.

Lemma idle_MainWithBle_cycle (P : Platform) :
  takes 0 (MainWithBle.updateWaterQualityReadings P).
Proof.
  unfold MainWithBle.updateWaterQualityReadings.
  apply (takes_bind 0 0); [apply idle_motion_analyzer | intros _].
  apply (takes_bind 0 0); [apply idle_tds_sensor | intros _].
  apply (takes_bind 0 0); [apply idle_assessment | intros _].
  apply (takes_bind 0 0); [apply idle_led | intros _].
  apply (takes_bind 0 0); [apply idle_ph | intros _].
  apply idle_summary.
Qed.

Lemma idle_every_3_seconds (P : Platform) (update : M unit) :
  takes 0 update -> takes 0 (every_3_seconds P update).
Proof.
  intros H. unfold every_3_seconds.
  apply (takes_bind 0 0); [apply takes_millis | intros now].
  apply (takes_bind 0 0); [idle_all | intros last].
  destruct (reading_due now last); [| apply takes_ret].
  apply (takes_bind 0 0); [exact H | intros _].
  apply (takes_bind 0 0); [apply takes_millis | intros t]. idle_all.
Qed.

Lemma idle_ble_stack (P : Platform) : takes 0 (MainWithBle.ble_stack P).
Proof.
  unfold MainWithBle.ble_stack, MainWithBle.onConnect,
    MainWithBle.onDisconnect. unfold_calls_but_time. idle_all.
Qed.

Lemma idle_cycle_beside (P : Platform) : takes 0 (cycle_beside P).
Proof.
  unfold cycle_beside.
  apply (takes_bind 0 0); [apply idle_ble_stack | intros _].
  apply (takes_bind 0 0); [apply idle_MainWithBle_cycle | intros _].
  apply idle_ble_stack.
Qed.

(** The sections of a pass that take no time of their own. *)
Ltac idle_part :=
  match goal with
  | |- takes 0 (MainWithBle.ble_stack _) => apply idle_ble_stack
  | |- takes 0 (MainWithBle.generateWaterQualityJSON _) => apply idle_generate
  | |- takes 0 (Serial_println _) => unfold Serial_println
  end.

Ltac idle_pass := repeat first [idle_part | idle_step].

Lemma idle_send_data (P : Platform) : takes 0 (send_data P).
Proof. unfold send_data. idle_pass. Qed.

Lemma idle_restart_advertising (P : Platform) :
  takes 0 (restart_advertising P).
Proof. unfold restart_advertising. idle_pass. Qed.

Lemma idle_note_connection (P : Platform) : takes 0 (note_connection P).
Proof. unfold note_connection. idle_pass. Qed.

Lemma Main_loop_takes (P : Platform) : takes 1000 (Main.loop P).
Proof.
  intros w. rewrite Main_loop_parts.
  pose proof (idle_every_3_seconds P _ (idle_Main_cycle P) w) as H1.
  pose proof (takes_delay 1000
                (exec (every_3_seconds P (Main.updateWaterQualityReadings P))
                   w)) as H2.
  lia.
Qed.

(** The time of a pass of the BLE variant, part by part. *)
Lemma MainWithBle_loop_clock (P : Platform) (w : World) :
  let w1 := exec (every_3_seconds P (cycle_beside P)) w in
  let w2 := exec (MainWithBle.ble_stack P) w1 in
  let w3 := exec (send_data P) w2 in
  let w4 := exec (MainWithBle.ble_stack P) w3 in
  let w5 := exec (restart_advertising P) w4 in
  clock w <= clock w4 /\
  clock w5 + 1000 <= clock (exec (MainWithBle.loop P) w).
Proof.
  intros w1 w2 w3 w4 w5. rewrite MainWithBle_loop_parts.
  fold w1. fold w2. fold w3. fold w4. fold w5.
  pose proof (idle_every_3_seconds P _ (idle_cycle_beside P) w) as H1.
  fold w1 in H1.
  pose proof (idle_ble_stack P w1) as H2. fold w2 in H2.
  pose proof (idle_send_data P w2) as H3. fold w3 in H3.
  pose proof (idle_ble_stack P w3) as H4. fold w4 in H4.
  set (w6 := exec (MainWithBle.ble_stack P) w5).
  pose proof (idle_ble_stack P w5) as H6. fold w6 in H6.
  set (w7 := exec (note_connection P) w6).
  pose proof (idle_note_connection P w6) as H7. fold w7 in H7.
  set (w8 := exec (MainWithBle.ble_stack P) w7).
  pose proof (idle_ble_stack P w7) as H8. fold w8 in H8.
  pose proof (takes_delay 1000 w8) as H9.
  pose proof (idle_ble_stack P (exec (delay 1000) w8)) as H10.
  split; lia.
Qed.

Lemma MainWithBle_loop_takes (P : Platform) : takes 1000 (MainWithBle.loop P).
Proof.
  intros w. destruct (MainWithBle_loop_clock P w) as [H1 H2].
  cbv zeta in H1, H2.
  pose proof (idle_restart_advertising P
                (exec (MainWithBle.ble_stack P)
                   (exec (send_data P)
                      (exec (MainWithBle.ble_stack P)
                         (exec (every_3_seconds P (cycle_beside P)) w)))))
    as H3.
  lia.
Qed.

(* ================================================================== *)
(** * The calls to the platform *)

Lemma counts_ret {B : Type} (b : B) : counts (ret b).
Proof. intros w. change (exec (ret b) w) with w. lia. Qed.

Lemma counts_bind {B C : Type} (c : M B) (k : B -> M C) :
  counts c -> (forall x, counts (k x)) -> counts (bind c k).
Proof.
  intros Hc Hk w. rewrite exec_bind.
  specialize (Hc w). specialize (Hk (eval c w) (exec c w)). lia.
Qed.

(** No part of the firmware takes a call back. *)
Ltac counts_step :=
  first
    [ apply counts_ret
    | match goal with
      | |- counts (if ?b then _ else _) => destruct b
      | |- counts (match ?x with _ => _ end) => destruct x
      end
    | apply counts_bind; [| intro]
    | (intros [? ? ? ? [] ? ? ?]; cbn; lia) ].

Ltac counts_all := repeat counts_step.

Ltac unfold_all_calls :=
  unfold millis, delay, analogRead, random, Serial_print, Serial_println,
    mpu.begin, mpu.getEvent, assign, pinMode, emit.

Lemma counts_millis (P : Platform) : counts (millis P).
Proof. unfold_all_calls. counts_all. Qed.

Lemma counts_delay (ms : Z) : counts (delay ms).
Proof. unfold_all_calls. counts_all. Qed.

Lemma counts_motion_analyzer (P : Platform) : counts (motion_analyzer P).
Proof. unfold motion_analyzer. unfold_all_calls. counts_all. Qed.

Lemma counts_tds_sensor (P : Platform) : counts (tds_sensor P).
Proof. unfold tds_sensor. unfold_all_calls. counts_all. Qed.

Lemma counts_assessment : counts water_quality_assessment.
Proof. unfold water_quality_assessment. unfold_all_calls. counts_all. Qed.

Lemma counts_led (P : Platform) : counts (led_status_indicators P).
Proof. unfold led_status_indicators. unfold_all_calls. counts_all. Qed.

Lemma counts_ph (P : Platform) : counts (ph_and_turbidity P).
Proof. unfold ph_and_turbidity. unfold_all_calls. counts_all. Qed.

Lemma counts_summary (P : Platform) : counts (serial_summary P).
Proof. unfold serial_summary. unfold_all_calls. counts_all. Qed.

Lemma counts_generate (P : Platform) :
  counts (MainWithBle.generateWaterQualityJSON P).
Proof.
  unfold MainWithBle.generateWaterQualityJSON. unfold_all_calls. counts_all.
Qed.

Lemma counts_MainWithBle_cycle (P : Platform) :
  counts (MainWithBle.updateWaterQualityReadings P).
Proof.
  unfold MainWithBle.updateWaterQualityReadings.
  apply counts_bind; [apply counts_motion_analyzer | intros _].
  apply counts_bind; [apply counts_tds_sensor | intros _].
  apply counts_bind; [apply counts_assessment | intros _].
  apply counts_bind; [apply counts_led | intros _].
  apply counts_bind; [apply counts_ph | intros _].
  apply counts_summary.
Qed.

(** A point where the BLE task runs is one call to the platform. *)
Lemma calls_point (P : Platform) (w : World) :
  calls (exec (MainWithBle.ble_stack P) w) = S (calls w).
Proof.
  destruct w as [c n g l r lr dc odc]. unfold MainWithBle.ble_stack.
  rewrite exec_bind. unfold next_call at 1. cbn [eval fst calls].
  destruct (ble_client P n) as [[]|]; reflexivity.
Qed.

Lemma counts_ble_stack (P : Platform) : counts (MainWithBle.ble_stack P).
Proof. intros w. rewrite calls_point. lia. Qed.

(** The parts of a pass, by name. *)
Ltac counts_part :=
  match goal with
  | |- counts (MainWithBle.ble_stack _) => apply counts_ble_stack
  | |- counts (MainWithBle.generateWaterQualityJSON _) =>
      apply counts_generate
  | |- counts (MainWithBle.updateWaterQualityReadings _) =>
      apply counts_MainWithBle_cycle
  | |- counts (millis _) => apply counts_millis
  | |- counts (delay _) => apply counts_delay
  | |- counts (Serial_println _) => unfold Serial_println, emit
  | |- counts (emit _) => unfold emit
  end.

Ltac counts_pass := repeat first [counts_part | counts_step].

Lemma counts_cycle_beside (P : Platform) : counts (cycle_beside P).
Proof. unfold cycle_beside. counts_pass. Qed.

Lemma counts_every_3_seconds (P : Platform) :
  counts (every_3_seconds P (cycle_beside P)).
Proof.
  unfold every_3_seconds.
  apply counts_bind; [apply counts_millis | intros now].
  apply counts_bind; [counts_all | intros last].
  destruct (reading_due now last); [| apply counts_ret].
  apply counts_bind; [apply counts_cycle_beside | intros _].
  apply counts_bind; [apply counts_millis | intros t]. counts_all.
Qed.

Lemma counts_send_data (P : Platform) : counts (send_data P).
Proof. unfold send_data. counts_pass. Qed.

Lemma counts_restart_advertising (P : Platform) :
  counts (restart_advertising P).
Proof. unfold restart_advertising. counts_pass. Qed.

Lemma counts_note_connection (P : Platform) : counts (note_connection P).
Proof. unfold note_connection. counts_pass. Qed.

(* ================================================================== *)
(** * The side of the central *)

Lemma millis_keeps_ble_side (P : Platform) : keeps ble_side (millis P).
Proof. unfold millis. keeps_all. Qed.

Lemma motion_analyzer_keeps_ble_side (P : Platform) :
  keeps ble_side (motion_analyzer P).
Proof. unfold_sections. keeps_all. Qed.

Lemma tds_sensor_keeps_ble_side (P : Platform) :
  keeps ble_side (tds_sensor P).
Proof. unfold_sections. keeps_all. Qed.

Lemma assessment_keeps_ble_side : keeps ble_side water_quality_assessment.
Proof. unfold water_quality_assessment, assign. keeps_all. Qed.

Lemma led_keeps_ble_side (P : Platform) :
  keeps ble_side (led_status_indicators P).
Proof. unfold_sections. keeps_all. Qed.

Lemma ph_keeps_ble_side (P : Platform) : keeps ble_side (ph_and_turbidity P).
Proof. unfold_sections. keeps_all. Qed.

Lemma summary_keeps_ble_side (P : Platform) :
  keeps ble_side (serial_summary P).
Proof. unfold_sections. keeps_all. Qed.

Lemma MainWithBle_cycle_keeps_ble_side (P : Platform) :
  keeps ble_side (MainWithBle.updateWaterQualityReadings P).
Proof.
  unfold MainWithBle.updateWaterQualityReadings.
  apply keeps_bind; [apply motion_analyzer_keeps_ble_side | intros _].
  apply keeps_bind; [apply tds_sensor_keeps_ble_side | intros _].
  apply keeps_bind; [apply assessment_keeps_ble_side | intros _].
  apply keeps_bind; [apply led_keeps_ble_side | intros _].
  apply keeps_bind; [apply ph_keeps_ble_side | intros _].
  apply summary_keeps_ble_side.
Qed.

Lemma generate_keeps_log (P : Platform) :
  keeps log (MainWithBle.generateWaterQualityJSON P).
Proof. unfold MainWithBle.generateWaterQualityJSON, millis. keeps_all. Qed.

Lemma generate_keeps_ble_side (P : Platform) :
  keeps ble_side (MainWithBle.generateWaterQualityJSON P).
Proof. unfold MainWithBle.generateWaterQualityJSON, millis. keeps_all. Qed.

Lemma delay_keeps_ble_side (ms : Z) : keeps ble_side (delay ms).
Proof. unfold delay. keeps_all. Qed.

(** The three components of the side. *)
Lemma keeps_side_connected {B : Type} (c : M B) :
  keeps ble_side c -> keeps deviceConnected c.
Proof. intros K w. specialize (K w). unfold ble_side in K. congruence. Qed.

Lemma keeps_side_old {B : Type} (c : M B) :
  keeps ble_side c -> keeps oldDeviceConnected c.
Proof. intros K w. specialize (K w). unfold ble_side in K. congruence. Qed.

Lemma keeps_side_calls {B : Type} (c : M B) :
  keeps ble_side c -> keeps ble_calls c.
Proof. intros K w. specialize (K w). unfold ble_side in K. congruence. Qed.

Lemma notifications_ble_calls (w : World) :
  notifications w = notified (ble_calls w).
Proof.
  unfold notifications, ble_calls. induction (log w) as [|e l IH].
  - reflexivity.
  - destruct e; cbn; rewrite ?IH; reflexivity.
Qed.

Lemma restarts_ble_calls (w : World) :
  restarts w = List.length (List.filter is_restart (ble_calls w)).
Proof.
  unfold restarts, ble_calls. induction (log w) as [|e l IH].
  - reflexivity.
  - destruct e; cbn; try exact IH.
    destruct (call =? _)%string; cbn; rewrite IH; reflexivity.
Qed.

Lemma keeps_calls_notifications {B : Type} (c : M B) :
  keeps ble_calls c -> keeps notifications c.
Proof. intros K w. rewrite !notifications_ble_calls, K. reflexivity. Qed.

Lemma keeps_calls_restarts {B : Type} (c : M B) :
  keeps ble_calls c -> keeps restarts c.
Proof. intros K w. rewrite !restarts_ble_calls, K. reflexivity. Qed.

(** ** What the callbacks leave alone *)

Ltac unfold_point :=
  unfold MainWithBle.ble_stack, MainWithBle.onConnect,
    MainWithBle.onDisconnect, Serial_println.

Lemma ble_stack_keeps_old (P : Platform) :
  keeps oldDeviceConnected (MainWithBle.ble_stack P).
Proof. unfold_point. keeps_all. Qed.

Lemma ble_stack_keeps_ble_calls (P : Platform) :
  keeps ble_calls (MainWithBle.ble_stack P).
Proof. unfold_point. keeps_all. Qed.

(** A command made of parts that are known to keep [f], and of single
    calls. *)
Ltac keeps_pass := repeat first [assumption | keeps_step].

Section Kept_by_the_parts.

Context {A : Type} (f : World -> A) (P : Platform).
Hypothesis point : keeps f (MainWithBle.ble_stack P).
Hypothesis cycle : keeps f (MainWithBle.updateWaterQualityReadings P).
Hypothesis stamp : keeps f (millis P).
Hypothesis last : forall t, keeps f (modify (set_lastReading t)).

Lemma cycle_beside_keeps : keeps f (cycle_beside P).
Proof. unfold cycle_beside. keeps_pass. Qed.

Lemma every_3_seconds_keeps : keeps f (every_3_seconds P (cycle_beside P)).
Proof.
  pose proof cycle_beside_keeps as K.
  unfold every_3_seconds.
  apply keeps_bind; [exact stamp | intros now].
  apply keeps_bind; [keeps_all | intros l].
  destruct (reading_due now l); [| apply keeps_ret].
  apply keeps_bind; [exact K | intros _].
  apply keeps_bind; [exact stamp | intros t]. apply last.
Qed.

End Kept_by_the_parts.

Lemma set_lastReading_keeps_old (t : Z) :
  keeps oldDeviceConnected (modify (set_lastReading t)).
Proof. keeps_all. Qed.

Lemma set_lastReading_keeps_ble_calls (t : Z) :
  keeps ble_calls (modify (set_lastReading t)).
Proof. keeps_all. Qed.

Lemma every_3_seconds_keeps_old (P : Platform) :
  keeps oldDeviceConnected (every_3_seconds P (cycle_beside P)).
Proof.
  apply every_3_seconds_keeps.
  - apply ble_stack_keeps_old.
  - apply keeps_side_old, MainWithBle_cycle_keeps_ble_side.
  - apply keeps_side_old, millis_keeps_ble_side.
  - apply set_lastReading_keeps_old.
Qed.

Lemma every_3_seconds_keeps_ble_calls (P : Platform) :
  keeps ble_calls (every_3_seconds P (cycle_beside P)).
Proof.
  apply every_3_seconds_keeps.
  - apply ble_stack_keeps_ble_calls.
  - apply keeps_side_calls, MainWithBle_cycle_keeps_ble_side.
  - apply keeps_side_calls, millis_keeps_ble_side.
  - apply set_lastReading_keeps_ble_calls.
Qed.

Lemma send_data_keeps_old (P : Platform) :
  keeps oldDeviceConnected (send_data P).
Proof.
  pose proof (ble_stack_keeps_old P).
  pose proof (keeps_side_old _ (generate_keeps_ble_side P)).
  unfold send_data, Serial_println. keeps_pass.
Qed.

Lemma send_data_keeps_restarts (P : Platform) : keeps restarts (send_data P).
Proof.
  pose proof (keeps_calls_restarts _ (ble_stack_keeps_ble_calls P)).
  pose proof (keeps_calls_restarts _
                (keeps_side_calls _ (generate_keeps_ble_side P))).
  unfold send_data, Serial_println. keeps_pass.
Qed.

Lemma send_data_keeps_reading (P : Platform) : keeps reading (send_data P).
Proof.
  pose proof (ble_stack_keeps_reading P).
  pose proof (ble_json_keeps_reading P).
  unfold send_data, Serial_println. keeps_pass.
Qed.

Lemma restart_advertising_keeps_notifications (P : Platform) :
  keeps notifications (restart_advertising P).
Proof.
  pose proof (keeps_calls_notifications _ (ble_stack_keeps_ble_calls P)).
  unfold restart_advertising, delay, Serial_println. keeps_pass.
Qed.

Lemma restart_advertising_keeps_reading (P : Platform) :
  keeps reading (restart_advertising P).
Proof.
  pose proof (ble_stack_keeps_reading P).
  unfold restart_advertising, delay, Serial_println. keeps_pass.
Qed.

Lemma note_connection_keeps_ble_calls (P : Platform) :
  keeps ble_calls (note_connection P).
Proof.
  pose proof (ble_stack_keeps_ble_calls P).
  unfold note_connection. keeps_pass.
Qed.

Lemma note_connection_keeps_reading (P : Platform) :
  keeps reading (note_connection P).
Proof.
  pose proof (ble_stack_keeps_reading P).
  unfold note_connection. keeps_pass.
Qed.

(** ** What the three parts do *)

(** A record is notified when the flag is up at the test, and then
    only. *)
Lemma send_data_notifications (P : Platform) (w : World) :
  notifications (exec (send_data P) w) =
  if deviceConnected w
  then eval (MainWithBle.generateWaterQualityJSON P) w :: notifications w
  else notifications w.
Proof.
  pose proof (keeps_calls_notifications _ (ble_stack_keeps_ble_calls P)) as K.
  pose proof (generate_keeps_log P w) as G.
  unfold send_data. rewrite exec_bind, exec_get, eval_get.
  destruct (deviceConnected w); [| reflexivity].
  rewrite exec_bind. cbv beta.
  revert G. generalize (eval (MainWithBle.generateWaterQualityJSON P) w).
  generalize (exec (MainWithBle.generateWaterQualityJSON P) w).
  intros w1 payload G.
  rewrite !exec_bind. unfold Serial_println.
  set (w2 := exec (MainWithBle.ble_stack P) w1).
  assert (N2 : notifications w2 = notifications w1) by apply K.
  set (w3 := exec (emit (BleNotify payload)) w2).
  assert (N3 : notifications w3 = payload :: notifications w2).
  { subst w3. destruct w2. reflexivity. }
  set (w4 := exec (MainWithBle.ble_stack P) w3).
  assert (N4 : notifications w4 = notifications w3) by apply K.
  transitivity (notifications w4).
  - destruct w4. reflexivity.
  - rewrite N4, N3, N2. unfold notifications. rewrite G. reflexivity.
Qed.

(** Advertising starts again when the flag is down and the old one up
    at the test, and then only; the old flag is then set to what the
    flag is at the end of the part, where the part takes half a second
    to arrive. *)
Lemma restart_advertising_does (P : Platform) (w : World) :
  let w' := exec (restart_advertising P) w in
  if negb (deviceConnected w) && oldDeviceConnected w
  then restarts w' = S (restarts w) /\
       oldDeviceConnected w' = deviceConnected w' /\
       clock w + 500 <= clock w'
  else w' = w.
Proof.
  pose proof (keeps_calls_restarts _ (ble_stack_keeps_ble_calls P)) as K.
  intros w'. subst w'.
  unfold restart_advertising.
  rewrite exec_bind, exec_get, eval_get, exec_bind, exec_get, eval_get.
  destruct (negb (deviceConnected w) && oldDeviceConnected w);
    [| reflexivity].
  rewrite !exec_bind, !exec_get, !eval_get. unfold Serial_println.
  set (w1 := exec (delay 500) w).
  assert (R1 : restarts w1 = restarts w) by (subst w1; destruct w; reflexivity).
  pose proof (takes_delay 500 w) as T1. fold w1 in T1.
  set (w2 := exec (MainWithBle.ble_stack P) w1).
  assert (R2 : restarts w2 = restarts w1) by apply K.
  pose proof (idle_ble_stack P w1) as T2. fold w2 in T2.
  set (w3 := exec (emit (Ble "pServer->startAdvertising")) w2).
  assert (R3 : restarts w3 = S (restarts w2))
    by (subst w3; destruct w2; reflexivity).
  assert (T3 : clock w3 = clock w2) by (subst w3; destruct w2; reflexivity).
  set (w4 := exec (MainWithBle.ble_stack P) w3).
  assert (R4 : restarts w4 = restarts w3) by apply K.
  pose proof (idle_ble_stack P w3) as T4. fold w4 in T4.
  set (w5 := exec (emit (SerialPrintln "Restarting advertising...")) w4).
  assert (R5 : restarts w5 = restarts w4)
    by (subst w5; destruct w4; reflexivity).
  assert (T5 : clock w5 = clock w4) by (subst w5; destruct w4; reflexivity).
  set (w6 := exec (MainWithBle.ble_stack P) w5).
  assert (R6 : restarts w6 = restarts w5) by apply K.
  pose proof (idle_ble_stack P w5) as T6. fold w6 in T6.
  clearbody w6. destruct w6 as [c n g l r lr dc odc].
  cbn in *. repeat split; [congruence | lia].
Qed.

(** The old flag is set when the flag is up and the old one down at the
    test, and then only: to what the flag is at the end of the part. *)
Lemma note_connection_does (P : Platform) (w : World) :
  let w' := exec (note_connection P) w in
  if deviceConnected w && negb (oldDeviceConnected w)
  then oldDeviceConnected w' = deviceConnected w'
  else w' = w.
Proof.
  intros w'. subst w'. unfold note_connection.
  rewrite exec_bind, exec_get, eval_get, exec_bind, exec_get, eval_get.
  destruct (deviceConnected w && negb (oldDeviceConnected w));
    [| reflexivity].
  rewrite !exec_bind, !exec_get, !eval_get.
  destruct (exec (MainWithBle.ble_stack P) w). reflexivity.
Qed.

(* ================================================================== *)
(** * A pass with no callback *)

Lemma silent_later (P : Platform) (a a' b : nat) :
  (a <= a')%nat -> silent_between P a b -> silent_between P a' b.
Proof. intros L H n Hn. apply H. lia. Qed.

Lemma calm_ret {B : Type} (P : Platform) (x : B) : calm P (ret x).
Proof. intros w b _ _. reflexivity. Qed.

Lemma calm_keeps {B : Type} (P : Platform) (c : M B) :
  keeps deviceConnected c -> calm P c.
Proof. intros K w b _ _. apply K. Qed.

Lemma calm_bind {B C : Type} (P : Platform) (c : M B) (k : B -> M C) :
  counts c -> (forall x, counts (k x)) ->
  calm P c -> (forall x, calm P (k x)) -> calm P (bind c k).
Proof.
  intros Nc Nk Hc Hk w b Q L. rewrite exec_bind in L |- *.
  pose proof (Nc w) as L1.
  pose proof (Nk (eval c w) (exec c w)) as L2.
  rewrite (Hk (eval c w) (exec c w) b).
  - apply (Hc w b); [exact Q | lia].
  - apply (silent_later P (calls w)); assumption.
  - exact L.
Qed.

(** The BLE task does nothing when no callback is due. *)
Lemma point_silent (P : Platform) (w : World) :
  ble_client P (calls w) = None ->
  exec (MainWithBle.ble_stack P) w = set_calls (S (calls w)) w.
Proof.
  destruct w as [c n g l r lr dc odc]. unfold MainWithBle.ble_stack.
  rewrite exec_bind. unfold next_call at 1. cbn [eval fst calls].
  intros ->. reflexivity.
Qed.

Lemma calm_point (P : Platform) : calm P (MainWithBle.ble_stack P).
Proof.
  intros w b Q L. rewrite calls_point in L.
  rewrite point_silent by (apply Q; lia).
  destruct w. reflexivity.
Qed.

(** The flag is the business of the callbacks alone. *)
Ltac calm_step :=
  first
    [ apply calm_point
    | apply calm_ret
    | match goal with
      | |- calm _ (if ?b then _ else _) => destruct b
      | |- calm _ (bind _ _) =>
          apply calm_bind; [counts_pass | intro; counts_pass | | intro]
      end
    | apply calm_keeps; first [assumption | solve [keeps_all]] ].

Ltac calm_pass := repeat calm_step.

Lemma calm_every_3_seconds (P : Platform) :
  calm P (every_3_seconds P (cycle_beside P)).
Proof.
  pose proof (keeps_side_connected _ (MainWithBle_cycle_keeps_ble_side P)).
  pose proof (keeps_side_connected _ (millis_keeps_ble_side P)).
  unfold every_3_seconds, cycle_beside. calm_pass.
Qed.

Lemma calm_send_data (P : Platform) : calm P (send_data P).
Proof.
  pose proof (keeps_side_connected _ (generate_keeps_ble_side P)).
  unfold send_data, Serial_println. calm_pass.
Qed.

Lemma calm_restart_advertising (P : Platform) :
  calm P (restart_advertising P).
Proof.
  pose proof (keeps_side_connected _ (delay_keeps_ble_side 500)).
  unfold restart_advertising, Serial_println. calm_pass.
Qed.

Lemma calm_note_connection (P : Platform) : calm P (note_connection P).
Proof. unfold note_connection. calm_pass. Qed.

(** The worlds of a pass at the three tests of the flag and at its end:
    with no callback in the pass, the flag is in all of them what it was
    when the pass began. *)
Lemma MainWithBle_loop_calm (P : Platform) (w : World) :
  let w1 := exec (every_3_seconds P (cycle_beside P)) w in
  let w2 := exec (MainWithBle.ble_stack P) w1 in
  let w3 := exec (send_data P) w2 in
  let w4 := exec (MainWithBle.ble_stack P) w3 in
  let w5 := exec (restart_advertising P) w4 in
  let w6 := exec (MainWithBle.ble_stack P) w5 in
  let w7 := exec (note_connection P) w6 in
  undisturbed P (MainWithBle.loop P) w ->
  deviceConnected w2 = deviceConnected w /\
  deviceConnected w4 = deviceConnected w /\
  deviceConnected w5 = deviceConnected w /\
  deviceConnected w6 = deviceConnected w /\
  deviceConnected w7 = deviceConnected w /\
  deviceConnected (exec (MainWithBle.loop P) w) = deviceConnected w.
Proof.
  intros w1 w2 w3 w4 w5 w6 w7. unfold undisturbed.
  rewrite MainWithBle_loop_parts.
  fold w1. fold w2. fold w3. fold w4. fold w5. fold w6. fold w7.
  set (w8 := exec (MainWithBle.ble_stack P) w7).
  set (w9 := exec (delay 1000) w8).
  set (w10 := exec (MainWithBle.ble_stack P) w9).
  intros Q.
  pose proof (counts_every_3_seconds P w) as N1. fold w1 in N1.
  pose proof (counts_ble_stack P w1) as N2. fold w2 in N2.
  pose proof (counts_send_data P w2) as N3. fold w3 in N3.
  pose proof (counts_ble_stack P w3) as N4. fold w4 in N4.
  pose proof (counts_restart_advertising P w4) as N5. fold w5 in N5.
  pose proof (counts_ble_stack P w5) as N6. fold w6 in N6.
  pose proof (counts_note_connection P w6) as N7. fold w7 in N7.
  pose proof (counts_ble_stack P w7) as N8. fold w8 in N8.
  pose proof (counts_delay 1000 w8) as N9. fold w9 in N9.
  pose proof (counts_ble_stack P w9) as N10. fold w10 in N10.
  assert (C1 : deviceConnected w1 = deviceConnected w).
  { apply (calm_every_3_seconds P w (calls w10)); [exact Q | fold w1; lia]. }
  assert (C2 : deviceConnected w2 = deviceConnected w1).
  { apply (calm_point P w1 (calls w10));
      [apply (silent_later P (calls w)); [lia | exact Q] | fold w2; lia]. }
  assert (C3 : deviceConnected w3 = deviceConnected w2).
  { apply (calm_send_data P w2 (calls w10));
      [apply (silent_later P (calls w)); [lia | exact Q] | fold w3; lia]. }
  assert (C4 : deviceConnected w4 = deviceConnected w3).
  { apply (calm_point P w3 (calls w10));
      [apply (silent_later P (calls w)); [lia | exact Q] | fold w4; lia]. }
  assert (C5 : deviceConnected w5 = deviceConnected w4).
  { apply (calm_restart_advertising P w4 (calls w10));
      [apply (silent_later P (calls w)); [lia | exact Q] | fold w5; lia]. }
  assert (C6 : deviceConnected w6 = deviceConnected w5).
  { apply (calm_point P w5 (calls w10));
      [apply (silent_later P (calls w)); [lia | exact Q] | fold w6; lia]. }
  assert (C7 : deviceConnected w7 = deviceConnected w6).
  { apply (calm_note_connection P w6 (calls w10));
      [apply (silent_later P (calls w)); [lia | exact Q] | fold w7; lia]. }
  assert (C8 : deviceConnected w8 = deviceConnected w7).
  { apply (calm_point P w7 (calls w10));
      [apply (silent_later P (calls w)); [lia | exact Q] | fold w8; lia]. }
  assert (C9 : deviceConnected w9 = deviceConnected w8).
  { apply (keeps_side_connected _ (delay_keeps_ble_side 1000)). }
  assert (C10 : deviceConnected w10 = deviceConnected w9).
  { apply (calm_point P w9 (calls w10));
      [apply (silent_later P (calls w)); [lia | exact Q] | fold w10; lia]. }
  repeat split; congruence.
Qed.

(** What a pass notifies, whatever the callbacks do. *)
Lemma MainWithBle_loop_notifications (P : Platform) (w : World) :
  let tested :=
    exec (MainWithBle.ble_stack P)
      (exec (every_3_seconds P (cycle_beside P)) w) in
  notifications (exec (MainWithBle.loop P) w) =
  if deviceConnected tested
  then eval (MainWithBle.generateWaterQualityJSON P) tested
       :: notifications w
  else notifications w.
Proof.
  pose proof (keeps_calls_notifications _ (ble_stack_keeps_ble_calls P)) as K.
  intros tested. rewrite MainWithBle_loop_parts. fold tested.
  rewrite K.
  rewrite (keeps_calls_notifications _
             (keeps_side_calls _ (delay_keeps_ble_side 1000))).
  rewrite K.
  rewrite (keeps_calls_notifications _ (note_connection_keeps_ble_calls P)).
  rewrite K, restart_advertising_keeps_notifications, K.
  rewrite send_data_notifications.
  assert (N : notifications tested = notifications w).
  { subst tested. rewrite K.
    apply (keeps_calls_notifications _ (every_3_seconds_keeps_ble_calls P)). }
  rewrite N. reflexivity.
Qed.

(** The reading is not touched between the test of the flag and the end
    of the pass. *)
Lemma MainWithBle_loop_reading_tested (P : Platform) (w : World) :
  reading (exec (MainWithBle.loop P) w) =
  reading (exec (MainWithBle.ble_stack P)
             (exec (every_3_seconds P (cycle_beside P)) w)).
Proof.
  rewrite MainWithBle_loop_parts.
  rewrite ble_stack_keeps_reading, delay_keeps_reading,
    ble_stack_keeps_reading, note_connection_keeps_reading,
    ble_stack_keeps_reading, restart_advertising_keeps_reading,
    ble_stack_keeps_reading, send_data_keeps_reading.
  reflexivity.
Qed.

(** How often a pass starts advertising again, whatever the callbacks
    do. *)
Lemma MainWithBle_loop_restarts (P : Platform) (w : World) :
  let tested :=
    exec (MainWithBle.ble_stack P)
      (exec (send_data P)
         (exec (MainWithBle.ble_stack P)
            (exec (every_3_seconds P (cycle_beside P)) w))) in
  oldDeviceConnected tested = oldDeviceConnected w /\
  restarts (exec (MainWithBle.loop P) w) =
  (restarts w +
   if negb (deviceConnected tested) && oldDeviceConnected w
   then 1 else 0)%nat.
Proof.
  pose proof (keeps_calls_restarts _ (ble_stack_keeps_ble_calls P)) as K.
  intros tested.
  assert (O : oldDeviceConnected tested = oldDeviceConnected w).
  { subst tested.
    rewrite ble_stack_keeps_old, send_data_keeps_old, ble_stack_keeps_old.
    apply every_3_seconds_keeps_old. }
  assert (R : restarts tested = restarts w).
  { subst tested. rewrite K, send_data_keeps_restarts, K.
    apply (keeps_calls_restarts _ (every_3_seconds_keeps_ble_calls P)). }
  split; [exact O |].
  rewrite MainWithBle_loop_parts. fold tested.
  rewrite K.
  rewrite (keeps_calls_restarts _
             (keeps_side_calls _ (delay_keeps_ble_side 1000))).
  rewrite K.
  rewrite (keeps_calls_restarts _ (note_connection_keeps_ble_calls P)).
  rewrite K.
  pose proof (restart_advertising_does P tested) as D. cbv zeta in D.
  rewrite O in D.
  destruct (negb (deviceConnected tested) && oldDeviceConnected w).
  - destruct D as [D _]. rewrite D, R. lia.
  - rewrite D, R. lia.
Qed.

(** X8.  A pass of [loop] of the BLE variant notifies one record at
    most.  It notifies none when [deviceConnected] is false at the test
    of the flag (line 179), and one when it is true there: the wire
    record of the reading as the pass leaves it, stamped with what
    [millis()] returns in [generateWaterQualityJSON].  The callbacks run
    on the task of the BLE stack and may change the flag at any point of
    the pass; when none comes during the pass, the flag tested is the
    one the pass began with. *)
Theorem notify_iff_connected (P : Platform) (w : World) :
  let w' := exec (MainWithBle.loop P) w in
  let tested :=
    exec (MainWithBle.ble_stack P)
      (exec (every_3_seconds P (cycle_beside P)) w) in
  (deviceConnected tested = false -> notifications w' = notifications w) /\
  (deviceConnected tested = true ->
   0 <= eval (millis P) tested < 2 ^ 32 /\
   notifications w' =
   render_object (wire_record P (reading w') (eval (millis P) tested))
   :: notifications w) /\
  (undisturbed P (MainWithBle.loop P) w ->
   deviceConnected tested = deviceConnected w).
Proof.
  intros w' tested. subst w'.
  pose proof (MainWithBle_loop_notifications P w) as N. cbv zeta in N.
  fold tested in N.
  split; [| split].
  - intros E. rewrite N, E. reflexivity.
  - intros E. rewrite N, E, eval_json, MainWithBle_loop_reading_tested.
    fold tested. rewrite eval_millis.
    split; [apply uint32_range | reflexivity].
  - intros Q. apply (MainWithBle_loop_calm P w Q).
Qed.

(** X9.  A pass of [loop] of the BLE variant starts advertising again
    once at most: it does when, at the test of line 187, the flag
    [deviceConnected] is down and [oldDeviceConnected] is up, as it then
    still is from the beginning of the pass, and then only.  The
    callbacks may change the flag at any point of the pass.  When none
    comes during the pass, the pass leaves the flag as it found it and
    brings [oldDeviceConnected] in line with it; when a central had left
    before the pass, and then only, the pass waits 500 ms and calls
    [pServer->startAdvertising()] once, and it takes a second and a half
    at least. *)
Theorem reconnection_handled (P : Platform) (w : World) :
  let w' := exec (MainWithBle.loop P) w in
  let tested :=
    exec (MainWithBle.ble_stack P)
      (exec (send_data P)
         (exec (MainWithBle.ble_stack P)
            (exec (every_3_seconds P (cycle_beside P)) w))) in
  let left := negb (deviceConnected w) && oldDeviceConnected w in
  restarts w' =
  (restarts w +
   if negb (deviceConnected tested) && oldDeviceConnected w
   then 1 else 0)%nat /\
  (undisturbed P (MainWithBle.loop P) w ->
   deviceConnected w' = deviceConnected w /\
   oldDeviceConnected w' = deviceConnected w /\
   restarts w' = (restarts w + if left then 1 else 0)%nat /\
   (left = true -> clock w + 1500 <= clock w')).
Proof.
  intros w' tested left. subst w'.
  destruct (MainWithBle_loop_restarts P w) as [O R]. fold tested in O, R.
  split; [exact R |]. intros Q.
  destruct (MainWithBle_loop_calm P w Q) as (C2 & C4 & C5 & C6 & C7 & C10).
  fold tested in C4, C5, C6, C7.
  destruct (MainWithBle_loop_clock P w) as [T4 T10]. fold tested in T4, T10.
  pose proof (restart_advertising_does P tested) as D. cbv zeta in D.
  rewrite O, C4 in D. fold left in D.
  set (w5 := exec (restart_advertising P) tested) in *.
  set (w6 := exec (MainWithBle.ble_stack P) w5) in *.
  pose proof (ble_stack_keeps_old P w5) as O6. fold w6 in O6.
  pose proof (note_connection_does P w6) as E. cbv zeta in E.
  rewrite C6, O6 in E.
  set (w7 := exec (note_connection P) w6) in *.
  assert (O10 : oldDeviceConnected (exec (MainWithBle.loop P) w) =
                oldDeviceConnected w7).
  { rewrite MainWithBle_loop_parts. fold tested. fold w5. fold w6. fold w7.
    rewrite ble_stack_keeps_old.
    rewrite (keeps_side_old _ (delay_keeps_ble_side 1000)).
    apply ble_stack_keeps_old. }
  split; [exact C10 |]. rewrite R, C4, O10. fold left.
  unfold left in *.
  destruct (deviceConnected w), (oldDeviceConnected w);
    cbn [negb andb] in *.
  - rewrite D, O in E. cbn [negb andb] in E. rewrite E, O6, D, O.
    repeat split. discriminate.
  - rewrite D, O in E. cbn [negb andb] in E. rewrite E, C7.
    repeat split. discriminate.
  - destruct D as (D1 & D2 & D3). rewrite E, O6, D2, C5.
    repeat split. intros _. lia.
  - rewrite E, O6, D, O. repeat split. discriminate.
Qed.

(** ** Callbacks in the middle of a pass *)

(** A central that leaves after its record was notified, before the test
    of line 187: the same pass notifies a record and starts advertising
    again. *)
Example leaves_within_a_pass :
  let w' := exec (MainWithBle.loop (bench_callback 5 false)) with_central in
  List.length (notifications w') = 1%nat /\
  restarts w' = 1%nat /\
  deviceConnected w' = false /\
  oldDeviceConnected w' = false.
Proof. vm_compute. repeat split; reflexivity. Qed.

(** A central that connects during the [delay(1000)] that ends the
    pass: the pass ends with the two flags apart, and the record is for
    the next pass to send. *)
Example connects_in_the_last_delay :
  let w' := exec (MainWithBle.loop (bench_callback 5 true)) power_up in
  notifications w' = [] /\
  deviceConnected w' = true /\
  oldDeviceConnected w' = false.
Proof. vm_compute. repeat split; reflexivity. Qed.

(* ================================================================== *)
(** * The pace of the sampling *)

(** The test of [loop] succeeds only when three seconds have really
    passed, whatever the wrap-around of the 32-bit clock. *)
Lemma due_is_real (a b : Z) :
  b <= a -> reading_due (uint32 a) (uint32 b) = true -> 3000 < a - b.
Proof.
  intros H D. unfold reading_due, uint32 in D. rewrite <- Zminus_mod in D.
  apply Z.ltb_lt in D.
  destruct (Z_lt_le_dec 3000 (a - b)) as [|L]; [assumption |].
  rewrite Z.mod_small in D by lia. lia.
Qed.

Lemma stamp_footprint (t : Z) (w : World) :
  clock (exec (modify (set_lastReading t)) w) = clock w /\
  lastReading (exec (modify (set_lastReading t)) w) = t /\
  samples (exec (modify (set_lastReading t)) w) = samples w.
Proof. destruct w. repeat split; reflexivity. Qed.

Lemma paced_kept {B : Type} (c : M B) :
  takes 0 c -> keeps lastReading c -> keeps samples c ->
  forall w, paced w -> paced (exec c w).
Proof.
  intros T L S w [c0 [Hc [Hl Hs]]]. exists c0.
  rewrite L, S. specialize (T w). repeat split; try assumption; lia.
Qed.

Lemma millis_keeps_samples (P : Platform) : keeps samples (millis P).
Proof. intros w. apply millis_footprint. Qed.

Lemma every_3_seconds_paced (P : Platform) (update : M unit) :
  takes 0 update ->
  (forall w, samples (exec update w) = S (samples w)) ->
  forall w, paced w -> paced (exec (every_3_seconds P update) w).
Proof.
  intros T U w Hp. unfold every_3_seconds.
  rewrite exec_bind, exec_bind. cbv beta.
  rewrite exec_get, eval_get, millis_keeps_lastReading.
  destruct (reading_due (eval (millis P) w) (lastReading w)) eqn:D.
  - destruct Hp as [c0 [Hc [Hl Hs]]].
    rewrite eval_millis, Hl in D. apply due_is_real in D; [| lia].
    rewrite exec_bind, exec_bind. cbv beta.
    pose proof (U (exec (millis P) w)) as U1.
    set (w2 := exec update (exec (millis P) w)) in *.
    destruct (stamp_footprint (eval (millis P) w2) (exec (millis P) w2))
      as [F1 [F2 F3]].
    destruct (millis_footprint P w2) as [M1 [_ M3]].
    destruct (millis_footprint P w) as [N1 [_ N3]].
    pose proof (T (exec (millis P) w)) as T1. fold w2 in T1.
    exists (clock w2 + Z.of_N (elapsed P (calls w2))).
    rewrite F1, F2, F3, M1, M3, eval_millis, U1, N3. repeat split; lia.
  - rewrite exec_ret.
    apply paced_kept; [apply takes_millis | apply millis_keeps_lastReading
                      | apply millis_keeps_samples | exact Hp].
Qed.

Lemma tds_sensor_adds_sample (P : Platform) (w : World) :
  samples (exec (tds_sensor P) w) = S (samples w).
Proof. apply tds_adds_sample. Qed.

Lemma MainWithBle_cycle_samples (P : Platform) (w : World) :
  samples (exec (MainWithBle.updateWaterQualityReadings P) w) = S (samples w).
Proof.
  rewrite MainWithBle_update_stages.
  rewrite summary_keeps_samples, ph_keeps_samples, led_keeps_samples,
    assessment_keeps_samples, tds_sensor_adds_sample.
  f_equal; apply (motion_keeps_samples P true).
Qed.

Lemma delay_keeps_lastReading (ms : Z) : keeps lastReading (delay ms).
Proof. unfold delay. keeps_all. Qed.

Lemma delay_keeps_samples (ms : Z) : keeps samples (delay ms).
Proof. unfold delay. keeps_all. Qed.

(** The parts of [loop] of the BLE variant that come after the cycle,
    down to their calls. *)
Ltac unfold_rest :=
  unfold send_data, restart_advertising, note_connection,
    MainWithBle.generateWaterQualityJSON, MainWithBle.ble_stack,
    MainWithBle.onConnect, MainWithBle.onDisconnect, millis, delay,
    Serial_println.

Lemma ble_stack_keeps_lastReading (P : Platform) :
  keeps lastReading (MainWithBle.ble_stack P).
Proof. unfold_rest. keeps_all. Qed.

Lemma ble_stack_keeps_samples (P : Platform) :
  keeps samples (MainWithBle.ble_stack P).
Proof. unfold_rest. keeps_all. Qed.

Lemma send_data_keeps_lastReading (P : Platform) :
  keeps lastReading (send_data P).
Proof. unfold_rest. keeps_all. Qed.

Lemma send_data_keeps_samples (P : Platform) : keeps samples (send_data P).
Proof. unfold_rest. keeps_all. Qed.

Lemma restart_advertising_keeps_lastReading (P : Platform) :
  keeps lastReading (restart_advertising P).
Proof. unfold_rest. keeps_all. Qed.

Lemma restart_advertising_keeps_samples (P : Platform) :
  keeps samples (restart_advertising P).
Proof. unfold_rest. keeps_all. Qed.

Lemma note_connection_keeps_lastReading (P : Platform) :
  keeps lastReading (note_connection P).
Proof. unfold_rest. keeps_all. Qed.

Lemma note_connection_keeps_samples (P : Platform) :
  keeps samples (note_connection P).
Proof. unfold_rest. keeps_all. Qed.

(** What the parts after the cycle keep, the pass keeps from the end of
    its first part on. *)
Lemma MainWithBle_loop_rest {A : Type} (f : World -> A) (P : Platform)
      (w : World) :
  keeps f (MainWithBle.ble_stack P) -> keeps f (send_data P) ->
  keeps f (restart_advertising P) -> keeps f (note_connection P) ->
  keeps f (delay 1000) ->
  f (exec (MainWithBle.loop P) w) =
  f (exec (every_3_seconds P (cycle_beside P)) w).
Proof.
  intros K1 K2 K3 K4 K5. rewrite MainWithBle_loop_parts.
  rewrite K1, K5, K1, K4, K1, K3, K1, K2, K1. reflexivity.
Qed.

(** A count of calls through the cycle and the two points around it. *)
Lemma cycle_beside_count (P : Platform) (f : World -> nat) (g : nat -> nat) :
  keeps f (MainWithBle.ble_stack P) ->
  (forall w, f (exec (MainWithBle.updateWaterQualityReadings P) w) =
             g (f w)) ->
  forall w, f (exec (cycle_beside P) w) = g (f w).
Proof.
  intros K U w. unfold cycle_beside. rewrite !exec_bind. cbv beta.
  rewrite K, U, K. reflexivity.
Qed.

Lemma Main_loop_paced (P : Platform) (w : World) :
  paced w -> paced (exec (Main.loop P) w).
Proof.
  intros H. rewrite Main_loop_parts.
  apply paced_kept;
    [ apply (takes_less 1000 0); [lia | apply takes_delay]
    | apply delay_keeps_lastReading | apply delay_keeps_samples |].
  apply every_3_seconds_paced;
    [apply idle_Main_cycle | apply Main_cycle_samples | exact H].
Qed.

Lemma MainWithBle_loop_paced (P : Platform) (w : World) :
  paced w -> paced (exec (MainWithBle.loop P) w).
Proof.
  pose proof (fun w0 => paced_kept _ (idle_ble_stack P)
                          (ble_stack_keeps_lastReading P)
                          (ble_stack_keeps_samples P) w0) as Point.
  intros H. rewrite MainWithBle_loop_parts.
  apply Point.
  apply paced_kept;
    [ apply (takes_less 1000 0); [lia | apply takes_delay]
    | apply delay_keeps_lastReading | apply delay_keeps_samples |].
  apply Point.
  apply paced_kept;
    [ apply idle_note_connection
    | apply note_connection_keeps_lastReading
    | apply note_connection_keeps_samples |].
  apply Point.
  apply paced_kept;
    [ apply idle_restart_advertising
    | apply restart_advertising_keeps_lastReading
    | apply restart_advertising_keeps_samples |].
  apply Point.
  apply paced_kept;
    [ apply idle_send_data | apply send_data_keeps_lastReading
    | apply send_data_keeps_samples |].
  apply Point.
  apply every_3_seconds_paced;
    [ apply idle_cycle_beside
    | apply (cycle_beside_count P samples S (ble_stack_keeps_samples P)
               (MainWithBle_cycle_samples P))
    | exact H ].
Qed.

Lemma Main_setup_paced (P : Platform) : paced (snd (Main.setup P power_up)).
Proof.
  exists 0. destruct P as [el mf me ad en bc sn sf pf].
  vm_compute. destruct (mf 0%nat); vm_compute;
    repeat split; discriminate.
Qed.

Lemma MainWithBle_setup_paced (P : Platform) :
  paced (snd (MainWithBle.setup P power_up)).
Proof.
  exists 0. destruct P as [el mf me ad en bc sn sf pf].
  vm_compute. destruct (mf 0%nat); vm_compute;
    repeat split; discriminate.
Qed.

Lemma power_up_paced : paced power_up.
Proof. exists 0. vm_compute. repeat split; discriminate. Qed.

Lemma Main_run_paced (P : Platform) (n : nat) : paced (world (Main.run P n)).
Proof.
  induction n as [|n IH].
  - apply power_up_paced.
  - destruct (Main_run_tidy P n) as [_ B].
    rewrite Main_run_succ. destruct (Main.run P n) as [ph w].
    cbn [phase world] in *. unfold Main.step. cbn [phase world].
    destruct ph.
    + rewrite (B eq_refl). pose proof (Main_setup_paced P) as S.
      destruct (Main.setup P power_up) as [ph' w']. exact S.
    + exact IH.
    + cbn [world]. apply Main_loop_paced. exact IH.
Qed.

Lemma stall_keeps_lastReading : keeps lastReading MainWithBle.stall.
Proof. unfold MainWithBle.stall, delay, Serial_println. keeps_all. Qed.

Lemma stall_keeps_samples : keeps samples MainWithBle.stall.
Proof. unfold MainWithBle.stall, delay, Serial_println. keeps_all. Qed.

Lemma stall_takes : takes 1000 MainWithBle.stall.
Proof. intros [c n g l r lr dc odc]. cbn. lia. Qed.

Lemma MainWithBle_run_paced (P : Platform) (n : nat) :
  paced (world (MainWithBle.run P n)).
Proof.
  induction n as [|n IH].
  - apply power_up_paced.
  - destruct (MainWithBle_run_tidy P n) as [_ B].
    rewrite MainWithBle_run_succ. destruct (MainWithBle.run P n) as [ph w].
    cbn [phase world] in *. unfold MainWithBle.step. cbn [phase world].
    destruct ph.
    + rewrite (B eq_refl). pose proof (MainWithBle_setup_paced P) as S.
      destruct (MainWithBle.setup P power_up) as [ph' w']. exact S.
    + cbn [world]. apply paced_kept;
        [ apply (takes_less 1000 0); [lia | apply stall_takes]
        | apply stall_keeps_lastReading | apply stall_keeps_samples
        | exact IH ].
    + cbn [world]. rewrite exec_bind. apply MainWithBle_loop_paced.
      apply paced_kept;
        [ apply idle_ble_stack | apply ble_stack_keeps_lastReading
        | apply ble_stack_keeps_samples | exact IH ].
Qed.

(** X10.  Sampling is paced: all along a run of either variant, three
    seconds of the clock have passed for every sample of the ADC taken
    so far, whatever the platform and across the wrap-around of the
    32-bit millisecond counter. *)
Theorem sampling_is_paced (P : Platform) (n : nat) :
  3000 * Z.of_nat (samples (world (Main.run P n)))
    <= clock (world (Main.run P n)) /\
  3000 * Z.of_nat (samples (world (MainWithBle.run P n)))
    <= clock (world (MainWithBle.run P n)).
Proof.
  split.
  - destruct (Main_run_paced P n) as [c0 [Hc [_ Hs]]]. lia.
  - destruct (MainWithBle_run_paced P n) as [c0 [Hc [_ Hs]]]. lia.
Qed.

(** ** A pass of [loop] takes a second *)

Lemma Main_first_step (P : Platform) :
  phase (Main.run P 1) = Running /\ 2000 <= clock (world (Main.run P 1)).
Proof.
  destruct (Main_after_setup P) as [E [_ [_ C]]]. cbv zeta in E, C.
  split; [exact E | lia].
Qed.

Lemma MainWithBle_first_step (P : Platform) :
  phase (MainWithBle.run P 1) <> Boot /\
  2000 <= clock (world (MainWithBle.run P 1)).
Proof.
  destruct P as [el mf me ad en bc sn sf pf].
  vm_compute. destruct (mf 0%nat); vm_compute;
    split; discriminate.
Qed.

(** X11.  Each pass of [loop] takes a second at least, in both
    variants, so that a run has lasted two seconds for [setup] and one
    more for every pass of [loop] (or of the [while (1)] of the BLE
    variant) it has made. *)
Theorem loop_takes_a_second (P : Platform) (n : nat) :
  (forall w, clock w + 1000 <= clock (exec (Main.loop P) w) /\
             clock w + 1000 <= clock (exec (MainWithBle.loop P) w)) /\
  2000 + 1000 * Z.of_nat n <= clock (world (Main.run P (S n))) /\
  2000 + 1000 * Z.of_nat n <= clock (world (MainWithBle.run P (S n))).
Proof.
  split; [| split].
  - intros w. split; [apply Main_loop_takes | apply MainWithBle_loop_takes].
  - induction n as [|n IH].
    + destruct (Main_first_step P) as [_ C]. lia.
    + rewrite Main_run_succ, (Main_running P n). unfold Main.step.
      cbn [phase world]. rewrite (Main_running P n) in IH.
      cbn [world] in IH.
      pose proof (Main_loop_takes P (Main_passes P n (world (Main.run P 1)))).
      lia.
  - assert (H : phase (MainWithBle.run P (S n)) <> Boot /\
                2000 + 1000 * Z.of_nat n
                <= clock (world (MainWithBle.run P (S n)))).
    { induction n as [|n [I1 I2]].
      - destruct (MainWithBle_first_step P) as [B C]. split; [exact B | lia].
      - rewrite MainWithBle_run_succ.
        destruct (MainWithBle.run P (S n)) as [ph w].
        cbn [phase world] in *. unfold MainWithBle.step. cbn [phase world].
        destruct ph; [contradiction | |]; cbn [phase world];
          (split; [discriminate |]).
        + pose proof (stall_takes w). lia.
        + rewrite exec_bind.
          pose proof (idle_ble_stack P w).
          pose proof (MainWithBle_loop_takes P
                        (exec (MainWithBle.ble_stack P) w)).
          lia. }
    apply H.
Qed.

(* ================================================================== *)
(** * Without the motion sensor the BLE variant stays silent *)

Lemma stall_keeps_ble_side : keeps ble_side MainWithBle.stall.
Proof. unfold MainWithBle.stall, delay, Serial_println. keeps_all. Qed.

Lemma MainWithBle_setup_missing_silent (P : Platform) :
  mpu_found P 0%nat = false ->
  ble_side (world (MainWithBle.run P 1)) = (false, false, []).
Proof.
  destruct P as [el mf me ad en bc sn sf pf]. cbn [mpu_found]. intros H.
  vm_compute. rewrite H. vm_compute. reflexivity.
Qed.

(** X12.  When the motion sensor is not found at start-up, the BLE
    variant never touches the BLE stack: no device is initialised, no
    advertising is started and no record is ever notified, however long
    the firmware runs. *)
Theorem no_sensor_no_radio (P : Platform) (n : nat) :
  mpu_found P 0%nat = false ->
  ble_calls (world (MainWithBle.run P n)) = [] /\
  notifications (world (MainWithBle.run P n)) = [] /\
  deviceConnected (world (MainWithBle.run P n)) = false.
Proof.
  intros H.
  assert (S : ble_side (world (MainWithBle.run P n)) = (false, false, [])).
  { destruct n as [|n]; [reflexivity |]. induction n as [|n IH].
    - apply MainWithBle_setup_missing_silent. exact H.
    - destruct (MainWithBle_stalled_for_ever P n H) as [Ph _].
      rewrite MainWithBle_run_succ.
      destruct (MainWithBle.run P (S n)) as [ph w]. cbn [phase world] in *.
      unfold MainWithBle.step. cbn [phase world]. rewrite Ph. cbn [world].
      rewrite stall_keeps_ble_side. exact IH. }
  rewrite notifications_ble_calls. unfold ble_side in S.
  injection S as S1 _ S3. rewrite S3. repeat split. exact S1.
Qed.

(* ================================================================== *)
(** * How often the firmware looks for the chip *)

Lemma millis_keeps_probes (P : Platform) : keeps probes (millis P).
Proof. unfold millis. keeps_all. Qed.

Lemma delay_keeps_probes (ms : Z) : keeps probes (delay ms).
Proof. unfold delay. keeps_all. Qed.

Lemma motion_keeps_probes (P : Platform) (found : bool) :
  keeps probes (if found then motion_analyzer P else Main.simulated_motion P).
Proof. unfold_sections. keeps_all. Qed.

Lemma tds_sensor_keeps_probes (P : Platform) : keeps probes (tds_sensor P).
Proof. unfold_sections. keeps_all. Qed.

Lemma assessment_keeps_probes : keeps probes water_quality_assessment.
Proof. unfold water_quality_assessment, assign. keeps_all. Qed.

Lemma led_keeps_probes (P : Platform) : keeps probes (led_status_indicators P).
Proof. unfold_sections. keeps_all. Qed.

Lemma ph_keeps_probes (P : Platform) : keeps probes (ph_and_turbidity P).
Proof. unfold_sections. keeps_all. Qed.

Lemma summary_keeps_probes (P : Platform) : keeps probes (serial_summary P).
Proof. unfold_sections. keeps_all. Qed.

Lemma json_keeps_probes (P : Platform) : keeps probes (Main.serial_json P).
Proof. unfold_sections. keeps_all. Qed.

Lemma begin_adds_probe (P : Platform) (w : World) :
  probes (exec (mpu.begin P) w) = S (probes w).
Proof. destruct w. reflexivity. Qed.

Lemma Main_cycle_probes (P : Platform) (w : World) :
  probes (exec (Main.updateWaterQualityReadings P) w) = S (probes w).
Proof.
  rewrite Main_update_stages.
  rewrite json_keeps_probes, summary_keeps_probes, ph_keeps_probes,
    led_keeps_probes, assessment_keeps_probes, tds_sensor_keeps_probes,
    motion_keeps_probes.
  apply begin_adds_probe.
Qed.

Lemma MainWithBle_cycle_probes (P : Platform) (w : World) :
  probes (exec (MainWithBle.updateWaterQualityReadings P) w) = probes w.
Proof.
  rewrite MainWithBle_update_stages.
  rewrite summary_keeps_probes, ph_keeps_probes, led_keeps_probes,
    assessment_keeps_probes, tds_sensor_keeps_probes.
  apply (motion_keeps_probes P true).
Qed.

(** A count of calls through the first part of [loop]: the cycle, when
    it runs, is all that changes it. *)
Lemma every_3_seconds_count (P : Platform) (update : M unit)
      (f : World -> nat) (g : nat -> nat) (w : World) :
  keeps f (millis P) ->
  (forall t, keeps f (modify (set_lastReading t))) ->
  (forall w0, f (exec update w0) = g (f w0)) ->
  f (exec (every_3_seconds P update) w) =
  if reading_due (eval (millis P) w) (lastReading w) then g (f w) else f w.
Proof.
  intros Km Ks U. unfold every_3_seconds.
  rewrite exec_bind, exec_bind. cbv beta.
  rewrite exec_get, eval_get, millis_keeps_lastReading.
  destruct (reading_due (eval (millis P) w) (lastReading w)).
  - rewrite exec_bind, exec_bind. cbv beta. rewrite Ks, Km, U, Km.
    reflexivity.
  - rewrite exec_ret. apply Km.
Qed.

Lemma stamp_keeps_probes (t : Z) : keeps probes (modify (set_lastReading t)).
Proof. intros []. reflexivity. Qed.

Lemma stamp_keeps_samples (t : Z) : keeps samples (modify (set_lastReading t)).
Proof. intros []. reflexivity. Qed.

Lemma Main_loop_probes (P : Platform) (w : World) :
  probes w = S (samples w) ->
  probes (exec (Main.loop P) w) = S (samples (exec (Main.loop P) w)).
Proof.
  intros H. rewrite Main_loop_parts.
  rewrite delay_keeps_probes, delay_keeps_samples.
  rewrite (every_3_seconds_count P _ probes S w (millis_keeps_probes P)
             stamp_keeps_probes (Main_cycle_probes P)).
  rewrite (every_3_seconds_count P _ samples S w (millis_keeps_samples P)
             stamp_keeps_samples (Main_cycle_samples P)).
  rewrite H. destruct (reading_due _ _); reflexivity.
Qed.

Lemma ble_stack_keeps_probes (P : Platform) :
  keeps probes (MainWithBle.ble_stack P).
Proof. unfold_rest. keeps_all. Qed.

Lemma send_data_keeps_probes (P : Platform) : keeps probes (send_data P).
Proof. unfold_rest. keeps_all. Qed.

Lemma restart_advertising_keeps_probes (P : Platform) :
  keeps probes (restart_advertising P).
Proof. unfold_rest. keeps_all. Qed.

Lemma note_connection_keeps_probes (P : Platform) :
  keeps probes (note_connection P).
Proof. unfold_rest. keeps_all. Qed.

Lemma stall_keeps_probes : keeps probes MainWithBle.stall.
Proof. unfold MainWithBle.stall, delay, Serial_println. keeps_all. Qed.

Lemma MainWithBle_loop_probes (P : Platform) (w : World) :
  probes (exec (MainWithBle.loop P) w) = probes w.
Proof.
  rewrite (MainWithBle_loop_rest probes P w (ble_stack_keeps_probes P)
             (send_data_keeps_probes P) (restart_advertising_keeps_probes P)
             (note_connection_keeps_probes P) (delay_keeps_probes 1000)).
  rewrite (every_3_seconds_count P _ probes (fun k => k) w
             (millis_keeps_probes P) stamp_keeps_probes
             (cycle_beside_count P probes (fun k => k)
                (ble_stack_keeps_probes P) (MainWithBle_cycle_probes P))).
  destruct (reading_due _ _); reflexivity.
Qed.

Lemma Main_first_probe (P : Platform) :
  probes (world (Main.run P 1)) = 1%nat /\
  samples (world (Main.run P 1)) = 0%nat.
Proof.
  destruct P as [el mf me ad en bc sn sf pf].
  vm_compute. destruct (mf 0%nat); vm_compute; split; reflexivity.
Qed.

Lemma MainWithBle_first_probe (P : Platform) :
  probes (world (MainWithBle.run P 1)) = 1%nat.
Proof.
  destruct P as [el mf me ad en bc sn sf pf].
  vm_compute. destruct (mf 0%nat); vm_compute; reflexivity.
Qed.

(** X13.  The BLE variant looks for the motion sensor once, in [setup],
    and never again however long it runs; the variant without BLE looks
    for it once in [setup] and once more in every sampling cycle. *)
Theorem probes_of_the_chip (P : Platform) (n : nat) :
  probes (world (MainWithBle.run P (S n))) = 1%nat /\
  probes (world (Main.run P (S n))) = S (samples (world (Main.run P (S n)))).
Proof.
  split.
  - assert (H : phase (MainWithBle.run P (S n)) <> Boot /\
                probes (world (MainWithBle.run P (S n))) = 1%nat).
    { induction n as [|n [I1 I2]].
      - split; [apply MainWithBle_first_step | apply MainWithBle_first_probe].
      - rewrite MainWithBle_run_succ.
        destruct (MainWithBle.run P (S n)) as [ph w].
        cbn [phase world] in *. unfold MainWithBle.step. cbn [phase world].
        destruct ph; [contradiction | |]; cbn [phase world];
          (split; [discriminate |]).
        + rewrite stall_keeps_probes. exact I2.
        + rewrite exec_bind, MainWithBle_loop_probes, ble_stack_keeps_probes.
          exact I2. }
    apply H.
  - induction n as [|n IH].
    + destruct (Main_first_probe P) as [E1 E2]. rewrite E1, E2. reflexivity.
    + rewrite Main_run_succ, (Main_running P n). unfold Main.step.
      cbn [phase world]. rewrite (Main_running P n) in IH. cbn [world] in IH.
      apply Main_loop_probes. exact IH.
Qed.

(* ================================================================== *)
(** * The JSON line of src/main.cpp *)

(** The calls made before the log was [l], newest first. *)
Ltac calls_before l t :=
  lazymatch t with
  | l => constr:(@nil Event)
  | ?e :: ?t' => let p := calls_before l t' in constr:(e :: p)
  end.

Lemma serial_json_calls (P : Platform) (w : World) :
  exists pre,
    log (exec (Main.serial_json P) w) = pre ++ log w /\
    serial_text (rev pre) =
    ("JSON: " ++ render_object (serial_record P (reading w)) ++ crlf)%string.
Proof.
  destruct w as [c n g l r lr dc odc]; destruct r as [p t d tu v vd ws].
  cbn [log reading].
  match goal with
  | |- exists pre, ?L = _ /\ _ =>
      let L' := eval cbn in L in
      let pre := calls_before l L' in
      exists pre
  end.
  split; [reflexivity |].
  unfold render_object, serial_record, render_members, render_member,
    render_value.
  cbn. repeat (rewrite !string_app_assoc; cbn). reflexivity.
Qed.

(** X14.  The last section of the cycle of src/main.cpp puts one line
    on the serial port: [JSON: ] followed by a JSON object of seven
    members, [pH], [temperature], [tds], [turbidity], [vibration],
    [vibrationDetected] and [waterStatus], with 2, 1, 1, 2 and 2
    decimals for the numbers.  Where [Serial.print] and [String] print
    numbers alike, these are the first seven members of the wire record
    of the BLE variant: the line lacks [timestamp], [deviceId] and
    [status]. *)
Theorem serial_json_line (P : Platform) (w : World) :
  exists evs,
    trace (exec (Main.serial_json P) w) = trace w ++ evs /\
    serial_text evs =
    ("JSON: " ++ render_object (serial_record P (reading w)) ++ crlf)%string /\
    (prints_alike P ->
     forall now,
       serial_record P (reading w) = firstn 7 (wire_record P (reading w) now)).
Proof.
  destruct (serial_json_calls P w) as [pre [E T]].
  exists (rev pre). split; [| split].
  - unfold trace. rewrite E. apply rev_app_distr.
  - exact T.
  - intros H now. unfold serial_record, wire_record. cbn [firstn].
    rewrite !H. reflexivity.
Qed.

(* ================================================================== *)
(** * Before the first sample *)

Lemma every_3_seconds_keeps_gpio (P : Platform) (update : M unit)
      (w : World) :
  reading_due (eval (millis P) w) (lastReading w) = false ->
  gpio (exec (every_3_seconds P update) w) = gpio w /\
  reading (exec (every_3_seconds P update) w) = reading w.
Proof.
  intros D. unfold every_3_seconds.
  rewrite exec_bind, exec_bind. cbv beta.
  rewrite exec_get, eval_get, millis_keeps_lastReading, D, exec_ret.
  split; [apply millis_keeps_gpio | apply millis_keeps_reading].
Qed.

Lemma delay_keeps_gpio (ms : Z) : keeps gpio (delay ms).
Proof. unfold delay. keeps_all. Qed.

Lemma ble_stack_keeps_gpio (P : Platform) :
  keeps gpio (MainWithBle.ble_stack P).
Proof. unfold_rest. keeps_all. Qed.

Lemma stall_keeps_gpio : keeps gpio MainWithBle.stall.
Proof. unfold MainWithBle.stall, delay, Serial_println. keeps_all. Qed.

Lemma stall_keeps_reading : keeps reading MainWithBle.stall.
Proof. unfold MainWithBle.stall, delay, Serial_println. keeps_all. Qed.

Lemma Main_loop_samples (P : Platform) (w : World) :
  samples (exec (Main.loop P) w) =
  if reading_due (eval (millis P) w) (lastReading w)
  then S (samples w) else samples w.
Proof.
  rewrite Main_loop_parts, delay_keeps_samples.
  apply (every_3_seconds_count P _ samples S w (millis_keeps_samples P)
           stamp_keeps_samples (Main_cycle_samples P)).
Qed.

Lemma MainWithBle_loop_samples (P : Platform) (w : World) :
  samples (exec (MainWithBle.loop P) w) =
  if reading_due (eval (millis P) w) (lastReading w)
  then S (samples w) else samples w.
Proof.
  rewrite (MainWithBle_loop_rest samples P w (ble_stack_keeps_samples P)
             (send_data_keeps_samples P) (restart_advertising_keeps_samples P)
             (note_connection_keeps_samples P) (delay_keeps_samples 1000)).
  apply (every_3_seconds_count P _ samples S w (millis_keeps_samples P)
           stamp_keeps_samples
           (cycle_beside_count P samples S (ble_stack_keeps_samples P)
              (MainWithBle_cycle_samples P))).
Qed.

Lemma Main_loop_untouched (P : Platform) (w : World) :
  untouched w -> untouched (exec (Main.loop P) w).
Proof.
  intros U H. rewrite Main_loop_samples in H.
  destruct (reading_due (eval (millis P) w) (lastReading w)) eqn:D;
    [discriminate |].
  destruct (U H) as [R G].
  destruct (loop_not_due_keeps_gpio P w D) as [_ G'].
  rewrite Main_loop_reading, D, G'. split; assumption.
Qed.

Lemma MainWithBle_loop_untouched (P : Platform) (w : World) :
  untouched w -> untouched (exec (MainWithBle.loop P) w).
Proof.
  intros U H. rewrite MainWithBle_loop_samples in H.
  destruct (reading_due (eval (millis P) w) (lastReading w)) eqn:D;
    [discriminate |].
  destruct (U H) as [R G].
  destruct (loop_not_due_keeps_gpio P w D) as [G' _].
  rewrite MainWithBle_loop_reading, D, G'. split; assumption.
Qed.

Lemma untouched_kept {B : Type} (c : M B) :
  keeps samples c -> keeps reading c -> keeps gpio c ->
  forall w, untouched w -> untouched (exec c w).
Proof.
  intros S R G w U H. rewrite S in H. rewrite R, G. apply U. exact H.
Qed.

Lemma Main_setup_untouched (P : Platform) :
  untouched (snd (Main.setup P power_up)).
Proof.
  intros _. destruct P as [el mf me ad en bc sn sf pf].
  vm_compute. destruct (mf 0%nat); vm_compute; split; reflexivity.
Qed.

Lemma MainWithBle_setup_untouched (P : Platform) :
  untouched (snd (MainWithBle.setup P power_up)).
Proof.
  intros _. destruct P as [el mf me ad en bc sn sf pf].
  vm_compute. destruct (mf 0%nat); vm_compute; split; reflexivity.
Qed.

Lemma Main_run_untouched (P : Platform) (n : nat) :
  untouched (world (Main.run P n)).
Proof.
  induction n as [|n IH].
  - intros _. split; reflexivity.
  - destruct (Main_run_tidy P n) as [_ B].
    rewrite Main_run_succ. destruct (Main.run P n) as [ph w].
    cbn [phase world] in *. unfold Main.step. cbn [phase world].
    destruct ph.
    + rewrite (B eq_refl). pose proof (Main_setup_untouched P) as S.
      destruct (Main.setup P power_up) as [ph' w']. exact S.
    + exact IH.
    + cbn [world]. apply Main_loop_untouched. exact IH.
Qed.

Lemma MainWithBle_run_untouched (P : Platform) (n : nat) :
  untouched (world (MainWithBle.run P n)).
Proof.
  induction n as [|n IH].
  - intros _. split; reflexivity.
  - destruct (MainWithBle_run_tidy P n) as [_ B].
    rewrite MainWithBle_run_succ. destruct (MainWithBle.run P n) as [ph w].
    cbn [phase world] in *. unfold MainWithBle.step. cbn [phase world].
    destruct ph.
    + rewrite (B eq_refl). pose proof (MainWithBle_setup_untouched P) as S.
      destruct (MainWithBle.setup P power_up) as [ph' w']. exact S.
    + cbn [world]. apply untouched_kept;
        [ apply stall_keeps_samples | apply stall_keeps_reading
        | apply stall_keeps_gpio | exact IH ].
    + cbn [world]. rewrite exec_bind. apply MainWithBle_loop_untouched.
      apply untouched_kept;
        [ apply ble_stack_keeps_samples | apply ble_stack_keeps_reading
        | apply ble_stack_keeps_gpio | exact IH ].
Qed.

(** X15.  Until the first sample of the ADC is taken, a run of either
    variant shows nothing: the reading holds the initial values, with
    the status [unknown], and the three LEDs are off after every step. *)
Theorem dark_until_first_sample (P : Platform) (n : nat) :
  (samples (world (Main.run P n)) = 0%nat ->
   reading (world (Main.run P n)) = reading power_up /\
   waterStatus (reading (world (Main.run P n))) = "unknown"%string /\
   gpio (world (Main.run P n)) = all_off) /\
  (samples (world (MainWithBle.run P n)) = 0%nat ->
   reading (world (MainWithBle.run P n)) = reading power_up /\
   waterStatus (reading (world (MainWithBle.run P n))) = "unknown"%string /\
   gpio (world (MainWithBle.run P n)) = all_off).
Proof.
  split; intros H.
  - destruct (Main_run_untouched P n H) as [R G].
    split; [exact R |]. split; [rewrite R; reflexivity | exact G].
  - destruct (MainWithBle_run_untouched P n H) as [R G].
    split; [exact R |]. split; [rewrite R; reflexivity | exact G].
Qed.

(* ================================================================== *)
(** * The yellow LED under vibration *)

(** X16.  With the status [vibration_detected] the LED section leaves
    green and red off and drives yellow once, by the half second the
    clock is in when the section reads it: high in an odd one, low in an
    even one. *)
Theorem vibration_led_level (P : Platform) (w : World) :
  waterStatus (reading w) = "vibration_detected"%string ->
  let t := uint32 (clock w + Z.of_N (elapsed P (calls w))) in
  let g := gpio (exec (led_status_indicators P) w) in
  green g = false /\ red g = false /\
  (yellow g = true <-> (t / 500) mod 2 = 1).
Proof.
  intros H t g. subst g. rewrite led_gpio. cbv zeta. rewrite H. fold t.
  cbn [String.eqb Ascii.eqb Bool.eqb andb green yellow red].
  split; [reflexivity |]. split; [reflexivity |].
  pose proof (Z.mod_pos_bound (t / 500) 2 ltac:(lia)) as B.
  destruct (Z.eqb_spec ((t / 500) mod 2) 0) as [E | E]; cbn [negb].
  - split; [discriminate | lia].
  - split; [intros _; lia | reflexivity].
Qed.

(* ================================================================== *)
(** * The further theorems at work on the bench *)

(** The first cycle of a bench at rest whose ADC reads 300 ends with the
    status [clean]. *)
Lemma adc_status_bands_witness :
  last_read (exec (Main.updateWaterQualityReadings (bench true at_rest 300 0))
               power_up) = Some 300 /\
  0 <= 300 <= ADC_RES /\
  status_of (exec (Main.updateWaterQualityReadings (bench true at_rest 300 0))
               power_up) = "clean"%string.
Proof.
  set (w' := exec (Main.updateWaterQualityReadings (bench true at_rest 300 0))
               power_up).
  assert (L : last_read w' = Some 300) by (vm_compute; reflexivity).
  assert (R : 0 <= 300 <= ADC_RES) by (vm_compute; split; discriminate).
  split; [exact L |]. split; [exact R |].
  destruct (adc_status_bands (bench true at_rest 300 0) power_up w' 300
              (or_introl eq_refl) L R) as [B _].
  assert (F : flagged w' = false) by (vm_compute; reflexivity).
  rewrite F in B. apply B. vm_compute. reflexivity.
Defined.

(** 100 counts convert to no more than 200 counts do. *)
Lemma convert_monotone_witness :
  0 <= 100 /\ 100 <= 200 /\ 200 <= ADC_RES /\
  Fleb (convert 100) (convert 200) = true.
Proof.
  assert (H1 : 0 <= 100) by discriminate.
  assert (H2 : 100 <= 200) by discriminate.
  assert (H3 : 200 <= ADC_RES) by discriminate.
  split; [exact H1 |]. split; [exact H2 |]. split; [exact H3 |].
  destruct (convert_monotone 100 200 H1 H2 H3) as [M _]. exact M.
Defined.

(** At 2048 counts the compensated voltage is the voltage. *)
Lemma compensation_is_identity_witness :
  0 <= adc_sample (bench true at_rest 2048 0) (calls power_up) <= ADC_RES /\
  F32.div (voltage_of 2048) compensation = voltage_of 2048.
Proof.
  assert (R : 0 <= adc_sample (bench true at_rest 2048 0) (calls power_up)
              <= ADC_RES)
    by (vm_compute; split; discriminate).
  split; [exact R |].
  destruct (compensation_is_identity (bench true at_rest 2048 0) power_up
              S754_nan R) as [_ [V _]].
  exact V.
Defined.

(** A sample without a number on the x axis raises no vibration. *)
Lemma nan_sample_no_vibration_witness :
  is_nan (acceleration_x broken_sample)
  || is_nan (acceleration_y broken_sample)
  || is_nan (acceleration_z broken_sample) = true /\
  vibrationDetected
    (reading (exec (motion_analyzer (bench true broken_sample 300 0))
                power_up)) = false.
Proof.
  split; [reflexivity |].
  destruct (nan_sample_no_vibration (bench true broken_sample 300 0)
              power_up eq_refl) as [_ V].
  exact V.
Defined.

(** A TDS value that is not a number leaves the status [unknown]. *)
Lemma classifier_nan_tds_witness :
  tds (reading no_tds) = S754_nan /\
  waterStatus (reading (exec water_quality_assessment no_tds))
  = "unknown"%string.
Proof.
  split; [reflexivity |].
  destruct (classifier_nan_tds no_tds eq_refl) as [_ S]. exact S.
Defined.

(** On the bench [tds] is in its range after nine steps. *)
Lemma tds_stays_in_range_witness :
  adc_12_bit (bench true at_rest 300 250) /\
  in_tds_range
    (tds (reading (world (Main.run (bench true at_rest 300 250) 9)))).
Proof.
  assert (H : adc_12_bit (bench true at_rest 300 250))
    by (intros n; vm_compute; split; discriminate).
  split; [exact H |].
  destruct (tds_stays_in_range (bench true at_rest 300 250) 9 H) as [M _].
  exact M.
Defined.

(** A bench without the chip has made no call to the BLE stack after 30
    steps. *)
Lemma no_sensor_no_radio_witness :
  mpu_found (bench false at_rest 300 0) 0%nat = false /\
  ble_calls (world (MainWithBle.run (bench false at_rest 300 0) 30)) = [].
Proof.
  split; [reflexivity |].
  destruct (no_sensor_no_radio (bench false at_rest 300 0) 30 eq_refl)
    as [S _].
  exact S.
Defined.

(** At 700 ms, in the second half second, yellow goes high. *)
Lemma vibration_led_level_witness :
  waterStatus (reading shaking_at_700) = "vibration_detected"%string /\
  yellow (gpio (exec (led_status_indicators (bench true shaken 300 0))
                  shaking_at_700)) = true.
Proof.
  split; [reflexivity |].
  destruct (vibration_led_level (bench true shaken 300 0) shaking_at_700
              eq_refl) as [_ [_ Y]].
  apply Y. vm_compute. reflexivity.
Defined.

(** A central that connects after [setup] is sent one record by the
    next pass of [loop], during which no callback comes. *)
Lemma notify_iff_connected_witness :
  undisturbed (bench_connected 300 0)
    (MainWithBle.loop (bench_connected 300 0))
    (exec (MainWithBle.ble_stack (bench_connected 300 0))
       (world (MainWithBle.run (bench_connected 300 0) 1))) /\
  List.length
    (notifications
       (exec (MainWithBle.loop (bench_connected 300 0))
          (exec (MainWithBle.ble_stack (bench_connected 300 0))
             (world (MainWithBle.run (bench_connected 300 0) 1)))))
  = 1%nat.
Proof.
  set (w := exec (MainWithBle.ble_stack (bench_connected 300 0))
              (world (MainWithBle.run (bench_connected 300 0) 1))).
  assert (C : deviceConnected w = true) by (vm_compute; reflexivity).
  assert (N : calls w = 2%nat) by (vm_compute; reflexivity).
  assert (U : undisturbed (bench_connected 300 0)
                (MainWithBle.loop (bench_connected 300 0)) w).
  { unfold undisturbed. rewrite N. intros n [Hn _].
    destruct n as [|[|n]]; [lia | lia | reflexivity]. }
  split; [exact U |].
  destruct (notify_iff_connected (bench_connected 300 0) w)
    as (_ & Send & Same).
  rewrite <- (Same U) in C.
  destruct (Send C) as [_ E]. rewrite E. reflexivity.
Defined.

(** A central that has left makes the next pass start advertising
    again, when no callback comes during the pass. *)
Lemma reconnection_handled_witness :
  undisturbed (bench true at_rest 300 0)
    (MainWithBle.loop (bench true at_rest 300 0)) just_left /\
  restarts (exec (MainWithBle.loop (bench true at_rest 300 0)) just_left)
  = 1%nat /\
  oldDeviceConnected
    (exec (MainWithBle.loop (bench true at_rest 300 0)) just_left) = false.
Proof.
  assert (U : undisturbed (bench true at_rest 300 0)
                (MainWithBle.loop (bench true at_rest 300 0)) just_left)
    by (intros n _; reflexivity).
  split; [exact U |].
  destruct (reconnection_handled (bench true at_rest 300 0) just_left)
    as [_ H].
  destruct (H U) as (_ & O & R & _).
  split; [exact R | exact O].
Defined.

(** Two steps into a run of the bench no sample is taken yet and the
    LEDs are off. *)
Lemma dark_until_first_sample_witness :
  samples (world (MainWithBle.run (bench true at_rest 300 0) 2)) = 0%nat /\
  gpio (world (MainWithBle.run (bench true at_rest 300 0) 2)) = all_off.
Proof.
  assert (S : samples (world (MainWithBle.run (bench true at_rest 300 0) 2))
              = 0%nat)
    by (vm_compute; reflexivity).
  split; [exact S |].
  destruct (dark_until_first_sample (bench true at_rest 300 0) 2) as [_ D].
  apply (D S).
Defined.

(* ================================================================== *)
(** * Start-up without the motion sensor *)

(** ** The chip is read by the motion analyzer alone *)

Lemma millis_keeps_chip_reads (P : Platform) : keeps chip_reads (millis P).
Proof. unfold millis. keeps_all. Qed.

Lemma delay_keeps_chip_reads (ms : Z) : keeps chip_reads (delay ms).
Proof. unfold delay. keeps_all. Qed.

Lemma stamp_keeps_chip_reads (t : Z) :
  keeps chip_reads (modify (set_lastReading t)).
Proof. intros []. reflexivity. Qed.

Lemma begin_keeps_chip_reads (P : Platform) : keeps chip_reads (mpu.begin P).
Proof. intros []. reflexivity. Qed.

Lemma simulated_motion_keeps_chip_reads (P : Platform) :
  keeps chip_reads (Main.simulated_motion P).
Proof. unfold_sections. keeps_all. Qed.

Lemma tds_sensor_keeps_chip_reads (P : Platform) :
  keeps chip_reads (tds_sensor P).
Proof. unfold_sections. keeps_all. Qed.

Lemma assessment_keeps_chip_reads : keeps chip_reads water_quality_assessment.
Proof. unfold water_quality_assessment, assign. keeps_all. Qed.

Lemma led_keeps_chip_reads (P : Platform) :
  keeps chip_reads (led_status_indicators P).
Proof. unfold_sections. keeps_all. Qed.

Lemma ph_keeps_chip_reads (P : Platform) :
  keeps chip_reads (ph_and_turbidity P).
Proof. unfold_sections. keeps_all. Qed.

Lemma summary_keeps_chip_reads (P : Platform) :
  keeps chip_reads (serial_summary P).
Proof. unfold_sections. keeps_all. Qed.

Lemma json_keeps_chip_reads (P : Platform) :
  keeps chip_reads (Main.serial_json P).
Proof. unfold_sections. keeps_all. Qed.

(** A cycle whose [mpu.begin()] fails does not read the chip. *)
Lemma Main_cycle_chip_reads (P : Platform) (w : World) :
  mpu_found P (calls w) = false ->
  chip_reads (exec (Main.updateWaterQualityReadings P) w) = chip_reads w.
Proof.
  intros H. rewrite Main_update_stages, H.
  rewrite json_keeps_chip_reads, summary_keeps_chip_reads,
    ph_keeps_chip_reads, led_keeps_chip_reads, assessment_keeps_chip_reads,
    tds_sensor_keeps_chip_reads, simulated_motion_keeps_chip_reads.
  apply begin_keeps_chip_reads.
Qed.

Lemma Main_loop_chip_reads (P : Platform) (w : World) :
  chip_absent P -> chip_reads (exec (Main.loop P) w) = chip_reads w.
Proof.
  intros H. rewrite Main_loop_parts, delay_keeps_chip_reads.
  rewrite (every_3_seconds_count P _ chip_reads (fun k => k) w
             (millis_keeps_chip_reads P) stamp_keeps_chip_reads
             (fun w0 => Main_cycle_chip_reads P w0 (H (calls w0)))).
  destruct (reading_due _ _); reflexivity.
Qed.

Lemma Main_setup_chip_reads (P : Platform) :
  chip_reads (world (Main.run P 1)) = 0%nat.
Proof.
  destruct P as [el mf me ad en bc sn sf pf].
  vm_compute. destruct (mf 0%nat); vm_compute; reflexivity.
Qed.

Lemma Main_run_chip_reads (P : Platform) (n : nat) :
  chip_absent P -> chip_reads (world (Main.run P n)) = 0%nat.
Proof.
  intros H. destruct n as [|n]; [reflexivity |].
  induction n as [|n IH].
  - apply Main_setup_chip_reads.
  - rewrite Main_run_succ, (Main_running P n). unfold Main.step.
    cbn [phase world]. rewrite (Main_running P n) in IH. cbn [world] in IH.
    rewrite Main_loop_chip_reads by exact H. exact IH.
Qed.

(** ** The values of the simulated mode *)

(** Every draw gives a temperature within three degrees of 22.0. *)
Lemma fallback_temperature_all :
  forallb (fun k =>
             between (F64.lit 19 1) (F64.lit 25 1)
               (Main.simulated_temperature k))
          (Zrange (-30) 60) = true.
Proof. vm_compute. reflexivity. Qed.

Lemma Main_cycle_simulated (P : Platform) (w : World) :
  mpu_found P (calls w) = false ->
  simulated_mode (reading (exec (Main.updateWaterQualityReadings P) w)).
Proof.
  intros H.
  destruct (Main_cycle_fallback P w H) as (R1 & R2 & R3 & _).
  cbv zeta in R1, R2, R3.
  pose proof fallback_all as Hall. apply andb_true_iff in Hall.
  destruct Hall as [Hv _].
  pose proof (Z.mod_pos_bound (entropy P (S (calls w))) 100) as B1.
  pose proof (Z.mod_pos_bound (entropy P (S (S (calls w)))) 60) as B2.
  unfold simulated_mode. rewrite R1, R2, R3.
  split; [reflexivity |]. split.
  - apply (forallb_Zrange _ (-50) 100 Hv). lia.
  - apply (forallb_Zrange _ (-30) 60 fallback_temperature_all). lia.
Qed.

Lemma power_up_simulated : simulated_mode (reading power_up).
Proof. repeat split; vm_compute; reflexivity. Qed.

Lemma Main_run_simulated (P : Platform) (n : nat) :
  chip_absent P -> simulated_mode (reading (world (Main.run P n))).
Proof.
  intros H. apply (Main_run_good P simulated_mode power_up_simulated).
  intros w _. apply Main_cycle_simulated, H.
Qed.

(** C9, as stated, fails.  On a bench whose chip does not answer the
    [mpu.begin()] of [setup] and answers the later ones, the variant
    without BLE does not stay in simulated mode: its first sampling
    cycle, in the second step of the run, finds the chip, reads it and
    reports the vibration it measures. *)
Lemma simulated_mode_not_kept :
  let w := world (Main.run late_chip 2) in
  mpu_found late_chip 0%nat = false /\
  phase (Main.run late_chip 2) = Running /\
  samples w = 1%nat /\
  chip_reads w = 1%nat /\
  vibrationDetected (reading w) = true /\
  ~ simulated_mode (reading w).
Proof.
  vm_compute. repeat split; try reflexivity.
  intros [H _]. discriminate H.
Qed.

(** C9.  When [mpu.begin()] fails in [setup] (the call 0): the variant
    with BLE flashes the red LED five times and parks for ever, no
    sampling cycle ever running and the reading staying at its
    initialisers; the variant without BLE flashes the red LED five times
    as well, logs that it continues without the chip, and keeps running
    [loop], where, on a platform that lets less than [2^31] ms pass
    between two looks at the clock, every four passes run at least one
    sampling cycle.  The variant without BLE looks for the chip again in
    every cycle, and a cycle is simulated when that [mpu.begin()] fails:
    the chip is not read, [vibrationDetected] is false and the
    vibration and the temperature are made up from the two draws of
    [random] that follow.  So the variant stays in simulated mode as long
    as the chip stays absent: when no [mpu.begin()] is ever answered, the
    chip is never read and the motion values are simulated ones all
    along the run. *)
Theorem startup_without_sensor (P : Platform) :
  mpu_found P 0%nat = false ->
  (trace (world (MainWithBle.run P 1)) =
     [SerialBegin 115200; Delay 1000;
      SerialPrintln "Starting ESP32 Water Quality Sensor with Real Sensors...";
      SerialPrintln "PlatformIO Version"]
     ++ pins_off
     ++ [MpuBegin false; SerialPrintln "Failed to find MPU6050 chip!"]
     ++ red_flashes) /\
  (forall n,
     phase (MainWithBle.run P (S n)) = Stalled /\
     samples (world (MainWithBle.run P (S n))) = 0%nat /\
     reading (world (MainWithBle.run P (S n))) = reading power_up) /\
  (trace (world (Main.run P 1)) =
     [SerialBegin 115200; Delay 1000;
      SerialPrintln "Starting ESP32 Water Quality Sensor (Test Version)..."]
     ++ pins_off
     ++ [MpuBegin false; SerialPrintln "Failed to find MPU6050 chip!"]
     ++ red_flashes
     ++ [SerialPrintln "Continuing without MPU6050...";
         SerialPrintln "System ready. Monitoring water quality...";
         DigitalWrite LED_GREEN true; Delay 1000;
         DigitalWrite LED_GREEN false]) /\
  (forall n, phase (Main.run P (S n)) = Running) /\
  (prompt P ->
   forall k, (k <= samples (world (Main.run P (S (4 * k)))))%nat) /\
  (forall w,
     mpu_found P (calls w) = false ->
     let w' := exec (Main.updateWaterQualityReadings P) w in
     let k1 := eval (random P (-50) 50) (exec (mpu.begin P) w) in
     let k2 := entropy P (S (S (calls w))) mod 60 - 30 in
     k1 = entropy P (S (calls w)) mod 100 - 50 /\
     chip_reads w' = chip_reads w /\
     vibration (reading w') = Main.simulated_vibration k1 /\
     vibrationDetected (reading w') = false /\
     temperature (reading w') = Main.simulated_temperature k2 /\
     simulated_mode (reading w')) /\
  (chip_absent P ->
   forall n,
     chip_reads (world (Main.run P n)) = 0%nat /\
     simulated_mode (reading (world (Main.run P n)))).
Proof.
  intros H.
  split; [apply MainWithBle_setup_missing; assumption |].
  split.
  { intros n. destruct (MainWithBle_stalled_for_ever P n H) as [A [B [C _]]].
    repeat split; assumption. }
  split; [apply Main_setup_missing; assumption |].
  split.
  { intros n. rewrite Main_running. reflexivity. }
  split.
  { intros Hp k. rewrite Main_running. cbn [world].
    destruct (Main_after_setup P) as [_ [L [S0 C]]]. cbv zeta in L, S0, C.
    set (w := world (Main.run P 1)) in *.
    assert (A : last_reading_ago (clock w) w).
    { unfold last_reading_ago. rewrite L, Z.sub_diag. reflexivity. }
    destruct (Main_cycles_keep_coming P k Hp w (clock w) A ltac:(lia))
      as [S1 _].
    lia. }
  split.
  { intros w F w' k1 k2.
    destruct (Main_cycle_fallback P w F) as (R1 & R2 & R3 & _).
    cbv zeta in R1, R2, R3. fold w' in R1, R2, R3.
    destruct (simulated_motion_draws P w) as [K1 _].
    change (k1 = entropy P (S (calls w)) mod 100 + -50) in K1.
    split; [rewrite K1; lia |].
    split; [apply Main_cycle_chip_reads; exact F |].
    split; [rewrite K1; exact R1 |]. split; [exact R2 |].
    split; [exact R3 |]. apply Main_cycle_simulated. exact F. }
  intros A n. split.
  - apply Main_run_chip_reads. exact A.
  - apply Main_run_simulated. exact A.
Qed.

(** A bench without the chip: the variant with BLE is parked after 20
    steps; the variant without BLE has run at least 4 cycles after 17,
    and has not read the chip; a cycle from power-up reports no
    vibration. *)
Lemma startup_without_sensor_witness :
  mpu_found (bench false at_rest 300 0) 0%nat = false /\
  chip_absent (bench false at_rest 300 0) /\
  phase (MainWithBle.run (bench false at_rest 300 0) 20) = Stalled /\
  (4 <= samples (world (Main.run (bench false at_rest 300 0) 17)))%nat /\
  chip_reads (world (Main.run (bench false at_rest 300 0) 17)) = 0%nat /\
  vibrationDetected
    (reading (exec (Main.updateWaterQualityReadings
                      (bench false at_rest 300 0)) power_up)) = false.
Proof.
  split; [reflexivity |]. split; [intros n; reflexivity |].
  destruct (startup_without_sensor (bench false at_rest 300 0) eq_refl)
    as (_ & St & _ & _ & Live & Cycle & Sim).
  split; [apply (St 19%nat) |]. split; [| split].
  - apply (Live (fun n => eq_refl) 4%nat).
  - apply (Sim (fun n => eq_refl) 17%nat).
  - destruct (Cycle power_up eq_refl) as (_ & _ & _ & V & _). exact V.
Defined.
